(** * cpp-pubsub: topic filters, subscriptions and the broker's dispatch core

    A shallow embedding of [src/topic.cpp], [src/subscription.cpp],
    [src/broker.cpp], [src/message.cpp] and [src/pubsub.cpp], followed by
    the properties of the specification that were checked against it and by
    further properties of the code.

    Conventions.
    - [size_t] and [uint64_t] values are integers in [Z] with the wrap-around
      at [2^64] written out where the code increments them.
    - [std::string] is [string] (a sequence of 8-bit characters).
    - Objects held through [std::shared_ptr] live in a store indexed by
      addresses ([loc]); the registry and the snapshots taken by the workers
      hold addresses, so that a change made to a subscription through one
      reference is seen through every other one.
    - Code that can throw returns an [outcome].
    - A callback is user code: it is given by what one run of it does, the
      calls it makes into the library, whether it ends by throwing, and the
      application state it leaves.
    - The worker threads are followed one turn of their loop at a time. *)

From stdpp Require Import gmap strings list pretty.
From Stdlib Require Import ZArith Ascii String.

Local Open Scope string_scope.
Local Open Scope Z_scope.
Local Open Scope list_scope.

(** [Ok a]: normal return. [Throws]: a C++ exception leaves the function.
    [Unmodelled]: the input uses a feature of the standard library that this
    development does not describe (see [Regex.scan]); no pattern leads there
    ([compile_covers], [subscribe_covers]). *)
Inductive outcome (A : Type) : Type :=
| Ok (a : A)
| Throws
| Unmodelled.
Arguments Ok {A} a.
Arguments Throws {A}.
Arguments Unmodelled {A}.

#[global] Instance outcome_ret : MRet outcome := fun A a => Ok a.

#[global] Instance outcome_bind : MBind outcome := fun A B k o =>
  match o with
  | Ok a => k a
  | Throws => Throws
  | Unmodelled => Unmodelled
  end.

(** ** [std::regex], ECMAScript grammar, as far as [wildcardToRegex] uses it

    [WildcardTopicFilter] hands the string built by [wildcardToRegex] to
    [std::regex] (default flags: ECMAScript) and asks [std::regex_match] for a
    match of the whole topic.  The strings [wildcardToRegex] can build contain
    no group, assertion, back-reference or class escape, and their only
    bracket expression is [[^/]]; the grammar below covers that fragment,
    following the scanner and the recursive-descent compiler of libstdc++
    ([bits/regex_scanner.tcc], [bits/regex_compiler.tcc]).  On anything else
    [scan] answers [Unmodelled].  The limits of the implementation (size of
    the automaton, depth of the matcher's recursion) are not described. *)
Module Regex.

(** What one automaton transition accepts. *)
Inductive matcher : Type :=
| CharMatcher (c : ascii)          (* an ordinary character *)
| AnyMatcher                       (* [.]: anything but LF and CR *)
| BracketNegMatcher (c : ascii).   (* [[^c]] *)

Definition LF : ascii := ascii_of_nat 10.
Definition CR : ascii := ascii_of_nat 13.

Definition matcher_apply (m : matcher) (ch : ascii) : bool :=
  match m with
  | CharMatcher c => Ascii.eqb ch c
  | AnyMatcher => negb (Ascii.eqb ch LF) && negb (Ascii.eqb ch CR)
  | BracketNegMatcher c => negb (Ascii.eqb ch c)
  end.

Inductive regex : Type :=
| Void
| Eps
| Sym (m : matcher)
| Cat (r1 r2 : regex)
| Alt (r1 r2 : regex)
| Star (r : regex).

(** The language of a regular expression. *)
Inductive lang : regex -> list ascii -> Prop :=
| lang_eps : lang Eps []
| lang_sym m ch : matcher_apply m ch = true -> lang (Sym m) [ch]
| lang_cat r1 r2 s1 s2 : lang r1 s1 -> lang r2 s2 -> lang (Cat r1 r2) (s1 ++ s2)
| lang_alt_l r1 r2 s : lang r1 s -> lang (Alt r1 r2) s
| lang_alt_r r1 r2 s : lang r2 s -> lang (Alt r1 r2) s
| lang_star_nil r : lang (Star r) []
| lang_star_cons r s1 s2 : lang r s1 -> lang (Star r) s2 -> lang (Star r) (s1 ++ s2).

(** Tokens of the scanner ([_S_token_*]); a whole bracket expression is one
    token here, and [token_dup_count] carries its digits ([_M_value]). *)
Inductive token : Type :=
| token_ord_char (c : ascii)
| token_anychar
| token_closure0
| token_closure1
| token_opt
| token_or
| token_bracket_neg (c : ascii)
| token_interval_begin
| token_dup_count (digits : list ascii)
| token_comma
| token_interval_end.

(** [_S_state_normal] and [_S_state_in_brace]. *)
Inductive scan_state : Type := state_normal | state_in_brace.

(** [_M_ecma_spec_char]. *)
Definition ecma_spec_char : list ascii := list_ascii_of_string "^$\.*+?()[]{}|".

Definition is_spec_char (c : ascii) : bool := existsb (Ascii.eqb c) ecma_spec_char.

(** [_M_ctype.is(digit, c)] in the classic locale. *)
Definition is_digit (c : ascii) : bool :=
  (48 <=? nat_of_ascii c)%nat && (nat_of_ascii c <=? 57)%nat.

Definition cons_token (t : token) (o : outcome (list token)) : outcome (list token) :=
  ts ← o; Ok (t :: ts).

(** A digit read in a brace: it opens a [token_dup_count], which takes
    the digits that follow it. *)
Definition cons_digit (c : ascii) (o : outcome (list token)) : outcome (list token) :=
  ts ← o;
  match ts with
  | token_dup_count digits :: ts' => Ok (token_dup_count (c :: digits) :: ts')
  | _ => Ok (token_dup_count [c] :: ts)
  end.

(** [_Scanner::_M_scan_normal] with [_M_eat_escape_ecma], and
    [_Scanner::_M_scan_in_brace], run to the end of the input. *)
Fixpoint scan (st : scan_state) (s : list ascii) : outcome (list token) :=
  match s with
  | [] => Ok []
  | c :: s' =>
      match st with
      | state_normal =>
          if negb (is_spec_char c) then cons_token (token_ord_char c) (scan state_normal s')
          else if Ascii.eqb c "\" then
            match s' with
            | [] => Throws                                   (* error_escape *)
            | e :: s'' =>
                if is_spec_char e then cons_token (token_ord_char e) (scan state_normal s'')
                else Unmodelled
            end
          else if Ascii.eqb c "[" then
            match s' with
            | c1 :: c2 :: c3 :: s'' =>
                if Ascii.eqb c1 "^" && Ascii.eqb c2 "/" && Ascii.eqb c3 "]"
                then cons_token (token_bracket_neg "/") (scan state_normal s'')
                else Unmodelled
            | _ => Unmodelled
            end
          else if Ascii.eqb c "{" then
            cons_token token_interval_begin (scan state_in_brace s')
          else if Ascii.eqb c "]" || Ascii.eqb c "}" then
            cons_token (token_ord_char c) (scan state_normal s')
          else if Ascii.eqb c "." then cons_token token_anychar (scan state_normal s')
          else if Ascii.eqb c "*" then cons_token token_closure0 (scan state_normal s')
          else if Ascii.eqb c "+" then cons_token token_closure1 (scan state_normal s')
          else if Ascii.eqb c "?" then cons_token token_opt (scan state_normal s')
          else if Ascii.eqb c "|" then cons_token token_or (scan state_normal s')
          else Unmodelled                                    (* ^ $ ( ) *)
      | state_in_brace =>
          if is_digit c then cons_digit c (scan state_in_brace s')
          else if Ascii.eqb c "," then cons_token token_comma (scan state_in_brace s')
          else if Ascii.eqb c "}" then cons_token token_interval_end (scan state_normal s')
          else Throws                                        (* error_badbrace *)
      end
  end.

(** [_Compiler::_M_atom]. *)
Definition _M_atom (t : token) : option regex :=
  match t with
  | token_ord_char c => Some (Sym (CharMatcher c))
  | token_anychar => Some (Sym AnyMatcher)
  | token_bracket_neg c => Some (Sym (BracketNegMatcher c))
  | _ => None
  end.

(** [_Compiler::_M_cur_int_value(10)]: the digits are summed up in a [long]
    and handed back as an [int]. *)
Definition _M_cur_int_value (digits : list ascii) : Z :=
  let v := foldl (fun v d => v * 10 + (Z.of_nat (nat_of_ascii d) - 48)) 0 digits in
  let r := v mod 2 ^ 32 in
  if r <? 2 ^ 31 then r else r - 2 ^ 32.

(** [n] copies of [e] in a row. *)
Fixpoint copies (n : nat) (e : regex) : regex :=
  match n with
  | O => Eps
  | S n' => Cat e (copies n' e)
  end.

(** At most [n] copies of [e] in a row. *)
Fixpoint at_most (n : nat) (e : regex) : regex :=
  match n with
  | O => Eps
  | S n' => Alt (Cat e (at_most n' e)) Eps
  end.

(** A [?] directly after a quantifier only makes it non-greedy. *)
Definition skip_opt (qs : list token) : list token :=
  match qs with
  | token_opt :: qs' => qs'
  | _ => qs
  end.

(** [_Compiler::_M_quantifier], repeated as in [_M_term]: [qs] is the run
    of tokens between one atom and the next atom, [|] or the end.  Tokens
    that do not make a quantifier are left for the constructor, which
    throws. *)
Fixpoint _M_quantifier (e : regex) (qs : list token) : outcome regex :=
  match qs with
  | [] => Ok e
  | token_closure0 :: qs' => _M_quantifier (Star e) (skip_opt qs')
  | token_closure1 :: qs' => _M_quantifier (Cat e (Star e)) (skip_opt qs')
  | token_opt :: qs' => _M_quantifier (Alt e Eps) (skip_opt qs')
  | token_interval_begin :: token_dup_count digits :: qs' =>
      let min_rep := _M_cur_int_value digits in
      match qs' with
      | token_interval_end :: qs'' =>
          _M_quantifier (copies (Z.to_nat min_rep) e) (skip_opt qs'')
      | token_comma :: token_interval_end :: qs'' =>
          _M_quantifier (Cat (copies (Z.to_nat min_rep) e) (Star e)) (skip_opt qs'')
      | token_comma :: token_dup_count digits' :: token_interval_end :: qs'' =>
          let n := _M_cur_int_value digits' - min_rep in
          if n <? 0 then Throws                              (* error_badbrace *)
          else _M_quantifier (Cat (copies (Z.to_nat min_rep) e) (at_most (Z.to_nat n) e))
                             (skip_opt qs'')
      | _ => Throws                                          (* error_brace *)
      end
  | _ => Throws
  end.

(** The state of the compiler read from right to left: the quantifier
    tokens still waiting for their atom, the alternative under
    construction, and the alternatives to its right. *)
Record pending : Type := mk_pending {
  p_quant : list token;
  p_alt : regex;
  p_rest : option regex
}.

Definition join (a : regex) (rest : option regex) : regex :=
  match rest with
  | None => a
  | Some b => Alt a b
  end.

(** [_M_disjunction], [_M_alternative] and [_M_term]:
    Disjunction ::= Alternative ( [|] Alternative )*,
    Alternative ::= Term*,  Term ::= Atom Quantifier*.
    A quantifier with no atom before it ends the alternative, and the
    constructor then throws because the input is not at its end. *)
Fixpoint _M_disjunction (ts : list token) : outcome pending :=
  match ts with
  | [] => Ok (mk_pending [] Eps None)
  | t :: ts' =>
      p ← _M_disjunction ts';
      match t with
      | token_or =>
          match p_quant p with
          | [] => Ok (mk_pending [] Eps (Some (join (p_alt p) (p_rest p))))
          | _ :: _ => Throws
          end
      | _ =>
          match _M_atom t with
          | Some a =>
              term ← _M_quantifier a (p_quant p);
              Ok (mk_pending [] (Cat term (p_alt p)) (p_rest p))
          | None => Ok (mk_pending (t :: p_quant p) (p_alt p) (p_rest p))
          end
      end
  end.

(** The constructor [std::regex(const std::string&)]. *)
Definition compile (s : string) : outcome regex :=
  ts ← scan state_normal (list_ascii_of_string s);
  p ← _M_disjunction ts;
  match p_quant p with
  | [] => Ok (join (p_alt p) (p_rest p))
  | _ :: _ => Throws
  end.

(** Matching by derivatives. *)
Fixpoint nullable (r : regex) : bool :=
  match r with
  | Void => false
  | Eps => true
  | Sym _ => false
  | Cat r1 r2 => nullable r1 && nullable r2
  | Alt r1 r2 => nullable r1 || nullable r2
  | Star _ => true
  end.

Fixpoint deriv (ch : ascii) (r : regex) : regex :=
  match r with
  | Void => Void
  | Eps => Void
  | Sym m => if matcher_apply m ch then Eps else Void
  | Cat r1 r2 =>
      if nullable r1 then Alt (Cat (deriv ch r1) r2) (deriv ch r2)
      else Cat (deriv ch r1) r2
  | Alt r1 r2 => Alt (deriv ch r1) (deriv ch r2)
  | Star r1 => Cat (deriv ch r1) (Star r1)
  end.

Fixpoint accepts (r : regex) (s : list ascii) : bool :=
  match s with
  | [] => nullable r
  | ch :: s' => accepts (deriv ch r) s'
  end.

(** [std::regex_match(s, re)]: the whole of [s] is in the language. *)
Definition regex_match (s : string) (re : regex) : bool :=
  accepts re (list_ascii_of_string s).

End Regex.

(** ** Topic filters ([include/pubsub/topic.hpp], [src/topic.cpp]) *)

(** [WildcardTopicFilter::wildcardToRegex]: the loop over the characters of
    the pattern, appending to [result]. *)
Fixpoint wildcardToRegex (pattern : string) : string :=
  match pattern with
  | EmptyString => ""
  | String c rest =>
      (if Ascii.eqb c "+" then "[^/]+"
       else if Ascii.eqb c "#" then ".*"
       else if Ascii.eqb c "." || Ascii.eqb c "*" ||
               Ascii.eqb c "[" || Ascii.eqb c "]" ||
               Ascii.eqb c "(" || Ascii.eqb c ")" ||
               Ascii.eqb c "\" || Ascii.eqb c "^" ||
               Ascii.eqb c "$"
            then String "\" (String c "")
       else String c "")
      +:+ wildcardToRegex rest
  end.

(** The two implementations of the [TopicFilter] interface. *)
Inductive TopicFilter : Type :=
| ExactTopicFilter (topic_ : string)
| WildcardTopicFilter (pattern_ : string) (regex_ : Regex.regex).

Module ExactTopicFilter.
Definition matches (topic_ topic : string) : bool := String.eqb topic_ topic.
End ExactTopicFilter.

Module WildcardTopicFilter.
(** The constructor compiles the pattern once; it throws what
    [std::regex] throws. *)
Definition new (pattern : string) : outcome TopicFilter :=
  regex_ ← Regex.compile (wildcardToRegex pattern);
  Ok (WildcardTopicFilter pattern regex_).

Definition matches (regex_ : Regex.regex) (topic : string) : bool :=
  Regex.regex_match topic regex_.
End WildcardTopicFilter.

(** Virtual dispatch of [TopicFilter::matches]. *)
Definition filter_matches (f : TopicFilter) (topic : string) : bool :=
  match f with
  | ExactTopicFilter topic_ => ExactTopicFilter.matches topic_ topic
  | WildcardTopicFilter _ regex_ => WildcardTopicFilter.matches regex_ topic
  end.

Module TopicFilterFactory.
(** [pattern.find(c) != npos]. *)
Fixpoint contains (c : ascii) (s : string) : bool :=
  match s with
  | EmptyString => false
  | String d rest => Ascii.eqb d c || contains c rest
  end.

Definition has_wildcards (pattern : string) : bool :=
  contains "+" pattern || contains "#" pattern.

Definition create (pattern : string) : outcome TopicFilter :=
  if has_wildcards pattern then WildcardTopicFilter.new pattern
  else Ok (ExactTopicFilter pattern).
End TopicFilterFactory.

(** Does the filter built for [pattern] match [topic]?  [Throws] when no
    filter can be built for the pattern. *)
Definition pattern_matches (pattern topic : string) : outcome bool :=
  f ← TopicFilterFactory.create pattern;
  Ok (filter_matches f topic).

(** ** Data model *)

(** [size_t] and [uint64_t] on an LP64 platform. *)
Definition SIZE_MODULUS : Z := 2 ^ 64.

(** [x++] on an unsigned 64-bit counter. *)
Definition incr (x : Z) : Z := (x + 1) mod SIZE_MODULUS.

(** Addresses of [Subscription] objects. *)
Definition loc : Type := nat.

Inductive Priority : Type := Low | Normal | High | Critical.

(** The enumerators' values, for [operator<=] on [Priority]. *)
Definition Priority_value (p : Priority) : Z :=
  match p with Low => 0 | Normal => 1 | High => 2 | Critical => 3 end.

Definition Priority_le (p q : Priority) : bool := Priority_value p <=? Priority_value q.

Inductive DeliveryResult : Type := Success | Filtered | Rejected | Timeout | Error.

#[global] Instance DeliveryResult_eq_dec : EqDecision DeliveryResult.
Proof. solve_decision. Defined.

Record SubscriptionOptions : Type := {
  max_messages : Z;
  auto_acknowledge : bool;
  receive_existing_messages : bool;
  timeout_ms : Z
}.

(** [SubscriptionOptions{}]. *)
Definition default_options : SubscriptionOptions :=
  {| max_messages := 0; auto_acknowledge := true;
     receive_existing_messages := false; timeout_ms := 0 |}.

Record BrokerConfig : Type := {
  thread_count : Z;
  max_queue_size : Z;
  retain_messages : bool;
  max_retained_messages : Z;
  strict_topic_matching : bool
}.

(** [BrokerConfig{}]. *)
Definition default_config : BrokerConfig :=
  {| thread_count := 0; max_queue_size := 10000; retain_messages := true;
     max_retained_messages := 100; strict_topic_matching := false |}.

Record BrokerStats : Type := {
  topic_count : Z;
  subscription_count : Z;
  published_messages : Z;
  delivered_messages : Z;
  queued_messages : Z;
  worker_threads : Z
}.

Section DataModel.
(** [Payload]: what a [std::any] payload can hold; no operation below looks
    inside it.  [U]: the state owned by the application's callbacks. *)
Context {Payload U : Type}.

Record Message : Type := {
  message_id : string;                (* [id()]; [id] is Rocq's identity function *)
  topic : string;
  timestamp : Z;
  priority : Priority;
  headers : gmap string string;
  payload : Payload
}.

(** What one run of a callback did: the calls it made into the library, in
    order, whether it ended by throwing, and the application state it
    left. *)
Record CallbackRun (A : Type) : Type := {
  cb_actions : list A;
  cb_throws : bool;
  cb_user : U
}.

(** The calls a callback can make through the public interface while a
    worker runs it: [sub->cancel()], [Broker::unsubscribe(sub)],
    [Broker::publish(topic, message)] and
    [Broker::subscribe(pattern, callback, options)]. *)
Local Unset Elimination Schemes.
Inductive Action : Type :=
| ACancel (sub : loc)
| AUnsubscribe (sub : loc)
| APublish (topic_str : string) (message : Message)
| ASubscribe (topic_pattern : string)
             (callback : Message -> U -> CallbackRun Action)
             (options : SubscriptionOptions).
Local Set Elimination Schemes.

(** [Subscription::MessageCallback]: user code, run with the message and
    the application state. *)
Definition MessageCallback : Type := Message -> U -> CallbackRun Action.

Record Subscription : Type := {
  id_ : string;
  filter_ : TopicFilter;
  callback_ : MessageCallback;
  options_ : SubscriptionOptions;
  message_count_ : Z;
  active_ : bool
}.

Record Broker : Type := {
  config_ : BrokerConfig;
  running_ : bool;
  published_messages_ : Z;
  delivered_messages_ : Z;
  topics_ : gmap string (gmap string loc);
  subscriptions_ : gmap string loc;
  message_queue_ : list Message;
  workers_ : Z
}.

(** Observation points, kept only to state properties: a callback was
    entered; [deliver] returned. *)
Inductive Event : Type :=
| EvCallback (sub : loc) (message : Message)
| EvDeliver (sub : loc) (message : Message) (result : DeliveryResult).

(** The process: the [Subscription] objects by address, the next free
    address, the counter behind [Subscription::create], the broker
    singleton, the application state and the observations so far. *)
Record World : Type := {
  subs : loc -> Subscription;
  next_loc : loc;
  next_id : Z;
  broker : Broker;
  user : U;
  trace : list Event
}.

Definition with_broker (f : Broker -> Broker) (w : World) : World :=
  {| subs := subs w; next_loc := next_loc w; next_id := next_id w;
     broker := f (broker w); user := user w; trace := trace w |}.

Definition with_sub (sub : loc) (f : Subscription -> Subscription) (w : World) : World :=
  {| subs := fun l => if decide (l = sub) then f (subs w sub) else subs w l;
     next_loc := next_loc w; next_id := next_id w;
     broker := broker w; user := user w; trace := trace w |}.

Definition with_user (u : U) (w : World) : World :=
  {| subs := subs w; next_loc := next_loc w; next_id := next_id w;
     broker := broker w; user := u; trace := trace w |}.

Definition log (e : Event) (w : World) : World :=
  {| subs := subs w; next_loc := next_loc w; next_id := next_id w;
     broker := broker w; user := user w; trace := trace w ++ [e] |}.

Definition set_running (v : bool) (b : Broker) : Broker :=
  {| config_ := config_ b; running_ := v;
     published_messages_ := published_messages_ b;
     delivered_messages_ := delivered_messages_ b;
     topics_ := topics_ b; subscriptions_ := subscriptions_ b;
     message_queue_ := message_queue_ b; workers_ := workers_ b |}.

Definition set_config (c : BrokerConfig) (b : Broker) : Broker :=
  {| config_ := c; running_ := running_ b;
     published_messages_ := published_messages_ b;
     delivered_messages_ := delivered_messages_ b;
     topics_ := topics_ b; subscriptions_ := subscriptions_ b;
     message_queue_ := message_queue_ b; workers_ := workers_ b |}.

Definition set_published (v : Z) (b : Broker) : Broker :=
  {| config_ := config_ b; running_ := running_ b;
     published_messages_ := v;
     delivered_messages_ := delivered_messages_ b;
     topics_ := topics_ b; subscriptions_ := subscriptions_ b;
     message_queue_ := message_queue_ b; workers_ := workers_ b |}.

Definition set_delivered (v : Z) (b : Broker) : Broker :=
  {| config_ := config_ b; running_ := running_ b;
     published_messages_ := published_messages_ b;
     delivered_messages_ := v;
     topics_ := topics_ b; subscriptions_ := subscriptions_ b;
     message_queue_ := message_queue_ b; workers_ := workers_ b |}.

Definition set_topics (v : gmap string (gmap string loc)) (b : Broker) : Broker :=
  {| config_ := config_ b; running_ := running_ b;
     published_messages_ := published_messages_ b;
     delivered_messages_ := delivered_messages_ b;
     topics_ := v; subscriptions_ := subscriptions_ b;
     message_queue_ := message_queue_ b; workers_ := workers_ b |}.

Definition set_subscriptions (v : gmap string loc) (b : Broker) : Broker :=
  {| config_ := config_ b; running_ := running_ b;
     published_messages_ := published_messages_ b;
     delivered_messages_ := delivered_messages_ b;
     topics_ := topics_ b; subscriptions_ := v;
     message_queue_ := message_queue_ b; workers_ := workers_ b |}.

Definition set_queue (v : list Message) (b : Broker) : Broker :=
  {| config_ := config_ b; running_ := running_ b;
     published_messages_ := published_messages_ b;
     delivered_messages_ := delivered_messages_ b;
     topics_ := topics_ b; subscriptions_ := subscriptions_ b;
     message_queue_ := v; workers_ := workers_ b |}.

Definition set_workers (v : Z) (b : Broker) : Broker :=
  {| config_ := config_ b; running_ := running_ b;
     published_messages_ := published_messages_ b;
     delivered_messages_ := delivered_messages_ b;
     topics_ := topics_ b; subscriptions_ := subscriptions_ b;
     message_queue_ := message_queue_ b; workers_ := v |}.

End DataModel.

Arguments cb_actions {U A} _.
Arguments cb_throws {U A} _.
Arguments cb_user {U A} _.
Arguments Message : clear implicits.
Arguments CallbackRun : clear implicits.
Arguments Action : clear implicits.
Arguments MessageCallback : clear implicits.
Arguments Subscription : clear implicits.
Arguments Broker : clear implicits.
Arguments Event : clear implicits.
Arguments World : clear implicits.

(** ** [Subscription] ([src/subscription.cpp]) *)
Module Subscription.
Section WithTypes.
Context {Payload U : Type}.
Local Abbreviation Message := (Message Payload) (only parsing).
Local Abbreviation Action := (Action Payload U) (only parsing).
Local Abbreviation MessageCallback := (MessageCallback Payload U) (only parsing).
Local Abbreviation Subscription := (Subscription Payload U) (only parsing).
Local Abbreviation World := (World Payload U) (only parsing).

(** The constructor: [message_count_(0)], [active_(true)]. *)
Definition new (id : string) (filter : TopicFilter) (callback : MessageCallback)
    (options : SubscriptionOptions) : Subscription :=
  {| id_ := id; filter_ := filter; callback_ := callback; options_ := options;
     message_count_ := 0; active_ := true |}.

(** [Subscription::create]: builds the filter (which can throw), then draws
    the id from the function's static counter, then
    [std::make_shared<Subscription>(...)]. *)
Definition create (topic_pattern : string) (callback : MessageCallback)
    (options : SubscriptionOptions) (w : World) : outcome (loc * World) :=
  filter ← TopicFilterFactory.create topic_pattern;
  let id := "sub_" +:+ pretty (next_id w) in
  let sub := next_loc w in
  Ok (sub,
      {| subs := fun l => if decide (l = sub) then new id filter callback options
                          else subs w l;
         next_loc := S sub;
         next_id := incr (next_id w);
         broker := broker w; user := user w; trace := trace w |}).

Definition matches (sub : loc) (topic : string) (w : World) : bool :=
  filter_matches (filter_ (subs w sub)) topic.

Definition is_active (sub : loc) (w : World) : bool := active_ (subs w sub).

Definition message_count (sub : loc) (w : World) : Z := message_count_ (subs w sub).

(** [active_.store(false)]. *)
Definition set_inactive (s : Subscription) : Subscription :=
  {| id_ := id_ s; filter_ := filter_ s; callback_ := callback_ s;
     options_ := options_ s; message_count_ := message_count_ s;
     active_ := false |}.

Definition cancel (sub : loc) (w : World) : World := with_sub sub set_inactive w.

(** [message_count_++]. *)
Definition count_message (s : Subscription) : Subscription :=
  {| id_ := id_ s; filter_ := filter_ s; callback_ := callback_ s;
     options_ := options_ s; message_count_ := incr (message_count_ s);
     active_ := active_ s |}.

(** [Subscription::acknowledge]: ignores its argument and returns true. *)
Definition acknowledge (sub : loc) (message_id : string) (w : World) : bool * World :=
  (true, w).

(** [perform] runs one call that the callback makes into the library; it
    is [Broker.perform] below. *)
Variable perform : Action -> World -> World.

(** [callback_(message)]: the callback is entered, makes its calls and
    leaves the application state it computed; the boolean tells whether it
    left by an exception. *)
Definition invoke (sub : loc) (message : Message) (w : World) : bool * World :=
  let run := callback_ (subs w sub) message (user w) in
  let w1 := log (EvCallback sub message) w in
  let w2 := foldl (fun w a => perform a w) w1 (cb_actions run) in
  (cb_throws run, with_user (cb_user run) w2).

(** [Subscription::deliver].  The [try] block encloses the callback and the
    acknowledgement; [catch (...)] turns any exception into [Error]. *)
Definition deliver (sub : loc) (message : Message) (w : World) : DeliveryResult * World :=
  if negb (is_active sub w) then
    (Rejected, log (EvDeliver sub message Rejected) w)
  else if negb (matches sub (topic message) w) then
    (Filtered, log (EvDeliver sub message Filtered) w)
  else if (0 <? max_messages (options_ (subs w sub))) &&
          (max_messages (options_ (subs w sub)) <=? message_count sub w) then
    (Rejected, log (EvDeliver sub message Rejected) w)
  else
    let w1 := with_sub sub count_message w in
    let '(thrown, w2) := invoke sub message w1 in
    if thrown then (Error, log (EvDeliver sub message Error) w2)
    else
      let w3 := if auto_acknowledge (options_ (subs w sub))
                then snd (acknowledge sub (message_id message) w2) else w2 in
      (Success, log (EvDeliver sub message Success) w3).

End WithTypes.
End Subscription.

(** ** [Broker] ([src/broker.cpp]) *)
Module Broker.
Section WithTypes.
Context {Payload U : Type}.
Local Abbreviation Message := (Message Payload) (only parsing).
Local Abbreviation Action := (Action Payload U) (only parsing).
Local Abbreviation MessageCallback := (MessageCallback Payload U) (only parsing).
Local Abbreviation Broker := (Broker Payload) (only parsing).
Local Abbreviation World := (World Payload U) (only parsing).

(** [Broker::Broker()]: every member at its default. *)
Definition new : Broker :=
  {| config_ := default_config; running_ := false;
     published_messages_ := 0; delivered_messages_ := 0;
     topics_ := ∅; subscriptions_ := ∅; message_queue_ := []; workers_ := 0 |}.

(** [Broker::initialize].  [hardware_concurrency] is what
    [std::thread::hardware_concurrency()] answers on the host. *)
Definition initialize (config : BrokerConfig) (hardware_concurrency : Z) (w : World)
    : bool * World :=
  if running_ (broker w) then (false, w)
  else
    let thread_count' :=
      if thread_count config =? 0 then
        (if hardware_concurrency =? 0 then 1 else hardware_concurrency)
      else thread_count config in
    let config' :=
      {| thread_count := thread_count'; max_queue_size := max_queue_size config;
         retain_messages := retain_messages config;
         max_retained_messages := max_retained_messages config;
         strict_topic_matching := strict_topic_matching config |} in
    (true,
     with_broker (fun b => set_workers (workers_ b + thread_count')
                             (set_running true (set_config config' b))) w).

(** [Broker::shutdown]: the flag is cleared, the workers are joined and the
    two registries are emptied; the queue is left as it is. *)
Definition shutdown (w : World) : World :=
  if negb (running_ (broker w)) then w
  else
    with_broker (fun b => set_subscriptions ∅
                            (set_topics ∅ (set_workers 0 (set_running false b)))) w.

Definition is_running (w : World) : bool := running_ (broker w).

(** [Broker::publish]. *)
Definition publish (topic_str : string) (message : Message) (w : World) : bool * World :=
  if negb (running_ (broker w)) then (false, w)
  else
    (* the body of [if (message->topic() != topic_str)] holds comments only *)
    let w0 := if negb (String.eqb (topic message) topic_str) then w else w in
    let w1 := with_broker (fun b => set_published (incr (published_messages_ b)) b) w0 in
    if (0 <? max_queue_size (config_ (broker w1))) &&
       (max_queue_size (config_ (broker w1)) <=? Z.of_nat (List.length (message_queue_ (broker w1))))
    then
      if Priority_le (priority message) Normal then (false, w1)
      else (false, w1)
    else
      (true, with_broker (fun b => set_queue (message_queue_ b ++ [message]) b) w1).

(** [Broker::subscribe]: throws when the broker is not running or when the
    pattern does not compile. *)
Definition subscribe (topic_pattern : string) (callback : MessageCallback)
    (options : SubscriptionOptions) (w : World) : outcome (loc * World) :=
  if negb (running_ (broker w)) then Throws
  else
    '(subscription, w1) ← Subscription.create topic_pattern callback options w;
    Ok (subscription,
        with_broker (fun b => set_subscriptions
                                (<[id_ (subs w1 subscription) := subscription]> (subscriptions_ b)) b) w1).

(** [Broker::unsubscribe]; [None] is the null pointer. *)
Definition unsubscribe (subscription : option loc) (w : World) : bool * World :=
  match subscription with
  | None => (false, w)
  | Some sub =>
      match subscriptions_ (broker w) !! id_ (subs w sub) with
      | None => (false, w)
      | Some _ =>
          let w1 := Subscription.cancel sub w in
          (true,
           with_broker (fun b => set_subscriptions
                                   (delete (id_ (subs w sub)) (subscriptions_ b)) b) w1)
      end
  end.

Definition get_stats (w : World) : BrokerStats :=
  {| topic_count := Z.of_nat (size (topics_ (broker w)));
     subscription_count := Z.of_nat (size (subscriptions_ (broker w)));
     published_messages := published_messages_ (broker w);
     delivered_messages := delivered_messages_ (broker w);
     queued_messages := Z.of_nat (List.length (message_queue_ (broker w)));
     worker_threads := workers_ (broker w) |}.

Definition get_topics (w : World) : list string :=
  (map_to_list (topics_ (broker w))).*1.

(** One call of a callback into the library.  A [subscribe] that throws
    leaves the world as it was and is taken to be caught by the callback
    itself (whether the callback throws is told by [cb_throws]). *)
Definition perform (a : Action) (w : World) : World :=
  match a with
  | ACancel sub => Subscription.cancel sub w
  | AUnsubscribe sub => snd (unsubscribe (Some sub) w)
  | APublish topic_str message => snd (publish topic_str message w)
  | ASubscribe topic_pattern callback options =>
      match subscribe topic_pattern callback options w with
      | Ok (_, w1) => w1
      | _ => w
      end
  end.

(** The first loop of [process_message]: the registry entries whose
    subscription matches, in the order the registry is iterated. *)
Definition matching_subs (topic : string) (w : World) : list loc :=
  (filter (fun kv => Subscription.matches kv.2 topic w = true)
          (map_to_list (subscriptions_ (broker w)))).*2.

(** The body of the second loop of [process_message]. *)
Definition deliver_one (message : Message) (w : World) (sub : loc) : World :=
  let '(result, w1) := Subscription.deliver perform sub message w in
  if decide (result = Success)
  then with_broker (fun b => set_delivered (incr (delivered_messages_ b)) b) w1
  else w1.

(** [Broker::process_message]. *)
Definition process_message (message : Message) (w : World) : World :=
  foldl (deliver_one message) w (matching_subs (topic message) w).

(** One turn of the loop of [Broker::worker_thread] once the wait is over:
    the front of the queue, if any, is removed and processed. *)
Definition worker_iteration (w : World) : World :=
  match message_queue_ (broker w) with
  | [] => w
  | message :: rest => process_message message (with_broker (set_queue rest) w)
  end.

(** [n] turns of workers, one after the other. *)
Fixpoint worker_turns (n : nat) (w : World) : World :=
  match n with
  | O => w
  | S n' => worker_turns n' (worker_iteration w)
  end.

End WithTypes.
End Broker.

(** ** Vocabulary of the properties *)

(** The characters that [wildcardToRegex] hands over as ordinary characters
    of the regular expression: all but the two wildcards and the
    metacharacters [?], [{] and [|], which it copies without a backslash. *)
Definition literal_char (c : ascii) : bool :=
  negb (existsb (Ascii.eqb c) (list_ascii_of_string "+#?{|")).

Definition literal (s : string) : bool :=
  forallb literal_char (list_ascii_of_string s).

(** A topic read against a pattern made of literal characters, [+] and [#]:
    [+] stands for a non-empty run without a slash, [#] for any run without
    a line feed or carriage return, a literal character for itself. *)
Inductive wild_lang : list ascii -> list ascii -> Prop :=
| wild_nil : wild_lang [] []
| wild_plus p seg t :
    seg <> [] -> Forall (fun ch => ch <> "/"%char) seg ->
    wild_lang p t -> wild_lang ("+"%char :: p) (seg ++ t)
| wild_hash p any t :
    Forall (fun ch => ch <> Regex.LF /\ ch <> Regex.CR) any ->
    wild_lang p t -> wild_lang ("#"%char :: p) (any ++ t)
| wild_lit c p t :
    literal_char c = true ->
    wild_lang p t -> wild_lang (c :: p) (c :: t).

(** The pattern characters for which the compiled expression is the
    concatenation of one piece per character. *)
Definition wild_char (c : ascii) : bool :=
  negb (existsb (Ascii.eqb c) (list_ascii_of_string "?{|")).

(** The piece of regular expression that one pattern character becomes. *)
Definition wild_piece (c : ascii) : Regex.regex :=
  if Ascii.eqb c "+" then
    Regex.Cat (Regex.Sym (Regex.BracketNegMatcher "/"))
              (Regex.Star (Regex.Sym (Regex.BracketNegMatcher "/")))
  else if Ascii.eqb c "#" then Regex.Star (Regex.Sym Regex.AnyMatcher)
  else Regex.Sym (Regex.CharMatcher c).

Fixpoint wild_regex (p : list ascii) : Regex.regex :=
  match p with
  | [] => Regex.Eps
  | c :: p' => Regex.Cat (wild_piece c) (wild_regex p')
  end.

(** ** Vocabulary of the broker properties *)
Section BrokerVocabulary.
Context {Payload U : Type}.
Local Abbreviation Message := (Message Payload) (only parsing).
Local Abbreviation MessageCallback := (MessageCallback Payload U) (only parsing).
Local Abbreviation Event := (Event Payload) (only parsing).
Local Abbreviation World := (World Payload U) (only parsing).

(** [sub] is the address of an object that has been created. *)
Definition allocated (sub : loc) (w : World) : Prop := (sub < next_loc w)%nat.

#[global] Instance allocated_dec sub w : Decision (allocated sub w).
Proof. unfold allocated. apply _. Defined.


(** [w'] comes after [w]: the objects of [w] are still there with the same
    id, filter, callback and options, and none that was cancelled is active
    again. *)
Definition frame (w w' : World) : Prop :=
  (next_loc w <= next_loc w')%nat /\
  forall l, allocated l w ->
    id_ (subs w' l) = id_ (subs w l) /\
    filter_ (subs w' l) = filter_ (subs w l) /\
    callback_ (subs w' l) = callback_ (subs w l) /\
    options_ (subs w' l) = options_ (subs w l) /\
    (active_ (subs w' l) = true -> active_ (subs w l) = true).

(** [frame], and no existing object other than those in [except] counted a
    message. *)
Definition frame_counts (except : loc -> Prop) (w w' : World) : Prop :=
  frame w w' /\
  forall l, allocated l w -> ~ except l ->
    message_count_ (subs w' l) = message_count_ (subs w l).

(** The test of [deliver] against [options.max_messages]. *)
Definition capped (sub : loc) (w : World) : bool :=
  (0 <? max_messages (options_ (subs w sub))) &&
  (max_messages (options_ (subs w sub)) <=? Subscription.message_count sub w).

(** The world in which [deliver] leaves the callback of [sub] once it has
    counted the message. *)
Definition after_callback (sub : loc) (message : Message) (w : World) : World :=
  let run := callback_ (subs w sub) message (user w) in
  with_user (cb_user run)
    (foldl (fun w a => Broker.perform a w)
           (log (EvCallback sub message) (with_sub sub Subscription.count_message w))
           (cb_actions run)).

(** Does the callback of [sub], run on [message] in [w], end by throwing? *)
Definition callback_throws (sub : loc) (message : Message) (w : World) : bool :=
  cb_throws (callback_ (subs w sub) message (user w)).

(** A subscription that takes no more messages: cancelled, or at its
    limit. *)
Definition closed (sub : loc) (w : World) : Prop :=
  Subscription.is_active sub w = false \/ capped sub w = true.

(** The public operations, and the turns of the workers. *)
Inductive Op : Type :=
| OInitialize (config : BrokerConfig) (hardware_concurrency : Z)
| OShutdown
| OPublish (topic_str : string) (message : Message)
| OSubscribe (topic_pattern : string) (callback : MessageCallback) (options : SubscriptionOptions)
| OUnsubscribe (subscription : option loc)
| OCancel (sub : loc)
| ODeliver (sub : loc) (message : Message)
| OWorker.

Definition step (w : World) (o : Op) : World :=
  match o with
  | OInitialize config hardware_concurrency =>
      snd (Broker.initialize config hardware_concurrency w)
  | OShutdown => Broker.shutdown w
  | OPublish topic_str message => snd (Broker.publish topic_str message w)
  | OSubscribe topic_pattern callback options =>
      match Broker.subscribe topic_pattern callback options w with
      | Ok (_, w1) => w1
      | _ => w
      end
  | OUnsubscribe subscription => snd (Broker.unsubscribe subscription w)
  | OCancel sub => Subscription.cancel sub w
  | ODeliver sub message => snd (Subscription.deliver Broker.perform sub message w)
  | OWorker => Broker.worker_iteration w
  end.

Definition run (ops : list Op) (w : World) : World := foldl step w ops.

(** The calls of [publish] made one after the other, with their results. *)
Fixpoint publish_all (calls : list (string * Message)) (w : World) : list bool * World :=
  match calls with
  | [] => ([], w)
  | (topic_str, message) :: rest =>
      let '(r, w1) := Broker.publish topic_str message w in
      let '(rs, w2) := publish_all rest w1 in
      (r :: rs, w2)
  end.

(** The calls of [deliver] on one subscription made one after the other. *)
Fixpoint deliver_all (sub : loc) (messages : list Message) (w : World)
    : list DeliveryResult * World :=
  match messages with
  | [] => ([], w)
  | message :: rest =>
      let '(r, w1) := Subscription.deliver Broker.perform sub message w in
      let '(rs, w2) := deliver_all sub rest w1 in
      (r :: rs, w2)
  end.

(** What was observed between [w] and a later world [w']. *)
Definition events_since (w w' : World) : list Event :=
  drop (List.length (trace w)) (trace w').


(** The calls of [deliver] that returned, in order. *)
Definition delivered_to (evs : list Event) : list (loc * Message) :=
  omap (fun e => match e with EvDeliver sub message _ => Some (sub, message) | _ => None end) evs.

(** The callbacks that were entered, in order. *)
Definition called (evs : list Event) : list (loc * Message) :=
  omap (fun e => match e with EvCallback sub message => Some (sub, message) | _ => None end) evs.

Definition is_success (e : Event) : bool :=
  match e with
  | EvDeliver _ _ Success => true
  | _ => false
  end.

(** How many calls of [deliver] returned [Success]. *)
Definition successes (evs : list Event) : nat :=
  List.length (List.filter is_success evs).



End BrokerVocabulary.

Arguments Op : clear implicits.

(** ** Sample worlds, for the instances of the properties *)
Module Sample.

Definition quiet : MessageCallback unit unit :=
  fun _ u => {| cb_actions := []; cb_throws := false; cb_user := u |}.

Definition faulty : MessageCallback unit unit :=
  fun _ u => {| cb_actions := []; cb_throws := true; cb_user := u |}.

Definition blank : Subscription unit unit :=
  Subscription.new "" (ExactTopicFilter "") quiet default_options.

(** A fresh process: no object, the broker as constructed. *)
Definition start : World unit unit :=
  {| subs := fun _ => blank; next_loc := 0%nat; next_id := 0;
     broker := Broker.new; user := tt; trace := [] |}.

Definition config (K : Z) : BrokerConfig :=
  {| thread_count := 1; max_queue_size := K; retain_messages := true;
     max_retained_messages := 100; strict_topic_matching := false |}.

(** The broker initialized with a queue of capacity [K]. *)
Definition running (K : Z) : World unit unit :=
  snd (Broker.initialize (config K) 1 start).

Definition message (topic : string) (priority : Priority) : Message unit :=
  {| message_id := "m"; topic := topic; timestamp := 0; priority := priority;
     headers := ∅; payload := tt |}.

Definition options (max_messages : Z) : SubscriptionOptions :=
  {| max_messages := max_messages; auto_acknowledge := true;
     receive_existing_messages := false; timeout_ms := 0 |}.

(** [w] after [subscribe(pattern, callback, options)]. *)
Definition subscribed (topic_pattern : string) (callback : MessageCallback unit unit)
    (options : SubscriptionOptions) (w : World unit unit) : World unit unit :=
  step w (OSubscribe topic_pattern callback options).

(** One subscription, [sub_0], on [a/#] with a callback that throws. *)
Definition one_faulty : World unit unit :=
  subscribed "a/#" faulty default_options (running 2).

(** Two subscriptions that match [a/b]: [sub_0] returns, [sub_1] throws. *)
Definition quiet_and_faulty : World unit unit :=
  subscribed "a/#" faulty default_options (subscribed "a/+" quiet default_options (running 2)).

(** One subscription, [sub_0], on [a/b], limited to three messages. *)
Definition limited : World unit unit :=
  subscribed "a/b" quiet (options 3) (running 2).

End Sample.

(** ** [Message] ([include/pubsub/message.hpp], [src/message.cpp]) *)
Module Message.
Section WithPayload.
Context {Payload : Type}.
Local Abbreviation Message := (Message Payload) (only parsing).

(** The [MessageSerializer] interface: two virtual functions supplied by the
    application, either of which can throw. *)
Record MessageSerializer : Type := {
  serializer_serialize : Payload -> outcome (list Byte.byte);
  serializer_deserialize : list Byte.byte -> outcome Payload
}.

(** [Message::Message(topic)].  [generated_id] is what [generate_id()]
    returns (clock and random device) and [now] what
    [std::chrono::system_clock::now()] returns; [empty] is the [std::any]
    that holds nothing. *)
Definition new (topic : string) (generated_id : string) (now : Z) (empty : Payload) : Message :=
  {| message_id := generated_id; topic := topic; timestamp := now;
     priority := Normal; headers := ∅; payload := empty |}.

Definition set_priority (priority' : Priority) (m : Message) : Message :=
  {| message_id := message_id m; topic := topic m; timestamp := timestamp m;
     priority := priority'; headers := headers m; payload := payload m |}.

Definition set_payload (payload' : Payload) (m : Message) : Message :=
  {| message_id := message_id m; topic := topic m; timestamp := timestamp m;
     priority := priority m; headers := headers m; payload := payload' |}.

(** [headers_[key] = value]. *)
Definition set_header (key value : string) (m : Message) : Message :=
  {| message_id := message_id m; topic := topic m; timestamp := timestamp m;
     priority := priority m; headers := <[key := value]> (headers m);
     payload := payload m |}.

Definition get_header (key default_value : string) (m : Message) : string :=
  match headers m !! key with
  | Some value => value
  | None => default_value
  end.

(** [Message::create(topic, payload, priority)]. *)
Definition create (topic : string) (payload' : Payload) (priority' : Priority)
    (generated_id : string) (now : Z) (empty : Payload) : Message :=
  set_priority priority' (set_payload payload' (new topic generated_id now empty)).

(** [Message::serialize]: the payload alone is handed to the serializer. *)
Definition serialize (serializer : MessageSerializer) (m : Message) : outcome (list Byte.byte) :=
  serializer_serialize serializer (payload m).

(** [Message::deserialize]: a new message for the topic [deserialized]
    receives the payload that the serializer returns. *)
Definition deserialize (data : list Byte.byte) (serializer : MessageSerializer)
    (generated_id : string) (now : Z) (empty : Payload) : outcome Message :=
  payload' ← serializer_deserialize serializer data;
  Ok (set_payload payload' (new "deserialized" generated_id now empty)).

End WithPayload.
Arguments MessageSerializer : clear implicits.
End Message.

(** ** [Topic] ([include/pubsub/topic.hpp], [src/topic.cpp]) *)
Module Topic.
Section WithTypes.
Context {Payload U : Type}.
Local Abbreviation Message := (Message Payload) (only parsing).
Local Abbreviation World := (World Payload U) (only parsing).

(** The class [Topic]: a name and the subscriptions attached to it, by
    id. *)
Record t : Type := {
  name_ : string;
  subscriptions_ : gmap string loc
}.

Definition new (name : string) : t := {| name_ := name; subscriptions_ := ∅ |}.

Definition name (topic : t) : string := name_ topic.

(** [subscriptions_[subscription->id()] = subscription]. *)
Definition add_subscription (subscription : loc) (w : World) (topic : t) : t :=
  {| name_ := name_ topic;
     subscriptions_ := <[id_ (subs w subscription) := subscription]> (subscriptions_ topic) |}.

Definition remove_subscription (subscription_id : string) (topic : t) : bool * t :=
  match subscriptions_ topic !! subscription_id with
  | Some _ =>
      (true, {| name_ := name_ topic;
                subscriptions_ := delete subscription_id (subscriptions_ topic) |})
  | None => (false, topic)
  end.

Definition subscription_count (topic : t) : Z := Z.of_nat (size (subscriptions_ topic)).

(** The subscriptions that [Topic::publish] visits, in the order of the
    map. *)
Definition attached (topic : t) : list loc := (map_to_list (subscriptions_ topic)).*2.

(** [Topic::publish]: [deliver] on every attached subscription, the results
    dropped.  A callback of this development makes no call on a [Topic], so
    the map is the same throughout the loop. *)
Definition publish (message : Message) (topic : t) (w : World) : bool * World :=
  (true,
   foldl (fun w subscription =>
            (Subscription.deliver Broker.perform subscription message w).2)
         w (attached topic)).

End WithTypes.
End Topic.

(** ** The library entry points ([src/pubsub.cpp]) *)
Module PubSub.
Section WithTypes.
Context {Payload U : Type}.
Local Abbreviation World := (World Payload U) (only parsing).

(** [pubsub::initialize(thread_count)]: a default configuration whose
    [thread_count] is the argument or, for zero,
    [std::max(1u, hardware_concurrency())]. *)
Definition initialize (thread_count' : Z) (hardware_concurrency : Z) (w : World)
    : bool * World :=
  let config :=
    {| thread_count := if 0 <? thread_count' then thread_count'
                       else Z.max 1 hardware_concurrency;
       max_queue_size := max_queue_size default_config;
       retain_messages := retain_messages default_config;
       max_retained_messages := max_retained_messages default_config;
       strict_topic_matching := strict_topic_matching default_config |} in
  Broker.initialize config hardware_concurrency w.

Definition shutdown (w : World) : World := Broker.shutdown w.

End WithTypes.
End PubSub.

(** ** Vocabulary of the further properties *)
Section FurtherVocabulary.
Context {Payload U : Type}.
Local Abbreviation Message := (Message Payload) (only parsing).
Local Abbreviation Subscription := (Subscription Payload U) (only parsing).
Local Abbreviation Event := (Event Payload) (only parsing).
Local Abbreviation World := (World Payload U) (only parsing).

(** Every registry entry refers to an object that has been created and is
    filed under the id of that object. *)
Definition registry_wf (w : World) : Prop :=
  map_Forall (fun k sub => allocated sub w /\ id_ (subs w sub) = k)
             (subscriptions_ (broker w)).

(** The queue holds no more than [max_queue_size] messages. *)
Definition queue_bounded (w : World) : Prop :=
  Z.of_nat (List.length (message_queue_ (broker w))) <= max_queue_size (config_ (broker w)).

Definition is_initialize (o : Op Payload U) : bool :=
  match o with
  | OInitialize _ _ => true
  | _ => false
  end.

(** One turn of a worker that finds [message] at the front of the queue. *)
Definition take_and_process (w : World) (message : Message) : World :=
  Broker.process_message message
    (with_broker (fun b => set_queue (tail (message_queue_ b)) b) w).

(** The same subscription with other options. *)
Definition with_options (options : SubscriptionOptions) (s : Subscription) : Subscription :=
  {| id_ := id_ s; filter_ := filter_ s; callback_ := callback_ s;
     options_ := options; message_count_ := message_count_ s;
     active_ := active_ s |}.

(** The callback of [sub] was not entered in [evs]. *)
Definition never_called (sub : loc) (evs : list Event) : Prop :=
  Forall (fun e => match e with EvCallback l _ => l <> sub | _ => True end) evs.

(** The messages of the calls of [deliver] in [evs], in order. *)
Definition delivered_messages_of (evs : list Event) : list Message :=
  (delivered_to evs).*2.

End FurtherVocabulary.

(** ** Vocabulary of the run properties *)
Section RunVocabulary.
Context {Payload U : Type}.

(** How many times the callback of [sub] was entered. *)
Definition calls_of (sub : loc) (evs : list (Event Payload)) : nat :=
  List.length (filter (fun p => p.1 = sub) (called evs)).

Definition is_deliver (o : Op Payload U) : bool :=
  match o with
  | ODeliver _ _ => true
  | _ => false
  end.

(** [counts !! i] copies of [messages !! i], for each [i] in turn. *)
Definition grouped (counts : list nat) (messages : list (Message Payload))
    : list (Message Payload) :=
  List.concat (zip_with replicate counts messages).

End RunVocabulary.

Section Similarity.
Context {Payload U : Type}.

(** Two subscription objects that differ at most in the options other than
    [max_messages]. *)
Definition similar_sub (s1 s2 : Subscription Payload U) : Prop :=
  id_ s1 = id_ s2 /\ filter_ s1 = filter_ s2 /\ callback_ s1 = callback_ s2 /\
  max_messages (options_ s1) = max_messages (options_ s2) /\
  message_count_ s1 = message_count_ s2 /\ active_ s1 = active_ s2.

(** Two worlds that differ at most in those options of their
    subscriptions. *)
Definition similar (w1 w2 : World Payload U) : Prop :=
  (forall l, similar_sub (subs w1 l) (subs w2 l)) /\
  next_loc w1 = next_loc w2 /\ next_id w1 = next_id w2 /\
  broker w1 = broker w2 /\ user w1 = user w2 /\ trace w1 = trace w2.

End Similarity.

(** ** More sample values *)
Module Fixture.

(** A serializer of boolean payloads: one byte, 1 for true. *)
Definition flag_serializer : Message.MessageSerializer bool :=
  {| Message.serializer_serialize := fun b : bool => Ok [if b then Byte.x01 else Byte.x00];
     Message.serializer_deserialize := fun data : list Byte.byte =>
       match data with
       | [Byte.x00] => Ok false
       | [Byte.x01] => Ok true
       | _ => Throws
       end |}.

Definition flag : Message bool := Message.create "a/b" true High "m1" 5 false.

(** A configuration that leaves the number of workers to the hardware. *)
Definition any_threads : BrokerConfig :=
  {| thread_count := 0; max_queue_size := 7; retain_messages := false;
     max_retained_messages := 9; strict_topic_matching := true |}.

(** Options that differ from [Sample.options 3] in all but the limit. *)
Definition other_options : SubscriptionOptions :=
  {| max_messages := 3; auto_acknowledge := false;
     receive_existing_messages := true; timeout_ms := 500 |}.

(** [Sample.limited] with [other_options] on its subscription. *)
Definition limited_other : World unit unit :=
  with_sub 0%nat (with_options other_options) Sample.limited.

(** A running broker without subscription and with two messages queued. *)
Definition queued : World unit unit :=
  (publish_all [("a/b", Sample.message "a/b" Normal); ("x", Sample.message "x" High)]
               (Sample.running 2)).2.

(** [Sample.quiet_and_faulty] with two messages queued. *)
Definition busy : World unit unit :=
  (publish_all [("a/b", Sample.message "a/b" Normal); ("x", Sample.message "x" High)]
               Sample.quiet_and_faulty).2.

End Fixture.

(** Closed goals are settled by evaluation. *)
Ltac evaluate := vm_compute; first [reflexivity | discriminate | exact I | by intro].

(** * Properties *)

(** ** The matcher decides the language *)
Section RegexFacts.
Import Regex.

Lemma lang_eps_inv s : lang Eps s -> s = [].
Proof. by inversion 1. Qed.

Lemma lang_void_inv s : ~ lang Void s.
Proof. by inversion 1. Qed.

Lemma lang_sym_inv m s : lang (Sym m) s -> exists ch, s = [ch] /\ matcher_apply m ch = true.
Proof. inversion 1; subst; eauto. Qed.

Lemma lang_cat_inv r1 r2 s :
  lang (Cat r1 r2) s -> exists s1 s2, s = s1 ++ s2 /\ lang r1 s1 /\ lang r2 s2.
Proof. inversion 1; subst; eauto. Qed.

Lemma lang_alt_inv r1 r2 s : lang (Alt r1 r2) s -> lang r1 s \/ lang r2 s.
Proof. inversion 1; subst; eauto. Qed.

Lemma nullable_spec r : nullable r = true <-> lang r [].
Proof.
  induction r as [| |m|r1 IH1 r2 IH2|r1 IH1 r2 IH2|r IH]; simpl.
  - split; [done|]. intros H. by apply lang_void_inv in H.
  - split; [constructor|done].
  - split; [done|]. intros H. apply lang_sym_inv in H as (ch & ? & _). done.
  - rewrite andb_true_iff, IH1, IH2. split.
    + intros [H1 H2]. apply (lang_cat r1 r2 [] [] H1 H2).
    + intros H. apply lang_cat_inv in H as (s1 & s2 & Hs & H1 & H2).
      symmetry in Hs. apply app_eq_nil in Hs as [-> ->]. done.
  - rewrite orb_true_iff, IH1, IH2. split.
    + intros [H|H]; [by apply lang_alt_l|by apply lang_alt_r].
    + apply lang_alt_inv.
  - split; [constructor|done].
Qed.

(** A non-empty word of a starred language starts with a non-empty word of
    the language itself. *)
Lemma lang_star_cons_inv r ch s :
  lang (Star r) (ch :: s) ->
  exists s1 s2, s = s1 ++ s2 /\ lang r (ch :: s1) /\ lang (Star r) s2.
Proof.
  intros H. remember (Star r) as r' eqn:Hr. remember (ch :: s) as s' eqn:Hs.
  revert Hr Hs. induction H as [| | | | | |r0 s1 s2 H1 _ H2 IH2]; intros Hr Hs; try discriminate.
  inversion Hr; subst r0. destruct s1 as [|c1 s1]; simpl in Hs.
  - by apply IH2.
  - inversion Hs; subst. eauto.
Qed.

Lemma deriv_spec ch r s : lang (deriv ch r) s <-> lang r (ch :: s).
Proof.
  revert s. induction r as [| |m|r1 IH1 r2 IH2|r1 IH1 r2 IH2|r IH]; intros s; simpl.
  - split; intros H; by apply lang_void_inv in H.
  - split; intros H; [by apply lang_void_inv in H|by apply lang_eps_inv in H].
  - destruct (matcher_apply m ch) eqn:Hm; split; intros H.
    + apply lang_eps_inv in H as ->. by constructor.
    + apply lang_sym_inv in H as (c & Hc & _). inversion Hc; subst. constructor.
    + by apply lang_void_inv in H.
    + apply lang_sym_inv in H as (c & Hc & Hc'). inversion Hc; subst. congruence.
  - assert (Hcat : lang (Cat (deriv ch r1) r2) s ->  lang (Cat r1 r2) (ch :: s)).
    { intros H. apply lang_cat_inv in H as (s1 & s2 & -> & H1 & H2).
      apply IH1 in H1. apply (lang_cat r1 r2 (ch :: s1) s2 H1 H2). }
    assert (Hinv : lang (Cat r1 r2) (ch :: s) ->
              lang (Cat (deriv ch r1) r2) s \/ (lang r1 [] /\ lang r2 (ch :: s))).
    { intros H. apply lang_cat_inv in H as (s1 & s2 & Hs & H1 & H2).
      destruct s1 as [|c1 s1]; simpl in Hs.
      - right. subst s2. done.
      - left. inversion Hs; subst. apply lang_cat; [by apply IH1|done]. }
    destruct (nullable r1) eqn:Hn; split; intros H.
    + apply lang_alt_inv in H as [H|H]; [by apply Hcat|].
      apply IH2 in H. apply nullable_spec in Hn.
      apply (lang_cat r1 r2 [] (ch :: s) Hn H).
    + apply Hinv in H as [H|[_ H]]; [by apply lang_alt_l|].
      apply lang_alt_r. by apply IH2.
    + by apply Hcat.
    + apply Hinv in H as [H|[H _]]; [done|].
      apply nullable_spec in H. congruence.
  - split; intros H.
    + apply lang_alt_inv in H as [H|H]; [apply lang_alt_l; by apply IH1|apply lang_alt_r; by apply IH2].
    + apply lang_alt_inv in H as [H|H]; [apply lang_alt_l; by apply IH1|apply lang_alt_r; by apply IH2].
  - split; intros H.
    + apply lang_cat_inv in H as (s1 & s2 & -> & H1 & H2).
      apply IH in H1. apply (lang_star_cons r (ch :: s1) s2 H1 H2).
    + apply lang_star_cons_inv in H as (s1 & s2 & -> & H1 & H2).
      apply lang_cat; [by apply IH|done].
Qed.

Lemma accepts_spec r s : accepts r s = true <-> lang r s.
Proof.
  revert r. induction s as [|ch s IH]; intros r; simpl.
  - apply nullable_spec.
  - rewrite IH. apply deriv_spec.
Qed.

End RegexFacts.

Section WildcardFacts.
Import Regex.

Lemma list_ascii_app (s1 s2 : string) :
  list_ascii_of_string (s1 +:+ s2) = list_ascii_of_string s1 ++ list_ascii_of_string s2.
Proof. induction s1 as [|c s1 IH]; simpl; [done|by rewrite IH]. Qed.

Lemma list_ascii_inj (s1 s2 : string) :
  list_ascii_of_string s1 = list_ascii_of_string s2 -> s1 = s2.
Proof.
  intros H. rewrite <- (string_of_list_ascii_of_string s1), <- (string_of_list_ascii_of_string s2).
  by rewrite H.
Qed.

Lemma scan_piece c pattern ts :
  wild_char c = true ->
  scan state_normal (list_ascii_of_string (wildcardToRegex pattern)) = Ok ts ->
  exists ts1,
    scan state_normal (list_ascii_of_string (wildcardToRegex (String c pattern))) =
      Ok (ts1 ++ ts) /\
    forall p, _M_disjunction ts = Ok p -> p_quant p = [] ->
      _M_disjunction (ts1 ++ ts) = Ok (mk_pending [] (Cat (wild_piece c) (p_alt p)) (p_rest p)).
Proof.
  intros Hc Hts.
  destruct c as [[] [] [] [] [] [] [] []]; try discriminate Hc;
    cbn [wildcardToRegex Ascii.eqb Bool.eqb orb andb];
    rewrite ?list_ascii_app; cbn [list_ascii_of_string app scan is_spec_char existsb ecma_spec_char Ascii.eqb Bool.eqb orb andb negb];
    rewrite Hts; cbn [cons_token mbind outcome_bind];
    first [ eexists [_]; split; [reflexivity|] | eexists [_; _]; split; [reflexivity|] ];
    intros p Hp Hq; cbn [app _M_disjunction mbind outcome_bind]; rewrite Hp; cbn; rewrite Hq; reflexivity.
Qed.

(** A pattern without [?], [{] and [|] compiles, to the concatenation of its
    pieces. *)
Lemma compile_wild (pattern : string) :
  forallb wild_char (list_ascii_of_string pattern) = true ->
  compile (wildcardToRegex pattern) = Ok (wild_regex (list_ascii_of_string pattern)).
Proof.
  intros H.
  assert (exists ts, scan state_normal (list_ascii_of_string (wildcardToRegex pattern)) = Ok ts /\
            _M_disjunction ts = Ok (mk_pending [] (wild_regex (list_ascii_of_string pattern)) None))
    as (ts & Hs & Hd).
  { induction pattern as [|c pattern IH].
    - exists []. done.
    - simpl in H. apply andb_true_iff in H as [Hc H].
      destruct (IH H) as (ts & Hs & Hd).
      destruct (scan_piece c pattern ts Hc Hs) as (ts1 & Hs1 & Hd1).
      exists (ts1 ++ ts). split; [done|]. by rewrite (Hd1 _ Hd). }
  unfold compile. rewrite Hs. simpl. rewrite Hd. done.
Qed.

Lemma lang_star_sym m s :
  lang (Star (Sym m)) s <-> Forall (fun ch => matcher_apply m ch = true) s.
Proof.
  induction s as [|ch s IH].
  - split; [constructor|constructor].
  - split.
    + intros H. apply lang_star_cons_inv in H as (s1 & s2 & -> & H1 & H2).
      apply lang_sym_inv in H1 as (c & Hc & Hm). inversion Hc; subst.
      constructor; [done|]. by apply IH.
    + intros H. inversion H as [|? ? Hm Hs]; subst.
      apply (lang_star_cons (Sym m) [ch] s); [by constructor|by apply IH].
Qed.

Lemma lang_plus_sym m s :
  lang (Cat (Sym m) (Star (Sym m))) s <->
  s <> [] /\ Forall (fun ch => matcher_apply m ch = true) s.
Proof.
  split.
  - intros H. apply lang_cat_inv in H as (s1 & s2 & -> & H1 & H2).
    apply lang_sym_inv in H1 as (c & -> & Hm). split; [done|].
    constructor; [done|]. by apply lang_star_sym.
  - intros [Hne H]. destruct s as [|ch s]; [done|]. inversion H; subst.
    apply (lang_cat (Sym m) _ [ch] s); [by constructor|by apply lang_star_sym].
Qed.

Lemma ascii_eqb_false (a b : ascii) : Ascii.eqb a b = false <-> a <> b.
Proof. rewrite <- Ascii.eqb_eq. destruct (Ascii.eqb a b); naive_solver. Qed.

Lemma not_slash_spec s :
  Forall (fun ch => matcher_apply (BracketNegMatcher "/") ch = true) s <->
  Forall (fun ch => ch <> "/"%char) s.
Proof.
  apply Forall_proper; [|done]. intros ch. simpl.
  rewrite negb_true_iff. apply ascii_eqb_false.
Qed.

Lemma any_spec s :
  Forall (fun ch => matcher_apply AnyMatcher ch = true) s <->
  Forall (fun ch => ch <> LF /\ ch <> CR) s.
Proof.
  apply Forall_proper; [|done]. intros ch. simpl.
  rewrite andb_true_iff, !negb_true_iff, !ascii_eqb_false. done.
Qed.

Lemma wild_char_literal c :
  wild_char c = true -> Ascii.eqb c "+" = false -> Ascii.eqb c "#" = false ->
  literal_char c = true.
Proof.
  unfold wild_char, literal_char. simpl. intros H -> ->.
  simpl. done.
Qed.

Lemma literal_char_wild c :
  literal_char c = true ->
  wild_char c = true /\ Ascii.eqb c "+" = false /\ Ascii.eqb c "#" = false.
Proof.
  unfold wild_char, literal_char. simpl.
  destruct (Ascii.eqb c "+"), (Ascii.eqb c "#"); simpl; try done.
Qed.

(** The language of the compiled pattern is the reading [wild_lang]. *)
Lemma wild_regex_lang p t :
  forallb wild_char p = true ->
  lang (wild_regex p) t <-> wild_lang p t.
Proof.
  revert t. induction p as [|c p IH]; intros t Hp; simpl.
  - split; intros H; [apply lang_eps_inv in H as ->; constructor|inversion H; constructor].
  - simpl in Hp. apply andb_true_iff in Hp as [Hc Hp].
    unfold wild_piece. destruct (Ascii.eqb c "+") eqn:Hplus; [|destruct (Ascii.eqb c "#") eqn:Hhash].
    + apply Ascii.eqb_eq in Hplus as ->. split; intros H.
      * apply lang_cat_inv in H as (s1 & s2 & -> & H1 & H2).
        apply lang_plus_sym in H1 as [Hne H1]. apply not_slash_spec in H1.
        constructor; [done|done|by apply IH].
      * inversion H as [|? seg t' Hne Hseg Ht| |? ? t' Hl Ht]; subst.
        -- apply lang_cat; [|by apply IH]. apply lang_plus_sym. split; [done|by apply not_slash_spec].
        -- done.
    + apply Ascii.eqb_eq in Hhash as ->. split; intros H.
      * apply lang_cat_inv in H as (s1 & s2 & -> & H1 & H2).
        apply lang_star_sym, any_spec in H1. constructor; [done|by apply IH].
      * inversion H as [| |? any t' Hany Ht|? ? t' Hl Ht]; subst.
        -- apply lang_cat; [|by apply IH]. by apply lang_star_sym, any_spec.
        -- done.
    + split; intros H.
      * apply lang_cat_inv in H as (s1 & s2 & -> & H1 & H2).
        apply lang_sym_inv in H1 as (ch & -> & Hm). simpl in Hm.
        apply Ascii.eqb_eq in Hm as ->. constructor; [by apply wild_char_literal|by apply IH].
      * inversion H as [|? seg t' Hne Hseg Ht|? any t' Hany Ht|? ? t' Hl Ht]; subst.
        -- by rewrite Ascii.eqb_refl in Hplus.
        -- by rewrite Ascii.eqb_refl in Hhash.
        -- apply (lang_cat _ _ [c] t'); [|by apply IH]. constructor. simpl. apply Ascii.eqb_refl.
Qed.

Lemma contains_spec c s :
  TopicFilterFactory.contains c s = false <-> Forall (fun ch => ch <> c) (list_ascii_of_string s).
Proof.
  induction s as [|d s IH]; simpl.
  - split; [constructor|done].
  - rewrite orb_false_iff, IH, ascii_eqb_false. split.
    + intros [? ?]. by constructor.
    + by inversion 1.
Qed.

Lemma contains_app c s1 s2 :
  TopicFilterFactory.contains c (s1 +:+ s2) =
  TopicFilterFactory.contains c s1 || TopicFilterFactory.contains c s2.
Proof. induction s1 as [|d s1 IH]; simpl; [done|]. by rewrite IH, orb_assoc. Qed.

(** What [pattern_matches] answers for a wildcard pattern without [?], [{]
    and [|]. *)
Lemma pattern_matches_wild (pattern t : string) :
  TopicFilterFactory.has_wildcards pattern = true ->
  forallb wild_char (list_ascii_of_string pattern) = true ->
  exists b, pattern_matches pattern t = Ok b /\
    (b = true <-> wild_lang (list_ascii_of_string pattern) (list_ascii_of_string t)).
Proof.
  intros Hw Hp. unfold pattern_matches, TopicFilterFactory.create. rewrite Hw.
  unfold WildcardTopicFilter.new. rewrite (compile_wild _ Hp). simpl.
  eexists; split; [reflexivity|].
  unfold WildcardTopicFilter.matches, regex_match.
  rewrite accepts_spec. by apply wild_regex_lang.
Qed.

(** A pattern without wildcard is compared with the topic. *)
Lemma pattern_matches_exact (pattern t : string) :
  TopicFilterFactory.has_wildcards pattern = false ->
  pattern_matches pattern t = Ok (String.eqb pattern t).
Proof.
  intros Hw. unfold pattern_matches, TopicFilterFactory.create. by rewrite Hw.
Qed.

Lemma literal_wild l : forallb literal_char l = true -> forallb wild_char l = true.
Proof.
  induction l as [|c l IH]; simpl; [done|]. rewrite !andb_true_iff.
  intros [Hc Hl]. split; [by apply literal_char_wild|by apply IH].
Qed.

Lemma wild_lang_literal_app l p t :
  forallb literal_char l = true ->
  wild_lang (l ++ p) t <-> exists t', t = l ++ t' /\ wild_lang p t'.
Proof.
  revert t. induction l as [|c l IH]; intros t Hl; simpl.
  - split; [eauto|]. by intros (t' & -> & H).
  - simpl in Hl. apply andb_true_iff in Hl as [Hc Hl].
    destruct (literal_char_wild c Hc) as (_ & Hplus & Hhash). split.
    + intros H. inversion H as [|? seg t' Hne Hseg Ht|? any t' Hany Ht|? ? t' Hlc Ht]; subst.
      * by rewrite Ascii.eqb_refl in Hplus.
      * by rewrite Ascii.eqb_refl in Hhash.
      * apply IH in Ht as (t'' & -> & Ht''); [|done]. eauto.
    + intros (t' & -> & H). constructor; [done|]. apply IH; eauto.
Qed.

Lemma wild_lang_literal l t :
  forallb literal_char l = true -> wild_lang l t <-> t = l.
Proof.
  intros Hl. rewrite <- (app_nil_r l) at 1. rewrite wild_lang_literal_app by done.
  split.
  - intros (t' & -> & H). inversion H. by rewrite app_nil_r.
  - intros ->. exists []. split; [by rewrite app_nil_r|constructor].
Qed.

Lemma wild_lang_plus_literal suf t :
  forallb literal_char suf = true ->
  wild_lang ("+"%char :: suf) t <->
  exists seg, seg <> [] /\ Forall (fun ch => ch <> "/"%char) seg /\ t = seg ++ suf.
Proof.
  intros Hl. split.
  - intros H. inversion H as [|? seg t' Hne Hseg Ht| |? ? t' Hlc Ht]; subst.
    + apply wild_lang_literal in Ht as ->; [|done]. eauto.
    + done.
  - intros (seg & Hne & Hseg & ->). constructor; [done|done|by apply wild_lang_literal].
Qed.

Lemma wild_lang_hash t :
  wild_lang ["#"%char] t <-> Forall (fun ch => ch <> LF /\ ch <> CR) t.
Proof.
  split.
  - intros H. inversion H as [| |? any t' Hany Ht|? ? t' Hlc Ht]; subst.
    + inversion Ht. by rewrite app_nil_r.
    + done.
  - intros H. rewrite <- (app_nil_r t). constructor; [done|constructor].
Qed.

(** [+] between two literal parts. *)
Lemma plus_between_literals (pre suf t : string) :
  literal pre = true -> literal suf = true ->
  exists b, pattern_matches (pre +:+ "+" +:+ suf) t = Ok b /\
    (b = true <->
     exists seg : string, seg <> "" /\ TopicFilterFactory.contains "/" seg = false /\
                          t = pre +:+ seg +:+ suf).
Proof.
  intros Hpre Hsuf. unfold literal in *.
  destruct (pattern_matches_wild (pre +:+ "+" +:+ suf) t) as (b & Hb & Hiff).
  { unfold TopicFilterFactory.has_wildcards. rewrite !contains_app. simpl.
    by rewrite orb_true_r. }
  { rewrite !list_ascii_app, !forallb_app. simpl.
    by rewrite !literal_wild. }
  exists b. split; [done|]. rewrite Hiff. rewrite !list_ascii_app. simpl.
  rewrite wild_lang_literal_app by done. split.
  - intros (t' & Ht & H). apply wild_lang_plus_literal in H as (seg & Hne & Hseg & ->); [|done].
    exists (string_of_list_ascii seg). split; [|split].
    + intros Hs. apply Hne. by rewrite <- (list_ascii_of_string_of_list_ascii seg), Hs.
    + apply contains_spec. by rewrite list_ascii_of_string_of_list_ascii.
    + apply list_ascii_inj. by rewrite Ht, !list_ascii_app, list_ascii_of_string_of_list_ascii.
  - intros (seg & Hne & Hseg & ->). exists (list_ascii_of_string (seg +:+ suf)).
    split; [by rewrite !list_ascii_app|]. rewrite list_ascii_app.
    apply wild_lang_plus_literal; [done|]. exists (list_ascii_of_string seg).
    split; [|split; [by apply contains_spec|done]].
    intros Hs. apply Hne. apply list_ascii_inj. by rewrite Hs.
Qed.

End WildcardFacts.

(** Claim C7.  The [+] wildcard stands for exactly one non-empty segment
    without a slash: a pattern made of a literal part, [+] and a literal part
    matches a topic if and only if the topic is the first part, a non-empty
    slash-free segment and the second part.  In particular [a/+/c] matches
    [a/b/c] and none of [a/b/d/c], [a//c], [a/c], and [sensors/+/temp]
    matches [sensors/1/temp] but neither [sensors/1/2/temp] nor
    [sensors//temp]. *)
Theorem plus_matches_one_segment :
  (forall pre suf t : string,
     literal pre = true -> literal suf = true ->
     exists b, pattern_matches (pre +:+ "+" +:+ suf) t = Ok b /\
       (b = true <->
        exists seg : string, seg <> "" /\ TopicFilterFactory.contains "/" seg = false /\
                             t = pre +:+ seg +:+ suf)) /\
  pattern_matches "a/+/c" "a/b/c" = Ok true /\
  pattern_matches "a/+/c" "a/b/d/c" = Ok false /\
  pattern_matches "a/+/c" "a//c" = Ok false /\
  pattern_matches "a/+/c" "a/c" = Ok false /\
  pattern_matches "sensors/+/temp" "sensors/1/temp" = Ok true /\
  pattern_matches "sensors/+/temp" "sensors/1/2/temp" = Ok false /\
  pattern_matches "sensors/+/temp" "sensors//temp" = Ok false.
Proof.
  split; [exact plus_between_literals|].
  repeat split; vm_compute; reflexivity.
Qed.

(** ** Every pattern is inside the fragment *)
Section Coverage.
Import Regex.

Lemma cons_token_covers t o : o <> Unmodelled -> cons_token t o <> Unmodelled.
Proof. by destruct o. Qed.

Lemma cons_digit_covers c o : o <> Unmodelled -> cons_digit c o <> Unmodelled.
Proof. destruct o as [[|[] ts]| |]; done. Qed.

(** Whatever the state of the scanner, what [wildcardToRegex] builds is
    scanned to the end or rejected. *)
Lemma scan_covers (pattern : string) st :
  scan st (list_ascii_of_string (wildcardToRegex pattern)) <> Unmodelled.
Proof.
  revert st. induction pattern as [|c pattern IH]; intros st; [by destruct st|].
  destruct st;
    destruct c as [[] [] [] [] [] [] [] []];
    cbn [wildcardToRegex Ascii.eqb Bool.eqb orb andb];
    rewrite ?list_ascii_app;
    cbn [list_ascii_of_string app scan is_spec_char is_digit existsb ecma_spec_char
         Ascii.eqb Bool.eqb orb andb negb nat_of_ascii N_of_ascii N_of_digits N.to_nat
         Pos.to_nat Pos.iter_op Nat.add Nat.leb N.add N.mul Pos.add Pos.succ Pos.mul];
    repeat first [apply cons_token_covers | apply cons_digit_covers];
    first [apply IH | discriminate].
Qed.

Lemma skip_opt_length qs : (List.length (skip_opt qs) <= List.length qs)%nat.
Proof. destruct qs as [|[] qs]; simpl; lia. Qed.

Lemma quantifier_covers qs e : _M_quantifier e qs <> Unmodelled.
Proof.
  remember (List.length qs) as n eqn:Hn.
  assert (Hle : (List.length qs <= n)%nat) by lia. clear Hn.
  revert qs e Hle. induction n as [|n IH]; intros qs e Hle.
  { destruct qs; [done|simpl in Hle; lia]. }
  destruct qs as [|t qs]; [done|]. simpl in Hle.
  assert (Hrec : forall qs' e', (List.length qs' <= List.length qs)%nat ->
            _M_quantifier e' (skip_opt qs') <> Unmodelled).
  { intros qs' e' Hl. apply IH. pose proof (skip_opt_length qs'). lia. }
  destruct t; simpl; try done; try (by apply Hrec).
  destruct qs as [|[] qs]; try done.
  destruct qs as [|[] qs]; try done.
  - destruct qs as [|[] qs]; try done.
    + destruct qs as [|[] qs]; try done.
      case_match; [done|]. apply Hrec. simpl. lia.
    + apply Hrec. simpl. lia.
  - apply Hrec. simpl. lia.
Qed.

Lemma disjunction_covers ts : _M_disjunction ts <> Unmodelled.
Proof.
  induction ts as [|t ts IH]; [done|]. simpl.
  destruct (_M_disjunction ts) as [p| |]; [|done..]. simpl.
  destruct t; simpl; try done.
  - by destruct (_M_quantifier _ _) eqn:Hq; [| |apply quantifier_covers in Hq].
  - by destruct (_M_quantifier _ _) eqn:Hq; [| |apply quantifier_covers in Hq].
  - by destruct (p_quant p).
  - by destruct (_M_quantifier _ _) eqn:Hq; [| |apply quantifier_covers in Hq].
Qed.

(** [std::regex] is described on every string that [wildcardToRegex] can
    build: the constructor returns or throws. *)
Lemma compile_covers (pattern : string) :
  compile (wildcardToRegex pattern) <> Unmodelled.
Proof.
  unfold compile. pose proof (scan_covers pattern state_normal) as Hs.
  destruct (scan _ _) as [ts| |]; [|done..]. simpl.
  pose proof (disjunction_covers ts) as Hd.
  destruct (_M_disjunction ts) as [p| |]; [|done..]. simpl.
  by destruct (p_quant p).
Qed.

End Coverage.

Lemma create_covers (pattern : string) :
  TopicFilterFactory.create pattern <> Unmodelled.
Proof.
  unfold TopicFilterFactory.create, WildcardTopicFilter.new.
  destruct (TopicFilterFactory.has_wildcards pattern); [|done].
  pose proof (compile_covers pattern). by destruct (Regex.compile _).
Qed.

Lemma subscribe_covers {Payload U : Type} (topic_pattern : string)
    (callback : MessageCallback Payload U) (options : SubscriptionOptions)
    (w : World Payload U) :
  Broker.subscribe topic_pattern callback options w <> Unmodelled.
Proof.
  unfold Broker.subscribe, Subscription.create.
  destruct (negb (running_ (broker w))); [done|].
  pose proof (create_covers topic_pattern). by destruct (TopicFilterFactory.create _).
Qed.

(** ** Frame properties of the operations *)
Section BrokerFacts.
Context {Payload U : Type}.
Implicit Types (w : World Payload U) (message : Message Payload) (sub l : loc).
Implicit Types (a : Action Payload U) (evs : list (Event Payload)).

Local Abbreviation deliver := (Subscription.deliver (@Broker.perform Payload U)) (only parsing).

Lemma frame_refl w : frame w w.
Proof. split; [done|]. intros l _. done. Qed.

Lemma frame_trans w1 w2 w3 : frame w1 w2 -> frame w2 w3 -> frame w1 w3.
Proof.
  intros [Hn1 H1] [Hn2 H2]. split; [lia|]. intros l Hl.
  assert (Hl2 : allocated l w2) by (unfold allocated in *; lia).
  destruct (H1 l Hl) as (? & ? & ? & ? & Ha1).
  destruct (H2 l Hl2) as (? & ? & ? & ? & Ha2).
  repeat split; [congruence..|auto].
Qed.

Lemma frame_counts_refl P w : frame_counts P w w.
Proof. split; [apply frame_refl|done]. Qed.

Lemma frame_counts_trans P w1 w2 w3 :
  frame_counts P w1 w2 -> frame_counts P w2 w3 -> frame_counts P w1 w3.
Proof.
  intros [F1 C1] [F2 C2]. split; [by eapply frame_trans|].
  intros l Hl HP. rewrite C2, C1; try done.
  destruct F1 as [Hn _]. unfold allocated in *. lia.
Qed.

Lemma frame_counts_weaken (P Q : loc -> Prop) w1 w2 :
  (forall l, P l -> Q l) -> frame_counts P w1 w2 -> frame_counts Q w1 w2.
Proof. intros HPQ [F C]. split; [done|]. intros l Hl HQ. apply C; auto. Qed.

(** Changes that leave the store of subscriptions alone. *)
Lemma frame_counts_same_subs P w w' :
  subs w' = subs w -> next_loc w' = next_loc w -> frame_counts P w w'.
Proof.
  intros Hs Hn. split; [split|]; rewrite ?Hs, ?Hn; [done| |done].
  intros l _. done.
Qed.

Lemma frame_counts_cancel P sub w : frame_counts P w (Subscription.cancel sub w).
Proof.
  split; [split; [done|]|]; intros l Hl; simpl; case_decide; subst; simpl; done.
Qed.

Lemma frame_counts_count_message sub w :
  frame_counts (fun l => l = sub) w (with_sub sub Subscription.count_message w).
Proof.
  split; [split; [done|]|]; intros l Hl; simpl; case_decide; subst; simpl; done.
Qed.

Lemma frame_counts_create P topic_pattern callback options w sub w' :
  Subscription.create topic_pattern callback options w = Ok (sub, w') ->
  frame_counts P w w' /\ sub = next_loc w /\ next_loc w' = S (next_loc w) /\
  broker w' = broker w /\ trace w' = trace w /\ user w' = user w.
Proof.
  unfold Subscription.create. destruct (TopicFilterFactory.create topic_pattern); simpl; [|done..].
  intros [= <- <-]. simpl. split; [|done].
  split; [split|]; simpl; [lia| |]; intros l Hl; unfold allocated in Hl;
    case_decide; try lia; done.
Qed.

Lemma frame_counts_publish P topic_str message w :
  frame_counts P w (snd (Broker.publish topic_str message w)).
Proof.
  apply frame_counts_same_subs; unfold Broker.publish;
    repeat (case_match; simpl; try done).
Qed.

Lemma subscribe_inv topic_pattern callback options w sub w' :
  Broker.subscribe topic_pattern callback options w = Ok (sub, w') ->
  running_ (broker w) = true /\
  exists w1, Subscription.create topic_pattern callback options w = Ok (sub, w1) /\
    w' = with_broker (fun b => set_subscriptions
                                 (<[id_ (subs w1 sub) := sub]> (subscriptions_ b)) b) w1.
Proof.
  unfold Broker.subscribe. destruct (running_ (broker w)); simpl; [|done].
  destruct (Subscription.create _ _ _ _) as [[sub1 w1]| |] eqn:Hc; simpl; [|done..].
  intros [= <- <-]. eauto.
Qed.

Lemma frame_counts_subscribe P topic_pattern callback options w sub w' :
  Broker.subscribe topic_pattern callback options w = Ok (sub, w') ->
  frame_counts P w w'.
Proof.
  intros (_ & w1 & Hc & ->)%subscribe_inv.
  apply (frame_counts_create P) in Hc as (Hf & _).
  eapply frame_counts_trans; [exact Hf|]. by apply frame_counts_same_subs.
Qed.

Lemma frame_counts_unsubscribe P subscription w :
  frame_counts P w (snd (Broker.unsubscribe subscription w)).
Proof.
  unfold Broker.unsubscribe. destruct subscription as [sub|]; [|apply frame_counts_refl].
  case_match; simpl; [|apply frame_counts_refl].
  eapply frame_counts_trans; [apply frame_counts_cancel|]. by apply frame_counts_same_subs.
Qed.

Lemma frame_counts_initialize P config hc w :
  frame_counts P w (snd (Broker.initialize config hc w)).
Proof. unfold Broker.initialize. case_match; simpl; by apply frame_counts_same_subs. Qed.

Lemma frame_counts_shutdown P w : frame_counts P w (Broker.shutdown w).
Proof. unfold Broker.shutdown. case_match; simpl; by apply frame_counts_same_subs. Qed.

Lemma frame_counts_perform P a w : frame_counts P w (Broker.perform a w).
Proof.
  destruct a as [sub|sub|topic_str message|topic_pattern callback options];
    unfold Broker.perform.
  - apply frame_counts_cancel.
  - apply frame_counts_unsubscribe.
  - apply frame_counts_publish.
  - destruct (Broker.subscribe _ _ _ _) as [[sub w1]| |] eqn:Hs; try apply frame_counts_refl.
    by eapply frame_counts_subscribe.
Qed.

Lemma frame_counts_performs P (actions : list (Action Payload U)) w :
  frame_counts P w (foldl (fun w a => Broker.perform a w) w actions).
Proof.
  revert w. induction actions as [|a actions IH]; intros w; simpl.
  - apply frame_counts_refl.
  - eapply frame_counts_trans; [apply frame_counts_perform|apply IH].
Qed.

(** What the calls of a callback leave untouched in the broker. *)
Lemma perform_observations a w :
  trace (Broker.perform a w) = trace w /\
  delivered_messages_ (broker (Broker.perform a w)) = delivered_messages_ (broker w) /\
  user (Broker.perform a w) = user w.
Proof.
  destruct a as [sub|sub|topic_str message|topic_pattern callback options]; simpl.
  - done.
  - unfold Broker.unsubscribe. repeat (case_match; simpl; try done).
  - unfold Broker.publish. repeat (case_match; simpl; try done).
  - destruct (Broker.subscribe _ _ _ _) as [[sub w1]| |] eqn:Hs; try done.
    apply subscribe_inv in Hs as (_ & w2 & Hc & ->).
    apply (frame_counts_create (fun _ => False)) in Hc as (_ & _ & _ & Hb & Ht & Hu).
    simpl. by rewrite Hb, Ht, Hu.
Qed.

Lemma performs_observations (actions : list (Action Payload U)) w :
  let w' := foldl (fun w a => Broker.perform a w) w actions in
  trace w' = trace w /\
  delivered_messages_ (broker w') = delivered_messages_ (broker w) /\
  user w' = user w.
Proof.
  revert w. induction actions as [|a actions IH]; intros w; simpl; [done|].
  destruct (IH (Broker.perform a w)) as (-> & -> & ->). apply perform_observations.
Qed.

(** [deliver], case by case. *)
Lemma deliver_cases sub message w :
  let r := (deliver sub message w).1 in
  let w' := (deliver sub message w).2 in
  (w' = log (EvDeliver sub message r) w /\
   ((r = Rejected /\ Subscription.is_active sub w = false) \/
    (r = Filtered /\ Subscription.is_active sub w = true /\
       Subscription.matches sub (topic message) w = false) \/
    (r = Rejected /\ Subscription.is_active sub w = true /\
       Subscription.matches sub (topic message) w = true /\ capped sub w = true))) \/
  (Subscription.is_active sub w = true /\
   Subscription.matches sub (topic message) w = true /\ capped sub w = false /\
   r = (if callback_throws sub message w then Error else Success) /\
   w' = log (EvDeliver sub message r) (after_callback sub message w)).
Proof.
  unfold Subscription.deliver, capped, after_callback, callback_throws.
  destruct (Subscription.is_active sub w) eqn:Ha; simpl; [|left; auto].
  destruct (Subscription.matches sub (topic message) w) eqn:Hm; simpl; [|left; auto 6].
  match goal with |- context [ if ?c then (Rejected, _) else _ ] => destruct c eqn:Hc end;
    simpl; [left; auto 8|].
  right. unfold Subscription.invoke. simpl.
  rewrite decide_True by done. simpl.
  destruct (cb_throws _); simpl; [done|].
  destruct (auto_acknowledge _); done.
Qed.

Lemma after_callback_frame sub message w :
  frame_counts (fun l => l = sub) w (after_callback sub message w).
Proof.
  unfold after_callback.
  eapply frame_counts_trans; [apply frame_counts_count_message|].
  eapply frame_counts_trans; [|by apply frame_counts_same_subs].
  eapply frame_counts_trans; [|apply frame_counts_performs].
  by apply frame_counts_same_subs.
Qed.

Lemma after_callback_count sub message w :
  allocated sub w ->
  message_count_ (subs (after_callback sub message w) sub) = incr (message_count_ (subs w sub)).
Proof.
  intros Hsub. unfold after_callback. simpl.
  pose proof (frame_counts_performs (fun _ => False) 
    (cb_actions (callback_ (subs w sub) message (user w)))
    (log (EvCallback sub message) (with_sub sub Subscription.count_message w))) as [_ Hc].
  rewrite Hc; [|done|tauto]. simpl. by rewrite decide_True.
Qed.

Lemma after_callback_observations sub message w :
  trace (after_callback sub message w) = trace w ++ [EvCallback sub message] /\
  delivered_messages_ (broker (after_callback sub message w)) = delivered_messages_ (broker w).
Proof.
  unfold after_callback. simpl.
  pose proof (performs_observations 
    (cb_actions (callback_ (subs w sub) message (user w)))
    (log (EvCallback sub message) (with_sub sub Subscription.count_message w))) as (Ht & Hd & _).
  by rewrite Ht, Hd.
Qed.

Lemma deliver_frame sub message w :
  frame_counts (fun l => l = sub) w (deliver sub message w).2.
Proof.
  destruct (deliver_cases sub message w) as [[-> _]|(_ & _ & _ & _ & ->)].
  - by apply frame_counts_same_subs.
  - eapply frame_counts_trans; [apply after_callback_frame|by apply frame_counts_same_subs].
Qed.

Lemma subs_log (e : Event Payload) w : subs (log e w) = subs w.
Proof. done. Qed.

Lemma deliver_count sub message w :
  allocated sub w ->
  let r := (deliver sub message w).1 in
  let w' := (deliver sub message w).2 in
  (r = Success \/ r = Error ->
     Subscription.message_count sub w' = incr (Subscription.message_count sub w)) /\
  (r = Rejected \/ r = Filtered ->
     Subscription.message_count sub w' = Subscription.message_count sub w) /\
  r <> Timeout.
Proof.
  intros Hsub. unfold Subscription.message_count.
  destruct (deliver_cases sub message w) as [[-> Hr]|(_ & _ & _ & Hr & ->)];
    rewrite subs_log.
  - destruct Hr as [[Hr _]|[[Hr _]|[Hr _]]]; rewrite Hr;
      (split; [by intros [?|?]|split; [done|done]]).
  - rewrite after_callback_count by done.
    rewrite Hr. destruct (callback_throws sub message w);
      (split; [done|split; [by intros [?|?]|done]]).
Qed.

Lemma deliver_one_frame message w sub : frame w (Broker.deliver_one message w sub).
Proof.
  unfold Broker.deliver_one.
  pose proof (deliver_frame sub message w) as [Hf _].
  destruct (deliver sub message w) as [r w1]. simpl in Hf.
  case_decide; [|done].
  eapply frame_trans; [exact Hf|]. by apply (frame_counts_same_subs (fun _ => False)).
Qed.

Lemma deliver_ones_frame message (targets : list loc) w :
  frame w (foldl (Broker.deliver_one message) w targets).
Proof.
  revert w. induction targets as [|sub targets IH]; intros w; simpl; [apply frame_refl|].
  eapply frame_trans; [apply deliver_one_frame|apply IH].
Qed.

Lemma process_message_frame message w : frame w (Broker.process_message message w).
Proof. apply deliver_ones_frame. Qed.

Lemma step_frame (o : Op Payload U) w : frame w (step w o).
Proof.
  destruct o as [config hc| |topic_str message|topic_pattern callback options
                |subscription|sub|sub message|]; unfold step.
  - apply (frame_counts_initialize (fun _ => False)).
  - apply (frame_counts_shutdown (fun _ => False)).
  - apply (frame_counts_publish (fun _ => False)).
  - destruct (Broker.subscribe _ _ _ _) as [[sub w1]| |] eqn:Hs; try apply frame_refl.
    by eapply (frame_counts_subscribe (fun _ => False)).
  - apply (frame_counts_unsubscribe (fun _ => False)).
  - apply (frame_counts_cancel (fun _ => False)).
  - apply deliver_frame.
  - unfold Broker.worker_iteration.
    destruct (message_queue_ (broker w)) as [|message rest]; [apply frame_refl|].
    apply (frame_trans _ (with_broker (set_queue rest) w));
      [by apply (frame_counts_same_subs (fun _ => False))|apply process_message_frame].
Qed.

Lemma run_frame (ops : list (Op Payload U)) w : frame w (run ops w).
Proof.
  unfold run. revert w. induction ops as [|o ops IH]; intros w; simpl.
  - apply frame_refl.
  - eapply frame_trans; [apply step_frame|apply IH].
Qed.

(** Claim C5, amended.  A call of [deliver] on an existing subscription adds
    one to [message_count] (an unsigned 64-bit counter) exactly when the
    callback was entered, that is when the result is [Success] or [Error]; it
    leaves [message_count] unchanged when the result is [Rejected] or
    [Filtered]; and below the counter's last value the count does not
    decrease. *)
Theorem deliver_counts_entered_callbacks sub message w :
  allocated sub w ->
  let r := (deliver sub message w).1 in
  let w' := (deliver sub message w).2 in
  (r = Success \/ r = Error ->
     Subscription.message_count sub w' = incr (Subscription.message_count sub w)) /\
  (r = Rejected \/ r = Filtered ->
     Subscription.message_count sub w' = Subscription.message_count sub w) /\
  (0 <= Subscription.message_count sub w < SIZE_MODULUS - 1 ->
     Subscription.message_count sub w <= Subscription.message_count sub w').
Proof.
  intros Hsub r w'. destruct (deliver_count sub message w Hsub) as (Hin & Hout & Ht).
  fold r w' in Hin, Hout, Ht. split; [done|split; [done|]].
  intros Hrange. destruct r; try done.
  - rewrite Hin by auto. unfold incr. rewrite Z.mod_small; lia.
  - rewrite Hout by auto. lia.
  - rewrite Hout by auto. lia.
  - rewrite Hin by auto. unfold incr. rewrite Z.mod_small; lia.
Qed.

(** Claim C6.  After [cancel()] no sequence of operations (of the public
    interface or of the workers, callbacks included) makes the subscription
    active again, and [deliver] then returns [Rejected] and changes nothing
    but the record of that call: no callback is entered and
    [message_count] stays as it is. *)
Theorem cancel_is_final sub (ops : list (Op Payload U)) message w :
  allocated sub w ->
  let w1 := run ops (Subscription.cancel sub w) in
  Subscription.is_active sub w1 = false /\
  deliver sub message w1 = (Rejected, log (EvDeliver sub message Rejected) w1) /\
  called (trace (deliver sub message w1).2) = called (trace w1) /\
  Subscription.message_count sub (deliver sub message w1).2 =
    Subscription.message_count sub w1.
Proof.
  intros Hsub w1.
  assert (Ha : Subscription.is_active sub w1 = false).
  { destruct (run_frame ops (Subscription.cancel sub w)) as [_ Hf].
    destruct (Hf sub Hsub) as (_ & _ & _ & _ & Hact).
    unfold Subscription.is_active. fold w1 in Hact.
    destruct (active_ (subs w1 sub)); [|done].
    specialize (Hact eq_refl). simpl in Hact. by rewrite decide_True in Hact. }
  assert (Hd : deliver sub message w1 = (Rejected, log (EvDeliver sub message Rejected) w1)).
  { unfold Subscription.deliver. by rewrite Ha. }
  rewrite Hd. split; [done|split; [done|split; [|done]]].
  simpl. unfold called. by rewrite omap_app, app_nil_r.
Qed.

(** Claim C10.  The topic argument of [publish] has no effect: with two
    topic strings the call returns the same result and leaves the same
    world, so the same queue, and whatever the workers do afterwards is the
    same; [process_message] reads the topic of the message only. *)
Theorem publish_ignores_topic_argument (t1 t2 : string) message w :
  Broker.publish t1 message w = Broker.publish t2 message w /\
  message_queue_ (broker (Broker.publish t1 message w).2) =
    message_queue_ (broker (Broker.publish t2 message w).2) /\
  (forall n, Broker.worker_turns n (Broker.publish t1 message w).2 =
             Broker.worker_turns n (Broker.publish t2 message w).2) /\
  (forall n, trace (Broker.worker_turns n (Broker.publish t1 message w).2) =
             trace (Broker.worker_turns n (Broker.publish t2 message w).2)).
Proof.
  assert (H : Broker.publish t1 message w = Broker.publish t2 message w).
  { unfold Broker.publish.
    destruct (negb (running_ (broker w))); [done|].
    by destruct (negb (topic message =? t1)%string), (negb (topic message =? t2)%string). }
  by rewrite H.
Qed.

Lemma iter_incr (n : nat) (x : Z) :
  (0 < n)%nat -> Nat.iter n incr x = (x + Z.of_nat n) mod SIZE_MODULUS.
Proof.
  induction n as [|n IH]; [lia|]. intros _. simpl Nat.iter.
  destruct n as [|n].
  - simpl. done.
  - rewrite IH by lia. unfold incr. rewrite Zplus_mod_idemp_l. f_equal. lia.
Qed.

(** [publish] on a running broker, by the state of the queue. *)
Lemma publish_running topic_str message w :
  running_ (broker w) = true ->
  let K := max_queue_size (config_ (broker w)) in
  let q := message_queue_ (broker w) in
  let full := (0 <? K) && (K <=? Z.of_nat (List.length q)) in
  Broker.publish topic_str message w =
    (negb full,
     with_broker (fun b => set_queue (if full then q else q ++ [message])
                             (set_published (incr (published_messages_ b)) b)) w).
Proof.
  intros Hr. unfold Broker.publish. rewrite Hr. simpl.
  assert (Hw : (if negb (topic message =? topic_str)%string then w else w) = w)
    by (by destruct (negb _)).
  rewrite Hw.
  destruct ((0 <? _) && _); simpl; [by destruct (Priority_le _ _)|done].
Qed.

Lemma publish_all_spec (calls : list (string * Message Payload)) w :
  running_ (broker w) = true ->
  0 < max_queue_size (config_ (broker w)) ->
  let K := Z.to_nat (max_queue_size (config_ (broker w))) in
  let q := message_queue_ (broker w) in
  let room := (K - List.length q)%nat in
  let w' := (publish_all calls w).2 in
  (publish_all calls w).1 =
    replicate (room `min` List.length calls) true ++
    replicate (List.length calls - room) false /\
  message_queue_ (broker w') = q ++ take room calls.*2 /\
  published_messages_ (broker w') =
    Nat.iter (List.length calls) incr (published_messages_ (broker w)).
Proof.
  revert w. induction calls as [|[topic_str message] calls IH]; intros w Hr HK; simpl.
  - by rewrite Nat.min_0_r, take_nil, !app_nil_r.
  - rewrite (publish_running topic_str message w Hr).
    set (K := max_queue_size (config_ (broker w))) in *.
    set (q := message_queue_ (broker w)).
    set (full := (0 <? K) && (K <=? Z.of_nat (List.length q))).
    set (w1 := with_broker _ w).
    specialize (IH w1 Hr HK).
    destruct (publish_all calls w1) as [rs w2] eqn:Hp. simpl in IH |- *.
    destruct IH as (Hrs & Hq & Hpub). fold K q in Hrs, Hq.
    rewrite Hrs, Hq, Hpub. rewrite <- Nat.iter_succ_r. simpl Nat.iter.
    split; [|split; [|done]].
    + destruct full eqn:Hfull; simpl.
      * apply andb_true_iff in Hfull as [_ Hle%Z.leb_le].
        replace (Z.to_nat K - List.length q)%nat with 0%nat by lia.
        by rewrite !Nat.min_0_l, !Nat.sub_0_r.
      * apply andb_false_iff in Hfull as [Hlt%Z.ltb_ge|Hle%Z.leb_gt]; [lia|].
        rewrite length_app. simpl.
        replace (Z.to_nat K - List.length q)%nat
          with (S (Z.to_nat K - (List.length q + 1)))%nat by lia.
        done.
    + destruct full eqn:Hfull; simpl.
      * apply andb_true_iff in Hfull as [_ Hle%Z.leb_le].
        replace (Z.to_nat K - List.length q)%nat with 0%nat by lia. done.
      * apply andb_false_iff in Hfull as [Hlt%Z.ltb_ge|Hle%Z.leb_gt]; [lia|].
        rewrite length_app. simpl.
        replace (Z.to_nat K - List.length q)%nat
          with (S (Z.to_nat K - (List.length q + 1)))%nat by lia.
        simpl. by rewrite <- app_assoc.
Qed.

(** Claim C1, amended.  On a running broker with an empty queue of capacity
    [K > 0] and no worker taking messages out, of [N > K] calls of [publish]
    the first [K] return true and the other [N - K] return false, whatever
    the priorities; the queue then holds the first [K] messages; and
    [published_messages] has grown by [N] (modulo [2^64]): it counts the
    rejected calls as well. *)
Theorem bounded_queue_accepts_first_K (calls : list (string * Message Payload)) w :
  running_ (broker w) = true ->
  0 < max_queue_size (config_ (broker w)) ->
  message_queue_ (broker w) = [] ->
  max_queue_size (config_ (broker w)) < Z.of_nat (List.length calls) ->
  let K := Z.to_nat (max_queue_size (config_ (broker w))) in
  let w' := (publish_all calls w).2 in
  (publish_all calls w).1 =
    replicate K true ++ replicate (List.length calls - K) false /\
  message_queue_ (broker w') = take K calls.*2 /\
  published_messages_ (broker w') =
    (published_messages_ (broker w) + Z.of_nat (List.length calls)) mod SIZE_MODULUS.
Proof.
  intros Hr HK Hq HN K w'.
  destruct (publish_all_spec calls w Hr HK) as (Hrs & Hq' & Hpub).
  rewrite Hq in Hrs, Hq'. simpl in Hrs, Hq'. rewrite Nat.sub_0_r in Hrs, Hq'.
  fold K in Hrs, Hq'. fold w' in Hq', Hpub.
  rewrite Hrs, Hq', Hpub. rewrite Nat.min_l by lia.
  split; [done|split; [done|]]. apply iter_incr. lia.
Qed.

End BrokerFacts.

(** ** Deliveries in sequence *)
Section DeliveryFacts.
Context {Payload U : Type}.
Implicit Types (w : World Payload U) (message : Message Payload) (sub l : loc).
Implicit Types (a : Action Payload U) (evs : list (Event Payload)).

Local Abbreviation deliver := (Subscription.deliver (@Broker.perform Payload U)) (only parsing).

Lemma deliver_closed sub message w :
  Subscription.matches sub (topic message) w = true -> closed sub w ->
  deliver sub message w = (Rejected, log (EvDeliver sub message Rejected) w).
Proof.
  intros Hm Hc. unfold Subscription.deliver. rewrite Hm.
  destruct (Subscription.is_active sub w) eqn:Ha; cbn [negb]; [|done].
  destruct Hc as [Hc|Hc]; [congruence|]. unfold capped in Hc. by rewrite Hc.
Qed.

Lemma deliver_all_closed (messages : list (Message Payload)) sub w :
  Forall (fun message => Subscription.matches sub (topic message) w = true) messages ->
  closed sub w ->
  (deliver_all sub messages w).1 = replicate (List.length messages) Rejected /\
  subs (deliver_all sub messages w).2 = subs w.
Proof.
  revert w. induction messages as [|message messages IH]; intros w Hm Hc; simpl; [done|].
  apply Forall_cons in Hm as [Hm1 Hm2].
  rewrite (deliver_closed sub message w Hm1 Hc).
  specialize (IH (log (EvDeliver sub message Rejected) w) Hm2 Hc).
  destruct (deliver_all sub messages _) as [rs w2]. simpl in *.
  destruct IH as [-> ->]. done.
Qed.

(** With a limit of [n] messages, a run of matching deliveries is a run of
    entered callbacks followed by rejections only. *)
Lemma deliver_all_shape (messages : list (Message Payload)) sub w n :
  allocated sub w ->
  max_messages (options_ (subs w sub)) = n -> 0 < n < SIZE_MODULUS ->
  0 <= Subscription.message_count sub w <= n ->
  Forall (fun message => Subscription.matches sub (topic message) w = true) messages ->
  let rs := (deliver_all sub messages w).1 in
  let w' := (deliver_all sub messages w).2 in
  exists rs1,
    rs = rs1 ++ replicate (List.length messages - List.length rs1) Rejected /\
    (List.length rs1 <= List.length messages)%nat /\
    Forall (fun r => r = Success \/ r = Error) rs1 /\
    Subscription.message_count sub w' =
      Subscription.message_count sub w + Z.of_nat (List.length rs1) /\
    Subscription.message_count sub w' <= n /\
    ((List.length rs1 < List.length messages)%nat ->
     Subscription.message_count sub w' < n -> Subscription.is_active sub w' = false).
Proof.
  revert w. induction messages as [|message messages IH]; intros w Hsub Hmax Hn Hc Hm; simpl.
  - exists []. simpl. split_and!; try done; lia.
  - apply Forall_cons in Hm as [Hm1 Hm2].
    destruct (deliver_cases sub message w) as [[Hw Hr]|(Ha & _ & Hcap & Hr & Hw)].
    + assert (Hclosed : closed sub w).
      { destruct Hr as [[_ ?]|[(_ & _ & ?)|(_ & _ & _ & ?)]]; [by left|congruence|by right]. }
      rewrite (deliver_closed sub message w Hm1 Hclosed).
      destruct (deliver_all_closed messages sub (log (EvDeliver sub message Rejected) w))
        as [Hrs Hsubs]; [exact Hm2|exact Hclosed|].
      destruct (deliver_all sub messages _) as [rs w2]. simpl in *.
      exists []. simpl. rewrite Hrs. unfold Subscription.message_count, Subscription.is_active in *.
      rewrite Hsubs. split_and!; try done; try lia.
      intros _ Hlt. destruct Hclosed as [Hc1|Hc2]; [done|].
      unfold capped, Subscription.message_count in Hc2.
      apply andb_true_iff in Hc2 as [_ Hle%Z.leb_le]. exfalso. lia.
    + set (r := (deliver sub message w).1) in *.
      set (w1 := (deliver sub message w).2) in *.
      assert (Hd : deliver sub message w = (r, w1)) by (by destruct (deliver sub message w)).
      rewrite Hd.
      assert (Hlt : Subscription.message_count sub w < max_messages (options_ (subs w sub))).
      { unfold capped in Hcap. apply andb_false_iff in Hcap as [H%Z.ltb_ge|H%Z.leb_gt]; lia. }
      pose proof (after_callback_frame sub message w) as [[Hnl Hf] _].
      destruct (Hf sub Hsub) as (_ & Hfil & _ & Hopt & _).
      assert (Hcount : Subscription.message_count sub w1 = Subscription.message_count sub w + 1).
      { unfold Subscription.message_count. rewrite Hw, subs_log, after_callback_count by done.
        unfold incr. rewrite Z.mod_small; [done|]. unfold Subscription.message_count in *. lia. }
      assert (Hsub1 : allocated sub w1).
      { rewrite Hw. unfold allocated in *. cbn [next_loc log]. lia. }
      assert (Hmax1 : max_messages (options_ (subs w1 sub)) = max_messages (options_ (subs w sub))).
      { by rewrite Hw, subs_log, Hopt. }
      assert (Hm1' : Forall (fun message => Subscription.matches sub (topic message) w1 = true) messages).
      { eapply Forall_impl; [exact Hm2|]. intros m' Hm'. unfold Subscription.matches in *.
        by rewrite Hw, subs_log, Hfil. }
      destruct (IH w1 Hsub1) as (rs1 & Hrs & Hlen & Hall & Hcnt & Hle & Hact);
        [lia|lia|lia|done|].
      destruct (deliver_all sub messages w1) as [rs w2]. simpl in *.
      exists (r :: rs1). simpl. rewrite Hrs. split_and!; try done; try lia.
      * constructor; [|done]. rewrite Hr. destruct (callback_throws sub message w); auto.
      * intros Hl Hc2. apply Hact; lia.
Qed.

(** Claim C4.  On an active subscription [deliver] returns [Filtered],
    without entering the callback, when the topic of the message does not
    match the filter; when it matches, [max_messages > 0] and
    [message_count >= max_messages], it returns [Rejected], again without
    entering the callback: in both cases nothing changes but the record of
    the call.  With [max_messages = 3] and a count of zero, of four matching
    messages delivered one after the other the fourth is [Rejected];
    [message_count] never exceeds 3, and it is 3 at the end unless the
    subscription was cancelled on the way. *)
Theorem deliver_filters_and_caps :
  (forall sub message w,
     Subscription.is_active sub w = true ->
     Subscription.matches sub (topic message) w = false ->
     deliver sub message w = (Filtered, log (EvDeliver sub message Filtered) w) /\
     called (trace (deliver sub message w).2) = called (trace w)) /\
  (forall sub message w,
     Subscription.is_active sub w = true ->
     Subscription.matches sub (topic message) w = true ->
     0 < max_messages (options_ (subs w sub)) ->
     max_messages (options_ (subs w sub)) <= Subscription.message_count sub w ->
     deliver sub message w = (Rejected, log (EvDeliver sub message Rejected) w) /\
     called (trace (deliver sub message w).2) = called (trace w)) /\
  (forall sub m1 m2 m3 m4 w,
     allocated sub w ->
     max_messages (options_ (subs w sub)) = 3 ->
     Subscription.message_count sub w = 0 ->
     Forall (fun message => Subscription.matches sub (topic message) w = true) [m1; m2; m3; m4] ->
     let rs := (deliver_all sub [m1; m2; m3; m4] w).1 in
     let w' := (deliver_all sub [m1; m2; m3; m4] w).2 in
     rs !! 3%nat = Some Rejected /\
     0 <= Subscription.message_count sub w' <= 3 /\
     (Subscription.is_active sub w' = true -> Subscription.message_count sub w' = 3)).
Proof.
  split; [|split].
  - intros sub message w Ha Hm.
    assert (Hd : deliver sub message w = (Filtered, log (EvDeliver sub message Filtered) w)).
    { unfold Subscription.deliver. by rewrite Ha, Hm. }
    rewrite Hd. split; [done|]. simpl. unfold called. by rewrite omap_app, app_nil_r.
  - intros sub message w Ha Hm Hpos Hle.
    assert (Hd : deliver sub message w = (Rejected, log (EvDeliver sub message Rejected) w)).
    { apply deliver_closed; [done|]. right. unfold capped.
      apply andb_true_iff. split; [by apply Z.ltb_lt|by apply Z.leb_le]. }
    rewrite Hd. split; [done|]. simpl. unfold called. by rewrite omap_app, app_nil_r.
  - intros sub m1 m2 m3 m4 w Hsub Hmax Hcount Hm rs w'.
    destruct (deliver_all_shape [m1; m2; m3; m4] sub w 3 Hsub Hmax) as
      (rs1 & Hrs & Hlen & Hall & Hcnt & Hle & Hact); [done|lia|done|].
    fold rs w' in Hrs, Hcnt, Hle, Hact. simpl in Hlen, Hrs, Hact.
    rewrite Hcount in Hcnt.
    assert (Hl3 : (List.length rs1 <= 3)%nat) by lia.
    split; [|split; [lia|]].
    + rewrite Hrs, lookup_app_r by lia. apply lookup_replicate. split; [done|lia].
    + intros Hact'. destruct (decide (List.length rs1 = 3%nat)) as [Heq|Hne]; [lia|].
      rewrite Hact in Hact'; [done|lia|lia].
Qed.

(** ** One message through [process_message] *)

Lemma delivered_to_app evs1 evs2 :
  delivered_to (evs1 ++ evs2) = delivered_to evs1 ++ delivered_to evs2.
Proof. apply omap_app. Qed.

Lemma successes_app evs1 evs2 : successes (evs1 ++ evs2) = (successes evs1 + successes evs2)%nat.
Proof. unfold successes. by rewrite List.filter_app, length_app. Qed.

(** What one turn of the second loop adds to the observations. *)
Lemma deliver_one_events message w sub :
  let w' := Broker.deliver_one message w sub in
  exists r evs,
    trace w' = trace w ++ evs /\
    (evs = [EvDeliver sub message r] \/
     evs = [EvCallback sub message; EvDeliver sub message r]) /\
    delivered_messages_ (broker w') =
      Nat.iter (successes evs) incr (delivered_messages_ (broker w)).
Proof.
  unfold Broker.deliver_one.
  destruct (deliver_cases sub message w) as [[Hw Hr]|(_ & _ & _ & Hr & Hw)];
    destruct (deliver sub message w) as [r w1]; simpl in Hw, Hr; subst w1.
  - exists r, [EvDeliver sub message r]. 
    assert (Hne : r <> Success) by (destruct Hr as [[-> _]|[[-> _]|[-> _]]]; done).
    rewrite decide_False by done. split; [done|split; [by left|]].
    unfold successes. simpl. by destruct r.
  - exists r, [EvCallback sub message; EvDeliver sub message r].
    destruct (after_callback_observations sub message w) as [Ht Hdl].
    case_decide as Hs;
      cbn [trace log with_broker broker delivered_messages_ set_delivered];
      rewrite Ht, <- ?app_assoc; (split; [done|split; [by right|]]).
    + rewrite Hs, Hdl. done.
    + rewrite Hdl. by destruct r.
Qed.

Lemma deliver_ones_events message (targets : list loc) w :
  let w' := foldl (Broker.deliver_one message) w targets in
  exists evs,
    trace w' = trace w ++ evs /\
    delivered_to evs = (fun sub => (sub, message)) <$> targets /\
    delivered_messages_ (broker w') =
      Nat.iter (successes evs) incr (delivered_messages_ (broker w)).
Proof.
  revert w. induction targets as [|sub targets IH]; intros w; simpl.
  - exists []. by rewrite app_nil_r.
  - destruct (deliver_one_events message w sub) as (r & evs1 & Ht1 & Hevs1 & Hd1).
    destruct (IH (Broker.deliver_one message w sub)) as (evs2 & Ht2 & Hto2 & Hd2).
    exists (evs1 ++ evs2). rewrite Ht2, Ht1, Hd2, Hd1, app_assoc, delivered_to_app, Hto2.
    split; [done|split].
    + by destruct Hevs1 as [->| ->].
    + rewrite successes_app, Nat.add_comm. by rewrite Nat.iter_add.
Qed.



(** ** Isolation of the callbacks *)








End DeliveryFacts.

(** ** The wildcard [#] and the characters left without a backslash *)

Lemma hash_after_literal (pre t : string) :
  literal pre = true ->
  exists b, pattern_matches (pre +:+ "#") t = Ok b /\
    (b = true <->
     exists rest : string,
       t = pre +:+ rest /\
       TopicFilterFactory.contains Regex.LF rest = false /\
       TopicFilterFactory.contains Regex.CR rest = false).
Proof.
  intros Hpre. unfold literal in Hpre.
  destruct (pattern_matches_wild (pre +:+ "#") t) as (b & Hb & Hiff).
  { unfold TopicFilterFactory.has_wildcards. rewrite !contains_app. simpl.
    by rewrite !orb_true_r. }
  { rewrite list_ascii_app, forallb_app. simpl. by rewrite literal_wild. }
  exists b. split; [done|]. rewrite Hiff, list_ascii_app. simpl.
  rewrite wild_lang_literal_app by done. split.
  - intros (t' & Ht & H). apply wild_lang_hash in H.
    exists (string_of_list_ascii t'). split; [|split].
    + apply list_ascii_inj. by rewrite Ht, list_ascii_app, list_ascii_of_string_of_list_ascii.
    + apply contains_spec. rewrite list_ascii_of_string_of_list_ascii.
      eapply Forall_impl; [exact H|]. by intros ch [? ?].
    + apply contains_spec. rewrite list_ascii_of_string_of_list_ascii.
      eapply Forall_impl; [exact H|]. by intros ch [? ?].
  - intros (rest & -> & Hlf & Hcr). exists (list_ascii_of_string rest).
    split; [by rewrite list_ascii_app|]. apply wild_lang_hash.
    apply contains_spec in Hlf, Hcr. apply Forall_and. done.
Qed.

(** Claim C8 fails on the code: [#] reaches [std::regex] as [.*], and the
    dot of the ECMAScript grammar matches neither a line feed nor a carriage
    return.  So the pattern [#] alone, which is to match every topic, misses
    exactly the topics that hold one of these two characters, the
    one-character topic made of a line feed among them, and [a/#] misses
    [a/] followed by a line feed.  The topics [a/b] and [a/b/c] match [a/#]
    and [b/a] does not, as the claim says.  The bare prefix [a] does not
    match [a/#]: the expression is [a/.*], matched against the whole topic,
    and [a] lacks the slash; [a/] matches. *)
Theorem hash_stops_at_line_feed :
  wildcardToRegex "#" = ".*" /\
  wildcardToRegex "a/#" = "a/.*" /\
  pattern_matches "#" (String Regex.LF "") = Ok false /\
  pattern_matches "#" (String Regex.CR "") = Ok false /\
  pattern_matches "#" (String "a" (String Regex.LF "b")) = Ok false /\
  pattern_matches "a/#" (String "a" (String "/" (String Regex.LF ""))) = Ok false /\
  pattern_matches "#" "" = Ok true /\
  pattern_matches "#" "a/b" = Ok true /\
  pattern_matches "a/#" "a/b" = Ok true /\
  pattern_matches "a/#" "a/b/c" = Ok true /\
  pattern_matches "a/#" "b/a" = Ok false /\
  pattern_matches "a/#" "a" = Ok false /\
  pattern_matches "a/#" "a/" = Ok true /\
  (forall t : string,
     pattern_matches "#" t =
       Ok (negb (TopicFilterFactory.contains Regex.LF t ||
                 TopicFilterFactory.contains Regex.CR t))).
Proof.
  do 13 (split; [vm_compute; reflexivity|]).
  intros t. destruct (hash_after_literal "" t eq_refl) as (b & Hb & Hiff).
  change ("" +:+ "#") with "#" in Hb. rewrite Hb. f_equal.
  destruct (TopicFilterFactory.contains Regex.LF t) eqn:Hlf;
    destruct (TopicFilterFactory.contains Regex.CR t) eqn:Hcr; simpl;
    destruct b; try done.
  - destruct (proj1 Hiff eq_refl) as (rest & Ht & ? & ?). change (t = rest) in Ht. congruence.
  - destruct (proj1 Hiff eq_refl) as (rest & Ht & ? & ?). change (t = rest) in Ht. congruence.
  - destruct (proj1 Hiff eq_refl) as (rest & Ht & ? & ?). change (t = rest) in Ht. congruence.
  - apply Hiff. exists t. done.
Qed.

(** Claim C9 fails on the code: [?], [{] and [|] reach [std::regex] without
    a backslash.  For the pattern [a?b/+] the expression is [a?b/[^/]+], in
    which [a] is optional: the topic [a?b/x] does not match, [b/x] and
    [ab/x] do.  Likewise the pattern [a|b/+] matches the topic [a], and
    [a{2}/+] matches [aa/x] and not [a{2}/x]. *)
Theorem question_mark_is_not_escaped :
  wildcardToRegex "a?b/+" = "a?b/[^/]+" /\
  pattern_matches "a?b/+" "a?b/x" = Ok false /\
  pattern_matches "a?b/+" "b/x" = Ok true /\
  pattern_matches "a?b/+" "ab/x" = Ok true /\
  pattern_matches "a|b/+" "a" = Ok true /\
  pattern_matches "a{2}/+" "aa/x" = Ok true /\
  pattern_matches "a{2}/+" "a{2}/x" = Ok false.
Proof. split_and!; vm_compute; reflexivity. Qed.

(** ** Instances *)

Lemma plus_matches_one_segment_witness :
  literal "a/" = true /\ literal "/c" = true /\
  exists b, pattern_matches ("a/" +:+ "+" +:+ "/c") "a/b/c" = Ok b /\
    (b = true <->
     exists seg : string, seg <> "" /\ TopicFilterFactory.contains "/" seg = false /\
                          "a/b/c" = "a/" +:+ seg +:+ "/c").
Proof.
  split; [reflexivity|]. split; [reflexivity|].
  exact (proj1 plus_matches_one_segment "a/" "/c" "a/b/c" eq_refl eq_refl).
Defined.

(** Two calls on a queue of capacity one: the second is rejected and the
    counter stands at two, not one. *)
Lemma published_counts_rejected_calls :
  let calls := [("t", Sample.message "t" Low); ("t", Sample.message "t" Critical)] in
  let w := Sample.running 1 in
  running_ (broker w) = true /\
  max_queue_size (config_ (broker w)) = 1 /\
  published_messages_ (broker w) = 0 /\
  (publish_all calls w).1 = [true; false] /\
  published_messages_ (broker (publish_all calls w).2) = 2.
Proof. split_and!; evaluate. Qed.

Lemma bounded_queue_accepts_first_K_witness :
  let calls := [("t", Sample.message "t" Low); ("t", Sample.message "t" Critical)] in
  let w := Sample.running 1 in
  running_ (broker w) = true /\
  0 < max_queue_size (config_ (broker w)) /\
  message_queue_ (broker w) = [] /\
  max_queue_size (config_ (broker w)) < Z.of_nat (List.length calls) /\
  (publish_all calls w).1 = [true; false] /\
  message_queue_ (broker (publish_all calls w).2) = [Sample.message "t" Low] /\
  published_messages_ (broker (publish_all calls w).2) = 2.
Proof.
  intros calls w.
  assert (H1 : running_ (broker w) = true) by evaluate.
  assert (H2 : 0 < max_queue_size (config_ (broker w))) by evaluate.
  assert (H3 : message_queue_ (broker w) = []) by evaluate.
  assert (H4 : max_queue_size (config_ (broker w)) < Z.of_nat (List.length calls)) by evaluate.
  split_and!; try assumption;
    destruct (bounded_queue_accepts_first_K calls w H1 H2 H3 H4) as (Hr & Hq & Hp).
  - exact Hr.
  - exact Hq.
  - exact Hp.
Defined.


(** With a callback that throws, [deliver] returns [Error] and the message
    is counted. *)
Lemma error_is_counted :
  let message := Sample.message "a/b" Normal in
  let w := Sample.one_faulty in
  (Subscription.deliver Broker.perform 0%nat message w).1 = Error /\
  Subscription.message_count 0%nat w = 0 /\
  Subscription.message_count 0%nat (Subscription.deliver Broker.perform 0%nat message w).2 = 1.
Proof. split_and!; evaluate. Qed.

Lemma deliver_counts_entered_callbacks_witness :
  let message := Sample.message "a/b" Normal in
  let w := Sample.one_faulty in
  let r := (Subscription.deliver Broker.perform 0%nat message w).1 in
  let w' := (Subscription.deliver Broker.perform 0%nat message w).2 in
  allocated 0%nat w /\
  (r = Success \/ r = Error ->
     Subscription.message_count 0%nat w' = incr (Subscription.message_count 0%nat w)) /\
  (r = Rejected \/ r = Filtered ->
     Subscription.message_count 0%nat w' = Subscription.message_count 0%nat w) /\
  (0 <= Subscription.message_count 0%nat w < SIZE_MODULUS - 1 ->
     Subscription.message_count 0%nat w <= Subscription.message_count 0%nat w').
Proof.
  intros message w r w'.
  assert (H : allocated 0%nat w) by (unfold allocated; vm_compute; lia).
  split; [exact H|]. exact (deliver_counts_entered_callbacks 0%nat message w H).
Defined.

Lemma cancel_is_final_witness :
  let message := Sample.message "a/b" Normal in
  let w := Sample.limited in
  let ops := [OPublish "a/b" message; OWorker; OSubscribe "a/#" Sample.quiet default_options;
              OShutdown; OInitialize (Sample.config 2) 1; ODeliver 0%nat message] in
  let w1 := run ops (Subscription.cancel 0%nat w) in
  allocated 0%nat w /\
  Subscription.is_active 0%nat w = true /\
  Subscription.is_active 0%nat w1 = false /\
  Subscription.deliver Broker.perform 0%nat message w1 =
    (Rejected, log (EvDeliver 0%nat message Rejected) w1).
Proof.
  intros message w ops w1.
  assert (H : allocated 0%nat w) by (unfold allocated; vm_compute; lia).
  split; [exact H|]. split; [evaluate|].
  destruct (cancel_is_final 0%nat ops message w H) as (Ha & Hd & _).
  split; [exact Ha|exact Hd].
Defined.


Lemma deliver_filters_and_caps_witness :
  let message := Sample.message "a/b" Normal in
  let other := Sample.message "x" Normal in
  let w := Sample.limited in
  let full := (deliver_all 0%nat [message; message; message] w).2 in
  (Subscription.is_active 0%nat w = true /\
   Subscription.matches 0%nat (topic other) w = false /\
   Subscription.deliver Broker.perform 0%nat other w =
     (Filtered, log (EvDeliver 0%nat other Filtered) w)) /\
  (Subscription.is_active 0%nat full = true /\
   Subscription.matches 0%nat (topic message) full = true /\
   0 < max_messages (options_ (subs full 0%nat)) /\
   max_messages (options_ (subs full 0%nat)) <= Subscription.message_count 0%nat full /\
   Subscription.deliver Broker.perform 0%nat message full =
     (Rejected, log (EvDeliver 0%nat message Rejected) full)) /\
  (allocated 0%nat w /\
   max_messages (options_ (subs w 0%nat)) = 3 /\
   Subscription.message_count 0%nat w = 0 /\
   Forall (fun m => Subscription.matches 0%nat (topic m) w = true)
          [message; message; message; message] /\
   (deliver_all 0%nat [message; message; message; message] w).1 !! 3%nat = Some Rejected /\
   Subscription.message_count 0%nat
     (deliver_all 0%nat [message; message; message; message] w).2 = 3).
Proof.
  intros message other w full.
  destruct (@deliver_filters_and_caps unit unit) as (Hfilter & Hcap & Hseq).
  split_and!.
  - evaluate.
  - evaluate.
  - apply (Hfilter 0%nat other w); evaluate.
  - evaluate.
  - evaluate.
  - evaluate.
  - evaluate.
  - apply (Hcap 0%nat message full); evaluate.
  - unfold allocated. vm_compute. lia.
  - evaluate.
  - evaluate.
  - repeat constructor.
  - apply (Hseq 0%nat message message message message w);
      [unfold allocated; vm_compute; lia|evaluate|evaluate|repeat constructor].
  - apply (Hseq 0%nat message message message message w);
      [unfold allocated; vm_compute; lia|evaluate|evaluate|repeat constructor|evaluate].
Defined.

(** * Further properties *)

(** ** Patterns *)

(** X1.  A pattern without [+] and [#] never fails to build a filter, and
    the filter matches a topic exactly when the topic is the pattern,
    character for character: no character of such a pattern is special. *)
Theorem exact_pattern_matches_equal_topic (pattern topic : string) :
  TopicFilterFactory.has_wildcards pattern = false ->
  exists b, pattern_matches pattern topic = Ok b /\ (b = true <-> pattern = topic).
Proof.
  intros Hw. rewrite (pattern_matches_exact pattern topic Hw).
  eexists. split; [reflexivity|]. apply String.eqb_eq.
Qed.

Lemma exact_pattern_matches_equal_topic_witness :
  TopicFilterFactory.has_wildcards "a.b/c" = false /\
  exists b, pattern_matches "a.b/c" "axb/c" = Ok b /\ (b = true <-> "a.b/c" = "axb/c").
Proof.
  split; [reflexivity|].
  exact (exact_pattern_matches_equal_topic "a.b/c" "axb/c" eq_refl).
Defined.

(** X2.  A pattern that has a wildcard and none of [?], [{], [|] builds a
    filter, and the filter matches exactly the topics obtained by reading
    the pattern from left to right with [+] as a non-empty run without
    slash, [#] as any run without line feed and carriage return, and every
    other character, the escaped metacharacters included, as itself; the
    whole topic has to be read. *)
Theorem wildcard_pattern_reading (pattern topic : string) :
  TopicFilterFactory.has_wildcards pattern = true ->
  forallb wild_char (list_ascii_of_string pattern) = true ->
  exists b, pattern_matches pattern topic = Ok b /\
    (b = true <-> wild_lang (list_ascii_of_string pattern) (list_ascii_of_string topic)).
Proof. apply pattern_matches_wild. Qed.

Lemma wildcard_pattern_reading_witness :
  TopicFilterFactory.has_wildcards "a.b/+/#" = true /\
  forallb wild_char (list_ascii_of_string "a.b/+/#") = true /\
  exists b, pattern_matches "a.b/+/#" "a.b/x/y/z" = Ok b /\
    (b = true <-> wild_lang (list_ascii_of_string "a.b/+/#")
                            (list_ascii_of_string "a.b/x/y/z")).
Proof.
  split; [reflexivity|]. split; [reflexivity|].
  exact (wildcard_pattern_reading "a.b/+/#" "a.b/x/y/z" eq_refl eq_refl).
Defined.

Lemma compile_leading_quantifier (c : ascii) (rest : string) :
  c = "?"%char \/ c = "{"%char ->
  Regex.compile (wildcardToRegex (String c rest)) = Throws.
Proof.
  intros Hc. unfold Regex.compile.
  assert (Hscan : exists t st,
            Regex._M_atom t = None /\ t <> Regex.token_or /\
            Regex.scan Regex.state_normal (list_ascii_of_string (wildcardToRegex (String c rest))) =
            Regex.cons_token t (Regex.scan st (list_ascii_of_string (wildcardToRegex rest)))).
  { destruct Hc as [-> | ->].
    - exists Regex.token_opt, Regex.state_normal. split; [done|]. split; [done|].
      cbn [wildcardToRegex Ascii.eqb Bool.eqb orb andb]. by rewrite list_ascii_app.
    - exists Regex.token_interval_begin, Regex.state_in_brace. split; [done|]. split; [done|].
      cbn [wildcardToRegex Ascii.eqb Bool.eqb orb andb]. by rewrite list_ascii_app. }
  destruct Hscan as (t & st & Hatom & Hor & ->).
  pose proof (scan_covers rest st) as Hcov.
  destruct (Regex.scan st _) as [ts| |]; [|done..]. simpl.
  pose proof (disjunction_covers ts) as Hd.
  destruct (Regex._M_disjunction ts) as [p| |]; [|done..]. simpl.
  destruct t; try done.
Qed.

(** X3.  A pattern with a wildcard that begins with [?] or [{] builds no
    filter: the constructor of the regular expression throws, and so does
    [Broker::subscribe], which then leaves everything as it was. *)
Theorem leading_quantifier_pattern_throws {Payload U : Type} (c : ascii) (rest : string)
    (callback : MessageCallback Payload U) (options : SubscriptionOptions)
    (w : World Payload U) :
  c = "?"%char \/ c = "{"%char ->
  TopicFilterFactory.has_wildcards (String c rest) = true ->
  TopicFilterFactory.create (String c rest) = Throws /\
  Broker.subscribe (String c rest) callback options w = Throws /\
  step w (OSubscribe (String c rest) callback options) = w.
Proof.
  intros Hc Hw.
  assert (Hcreate : TopicFilterFactory.create (String c rest) = Throws).
  { unfold TopicFilterFactory.create, WildcardTopicFilter.new.
    by rewrite Hw, compile_leading_quantifier. }
  assert (Hsub : Broker.subscribe (String c rest) callback options w = Throws).
  { unfold Broker.subscribe, Subscription.create. rewrite Hcreate.
    by destruct (negb _). }
  split; [done|]. split; [done|]. unfold step. by rewrite Hsub.
Qed.

Lemma leading_quantifier_pattern_throws_witness :
  ("?"%char = "?"%char \/ "?"%char = "{"%char) /\
  TopicFilterFactory.has_wildcards "?/+" = true /\
  TopicFilterFactory.create "?/+" = Throws /\
  Broker.subscribe "?/+" Sample.quiet default_options (Sample.running 2) = Throws.
Proof.
  split; [by left|]. split; [reflexivity|].
  destruct (leading_quantifier_pattern_throws "?"%char "/+" Sample.quiet default_options
              (Sample.running 2) (or_introl eq_refl) eq_refl) as (H1 & H2 & _).
  split; [exact H1|exact H2].
Defined.

(** ** Messages *)

(** X4.  Headers: after [set_header(k, v)], [get_header(k, d)] is [v]
    whatever was stored before and whatever [d]; the other keys read as
    before; a key that was never set reads as the default. *)
Theorem header_set_then_get {Payload : Type} (m : Message Payload) (k k' v d : string) :
  Message.get_header k d (Message.set_header k v m) = v /\
  (k' <> k -> Message.get_header k' d (Message.set_header k v m) = Message.get_header k' d m) /\
  (headers m !! k = None -> Message.get_header k d m = d) /\
  topic (Message.set_header k v m) = topic m /\
  message_id (Message.set_header k v m) = message_id m.
Proof.
  unfold Message.get_header, Message.set_header. simpl. split_and!; try done.
  - by rewrite lookup_insert_eq.
  - intros Hne. by rewrite lookup_insert_ne.
  - by intros ->.
Qed.

Lemma header_set_then_get_witness :
  let m := Sample.message "a" Normal in
  "x" <> "y" /\ headers m !! "y" = None /\
  Message.get_header "y" "d" (Message.set_header "y" "1" m) = "1" /\
  Message.get_header "x" "d" (Message.set_header "y" "1" m) = Message.get_header "x" "d" m /\
  Message.get_header "y" "d" m = "d".
Proof.
  intros m.
  assert (H1 : "x" <> "y") by discriminate.
  assert (H2 : headers m !! "y" = None) by reflexivity.
  destruct (header_set_then_get m "y" "x" "1" "d") as (G1 & G2 & G3 & _).
  split_and!; [exact H1|exact H2|exact G1|exact (G2 H1)|exact (G3 H2)].
Defined.

(** X5.  Serializing a message and deserializing the bytes gives back the
    payload whenever the serializer itself gives back what it serialized,
    and nothing else of the message: the new message is for the topic
    [deserialized], has priority [Normal], no header, and the id and time
    of its own creation. *)
Theorem deserialize_keeps_payload_only {Payload : Type}
    (serializer : Message.MessageSerializer Payload) (m : Message Payload)
    (data : list Byte.byte) (generated_id : string) (now : Z) (empty : Payload) :
  (forall p bytes, Message.serializer_serialize serializer p = Ok bytes ->
                   Message.serializer_deserialize serializer bytes = Ok p) ->
  Message.serialize serializer m = Ok data ->
  exists m', Message.deserialize data serializer generated_id now empty = Ok m' /\
    payload m' = payload m /\ topic m' = "deserialized" /\ priority m' = Normal /\
    headers m' = ∅ /\ message_id m' = generated_id /\ timestamp m' = now.
Proof.
  intros Hround Hs. unfold Message.deserialize, Message.serialize in *.
  rewrite (Hround _ _ Hs). simpl. eauto 10.
Qed.

Section BrokerOperations.
Context {Payload U : Type}.
Local Abbreviation World := (World Payload U) (only parsing).
Local Abbreviation Message := (Message Payload) (only parsing).
Local Abbreviation deliver := (Subscription.deliver (@Broker.perform Payload U)) (only parsing).

(** X6.  [publish] answers true exactly when the broker is running and the
    queue is unbounded or below its capacity; only then is the message put
    at the back of the queue.  The published counter moves on every call
    made while the broker is running, and a call on a stopped broker
    changes nothing.  No call touches a subscription, the registry or the
    delivered counter, and none runs a callback. *)
Theorem publish_result_reading topic_str (message : Message) (w : World) :
  let r := (Broker.publish topic_str message w).1 in
  let w' := (Broker.publish topic_str message w).2 in
  let K := max_queue_size (config_ (broker w)) in
  let q := message_queue_ (broker w) in
  (r = true <-> running_ (broker w) = true /\ ~ (0 < K <= Z.of_nat (List.length q))) /\
  message_queue_ (broker w') = (if r then q ++ [message] else q) /\
  published_messages_ (broker w') =
    (if running_ (broker w) then incr (published_messages_ (broker w))
     else published_messages_ (broker w)) /\
  (running_ (broker w) = false -> w' = w) /\
  subs w' = subs w /\ subscriptions_ (broker w') = subscriptions_ (broker w) /\
  delivered_messages_ (broker w') = delivered_messages_ (broker w) /\
  trace w' = trace w.
Proof.
  intros r w' K q. subst r w'.
  destruct (running_ (broker w)) eqn:Hrun.
  - rewrite (publish_running topic_str message w Hrun). fold K q. cbn [fst snd].
    destruct ((0 <? K) && (K <=? Z.of_nat (List.length q))) eqn:Hfull; cbn [negb];
      split_and!; try done.
    + split; [done|]. intros [_ Hn]. exfalso. apply Hn.
      apply andb_true_iff in Hfull as [H1 H2]. lia.
    + split; [|done]. intros _. split; [done|]. intros [H1 H2].
      apply andb_false_iff in Hfull as [H | H]; lia.
  - unfold Broker.publish. rewrite Hrun. cbn [negb fst snd].
    split_and!; try done. split; [done|]. by intros [? _].
Qed.



(** X8.  [Broker::initialize] refuses a broker that is running and leaves it
    as it is.  On a stopped broker it answers true, sets the broker running
    and stores the configuration it is given, every field as passed but
    [thread_count] when that is zero: then the stored count is the
    hardware's answer, or 1 when that is zero too.  It starts as many
    workers as the stored count, so at least one when the request and the
    hardware answer are not negative.  It keeps the queue, the counters,
    the registry and the topic map, so messages left in the queue by an
    earlier run are still there. *)
Theorem initialize_reading (config : BrokerConfig) (hardware_concurrency : Z) (w : World) :
  let r := (Broker.initialize config hardware_concurrency w).1 in
  let w' := (Broker.initialize config hardware_concurrency w).2 in
  let stored := thread_count (config_ (broker w')) in
  (running_ (broker w) = true -> r = false /\ w' = w) /\
  (running_ (broker w) = false ->
     r = true /\ running_ (broker w') = true /\
     (thread_count config <> 0 -> stored = thread_count config) /\
     (thread_count config = 0 -> hardware_concurrency <> 0 -> stored = hardware_concurrency) /\
     (thread_count config = 0 -> hardware_concurrency = 0 -> stored = 1) /\
     max_queue_size (config_ (broker w')) = max_queue_size config /\
     retain_messages (config_ (broker w')) = retain_messages config /\
     max_retained_messages (config_ (broker w')) = max_retained_messages config /\
     strict_topic_matching (config_ (broker w')) = strict_topic_matching config /\
     workers_ (broker w') = workers_ (broker w) + stored /\
     (0 < thread_count config -> stored = thread_count config) /\
     (0 <= thread_count config -> 0 <= hardware_concurrency -> 1 <= stored) /\
     message_queue_ (broker w') = message_queue_ (broker w) /\
     subscriptions_ (broker w') = subscriptions_ (broker w) /\
     topics_ (broker w') = topics_ (broker w) /\
     published_messages_ (broker w') = published_messages_ (broker w) /\
     delivered_messages_ (broker w') = delivered_messages_ (broker w) /\
     subs w' = subs w /\ trace w' = trace w /\ user w' = user w).
Proof.
  intros r w' stored. subst r w' stored. unfold Broker.initialize.
  destruct (running_ (broker w)) eqn:Hrun; split; try done.
  intros _. cbn. split_and!; try done.
  - intros Hne. by destruct (Z.eqb_spec (thread_count config) 0).
  - intros -> Hne. cbn. by destruct (Z.eqb_spec hardware_concurrency 0).
  - by intros -> ->.
  - intros Hpos. destruct (Z.eqb_spec (thread_count config) 0); [lia|done].
  - intros H1 H2. destruct (Z.eqb_spec (thread_count config) 0); [|lia].
    destruct (Z.eqb_spec hardware_concurrency 0); lia.
Qed.


(** X10.  [Broker::shutdown] of a running broker stops it, forgets every
    worker and empties the registry, but cancels no subscription: the
    objects keep their active flag and their count, the counters keep
    their values.  A handle kept by the application can then no more be
    unsubscribed: [unsubscribe] answers false and leaves the subscription
    active.  A second [shutdown] changes nothing. *)
Theorem shutdown_reading (w : World) :
  let w' := Broker.shutdown w in
  (running_ (broker w) = false -> w' = w) /\
  running_ (broker w') = false /\
  Broker.shutdown w' = w' /\
  subs w' = subs w /\ trace w' = trace w /\
  published_messages_ (broker w') = published_messages_ (broker w) /\
  delivered_messages_ (broker w') = delivered_messages_ (broker w) /\
  (running_ (broker w) = true ->
     subscriptions_ (broker w') = ∅ /\ workers_ (broker w') = 0 /\
     (Broker.get_stats w').(subscription_count) = 0 /\
     forall sub, Broker.unsubscribe (Some sub) w' = (false, w') /\
                 Subscription.is_active sub w' = Subscription.is_active sub w).
Proof.
  intros w'. subst w'. unfold Broker.shutdown.
  destruct (running_ (broker w)) eqn:Hrun; cbn [negb].
  - split_and!; done.
  - rewrite Hrun. cbn [negb]. split_and!; try done.
Qed.

(** X11.  [Broker::subscribe] throws on a stopped broker.  When it returns,
    the broker was running and the pattern built a filter; the
    subscription is a new object, active, with count 0, the id [sub_n] for
    [n] the value of the id counter, and the callback and options that were
    passed; the registry holds it under its id and is otherwise as before;
    no older object has changed; nothing was delivered, whatever
    [receive_existing_messages] says; and [unsubscribe] of the handle
    answers true. *)
Theorem subscribe_registers_new_subscription topic_pattern
    (callback : MessageCallback Payload U) (options : SubscriptionOptions) (w : World) :
  (running_ (broker w) = false ->
     Broker.subscribe topic_pattern callback options w = Throws) /\
  (forall sub w',
     Broker.subscribe topic_pattern callback options w = Ok (sub, w') ->
     let id := "sub_" +:+ pretty (next_id w) in
     running_ (broker w) = true /\
     TopicFilterFactory.create topic_pattern = Ok (filter_ (subs w' sub)) /\
     sub = next_loc w /\ ~ allocated sub w /\ allocated sub w' /\
     Subscription.is_active sub w' = true /\ Subscription.message_count sub w' = 0 /\
     id_ (subs w' sub) = id /\ callback_ (subs w' sub) = callback /\
     options_ (subs w' sub) = options /\
     subscriptions_ (broker w') = <[id := sub]> (subscriptions_ (broker w)) /\
     (forall l, allocated l w -> subs w' l = subs w l) /\
     message_queue_ (broker w') = message_queue_ (broker w) /\
     trace w' = trace w /\
     (Broker.unsubscribe (Some sub) w').1 = true).
Proof.
  split.
  - intros Hrun. unfold Broker.subscribe. by rewrite Hrun.
  - intros sub w' Hs id. unfold Broker.subscribe in Hs.
    destruct (running_ (broker w)) eqn:Hrun; [|done]. cbn [negb] in Hs.
    unfold Subscription.create in Hs.
    destruct (TopicFilterFactory.create topic_pattern) as [f| |] eqn:Hf; [|done..].
    cbn in Hs. injection Hs as <- <-. cbn.
    unfold allocated, Subscription.is_active, Subscription.message_count,
      Broker.unsubscribe. cbn.
    destruct (decide (next_loc w = next_loc w)) as [_|]; [|done]. cbn.
    split_and!; try done; try lia.
    + intros l Hl. destruct (decide (l = next_loc w)); [lia|done].
    + by rewrite lookup_insert_eq.
Qed.

(** X12.  [Broker::unsubscribe] answers false and changes nothing for the
    null handle and for a handle whose id the registry does not hold.  For
    an id that the registry holds it answers true, cancels the subscription
    and removes the entry, touching nothing else; a second call for the
    same handle then answers false. *)
Theorem unsubscribe_reading (w : World) :
  Broker.unsubscribe None w = (false, w) /\
  (forall sub, subscriptions_ (broker w) !! id_ (subs w sub) = None ->
     Broker.unsubscribe (Some sub) w = (false, w)) /\
  (forall sub, is_Some (subscriptions_ (broker w) !! id_ (subs w sub)) ->
     let w' := (Broker.unsubscribe (Some sub) w).2 in
     (Broker.unsubscribe (Some sub) w).1 = true /\
     Subscription.is_active sub w' = false /\
     Subscription.message_count sub w' = Subscription.message_count sub w /\
     subscriptions_ (broker w') = delete (id_ (subs w sub)) (subscriptions_ (broker w)) /\
     (forall l, l <> sub -> subs w' l = subs w l) /\
     message_queue_ (broker w') = message_queue_ (broker w) /\
     trace w' = trace w /\
     Broker.unsubscribe (Some sub) w' = (false, w')).
Proof.
  split; [done|]. split.
  - intros sub Hn. unfold Broker.unsubscribe. by rewrite Hn.
  - intros sub [x Hx] w'. subst w'.
    assert (Hu : Broker.unsubscribe (Some sub) w =
                 (true, with_broker (fun b => set_subscriptions
                                       (delete (id_ (subs w sub)) (subscriptions_ b)) b)
                          (Subscription.cancel sub w))).
    { unfold Broker.unsubscribe. by rewrite Hx. }
    rewrite Hu. cbn [fst snd].
    unfold Subscription.is_active, Subscription.message_count, Broker.unsubscribe. cbn.
    destruct (decide (sub = sub)) as [_|]; [|done]. cbn. split_and!; try done.
    + intros l Hl. by destruct (decide (l = sub)).
    + by rewrite lookup_delete_eq.
Qed.

(** X13.  While the registry is empty, as before the first [subscribe] and
    after [shutdown], every worker turn takes the message at the front of
    the queue and drops it: no callback runs, no delivery is counted and
    nothing is kept for a subscription made later. *)
Theorem messages_without_subscription_are_dropped (n : nat) (w : World) :
  subscriptions_ (broker w) = ∅ ->
  let w' := Broker.worker_turns n w in
  message_queue_ (broker w') = drop n (message_queue_ (broker w)) /\
  trace w' = trace w /\ subs w' = subs w /\ user w' = user w /\
  delivered_messages_ (broker w') = delivered_messages_ (broker w) /\
  subscriptions_ (broker w') = ∅.
Proof.
  revert w. induction n as [|n IH]; intros w Hreg; cbn.
  - by rewrite drop_0.
  - unfold Broker.worker_iteration.
    destruct (message_queue_ (broker w)) as [|m rest] eqn:Hq.
    + destruct (IH w Hreg) as (H1 & H2). rewrite Hq in H1. rewrite drop_nil in H1.
      by rewrite drop_nil.
    + unfold Broker.process_message, Broker.matching_subs. cbn. rewrite Hreg.
      rewrite map_to_list_empty. cbn.
      by destruct (IH (with_broker (set_queue rest) w)) as (H1 & H2).
Qed.


End BrokerOperations.

(** ** Relations kept by every operation *)

(** A relation between a world and a later one that is reflexive,
    transitive and kept by each elementary change holds between the two
    ends of every operation, whatever the callbacks do in between. *)
Section StepRelation.
Context {Payload U : Type}.
Local Abbreviation World := (World Payload U) (only parsing).
Local Abbreviation Message := (Message Payload) (only parsing).
Local Abbreviation deliver := (Subscription.deliver (@Broker.perform Payload U)) (only parsing).

Variable R : World -> World -> Prop.

Hypothesis R_refl : forall w, R w w.
Hypothesis R_trans : forall w1 w2 w3, R w1 w2 -> R w2 w3 -> R w1 w3.
Hypothesis R_result : forall sub (message : Message) r w,
  R w (log (EvDeliver sub message r) w).
Hypothesis R_enter : forall sub (message : Message) w,
  Subscription.is_active sub w = true -> capped sub w = false ->
  R w (log (EvCallback sub message) (with_sub sub Subscription.count_message w)).
Hypothesis R_user : forall u w, R w (with_user u w).
Hypothesis R_cancel : forall sub w, R w (Subscription.cancel sub w).
Hypothesis R_publish : forall topic_str (message : Message) w,
  R w (Broker.publish topic_str message w).2.
Hypothesis R_subscribe : forall topic_pattern callback options w sub w',
  Broker.subscribe topic_pattern callback options w = Ok (sub, w') -> R w w'.
Hypothesis R_unsubscribe : forall subscription w,
  R w (Broker.unsubscribe subscription w).2.
Hypothesis R_counted : forall w,
  R w (with_broker (fun b => set_delivered (incr (delivered_messages_ b)) b) w).
Hypothesis R_take : forall (message : Message) rest w,
  message_queue_ (broker w) = message :: rest -> R w (with_broker (set_queue rest) w).

Lemma perform_rel a w : R w (Broker.perform a w).
Proof.
  destruct a as [l|l|t m|p c o]; cbn [Broker.perform]; auto.
  destruct (Broker.subscribe p c o w) as [[l w1]| |] eqn:Hs; eauto.
Qed.

Lemma performs_rel (actions : list (Action Payload U)) w :
  R w (foldl (fun w a => Broker.perform a w) w actions).
Proof.
  revert w. induction actions as [|a actions IH]; intros w; cbn [foldl]; [done|].
  eapply R_trans; [apply perform_rel|apply IH].
Qed.

Lemma deliver_rel sub (message : Message) w : R w (deliver sub message w).2.
Proof.
  destruct (deliver_cases sub message w) as [[-> _] | (Ha & _ & Hc & _ & ->)]; [done|].
  eapply R_trans; [|apply R_result]. unfold after_callback.
  eapply R_trans; [|apply R_user].
  eapply R_trans; [apply (R_enter sub message w Ha Hc)|apply performs_rel].
Qed.

Lemma deliver_one_rel (message : Message) w sub : R w (Broker.deliver_one message w sub).
Proof.
  unfold Broker.deliver_one. pose proof (deliver_rel sub message w) as H.
  destruct (deliver sub message w) as [r w1]. cbn [snd] in H.
  case_decide; [|done]. eapply R_trans; [exact H|apply R_counted].
Qed.

Lemma deliver_ones_rel (message : Message) (targets : list loc) w :
  R w (foldl (Broker.deliver_one message) w targets).
Proof.
  revert w. induction targets as [|sub targets IH]; intros w; cbn [foldl]; [done|].
  eapply R_trans; [apply deliver_one_rel|apply IH].
Qed.

Lemma process_message_rel (message : Message) w : R w (Broker.process_message message w).
Proof. apply deliver_ones_rel. Qed.

Lemma worker_iteration_rel w : R w (Broker.worker_iteration w).
Proof.
  unfold Broker.worker_iteration.
  destruct (message_queue_ (broker w)) as [|m rest] eqn:Hq; [done|].
  eapply R_trans; [apply (R_take m rest w Hq)|apply process_message_rel].
Qed.

Lemma step_rel (o : Op Payload U) w :
  (forall config hardware_concurrency, o = OInitialize config hardware_concurrency ->
     R w (Broker.initialize config hardware_concurrency w).2) ->
  (o = OShutdown -> R w (Broker.shutdown w)) ->
  R w (step w o).
Proof.
  intros Hi Hs. destruct o as [c h| |t m|p c o|s|l|l m|]; cbn [step]; auto.
  - destruct (Broker.subscribe p c o w) as [[l w1]| |] eqn:Hsub; eauto.
  - apply deliver_rel.
  - apply worker_iteration_rel.
Qed.

Lemma run_rel (ops : list (Op Payload U)) w :
  (forall config hardware_concurrency w,
     R w (Broker.initialize config hardware_concurrency w).2) ->
  (forall w, R w (Broker.shutdown w)) ->
  R w (run ops w).
Proof.
  intros Hi Hs. revert w. induction ops as [|o ops IH]; intros w; [done|].
  unfold run. cbn [foldl]. eapply R_trans; [|apply IH].
  apply step_rel; auto.
Qed.

Lemma run_rel_without_initialize (ops : list (Op Payload U)) w :
  forallb (fun o => negb (is_initialize o)) ops = true ->
  (forall w, R w (Broker.shutdown w)) ->
  R w (run ops w).
Proof.
  intros Hops Hs. revert w Hops. induction ops as [|o ops IH]; intros w Hops; [done|].
  cbn [forallb] in Hops. apply andb_true_iff in Hops as [Ho Hops].
  unfold run. cbn [foldl]. eapply R_trans; [|by apply IH].
  apply step_rel; auto. intros c h ->. done.
Qed.

End StepRelation.

Section BrokerInvariants.
Context {Payload U : Type}.
Local Abbreviation World := (World Payload U) (only parsing).
Local Abbreviation Message := (Message Payload) (only parsing).
Local Abbreviation deliver := (Subscription.deliver (@Broker.perform Payload U)) (only parsing).

(** What [publish] leaves alone, and what it does to the queue. *)
Lemma publish_effect topic_str (message : Message) (w : World) :
  let w' := (Broker.publish topic_str message w).2 in
  subs w' = subs w /\ next_loc w' = next_loc w /\ trace w' = trace w /\ user w' = user w /\
  config_ (broker w') = config_ (broker w) /\ topics_ (broker w') = topics_ (broker w) /\
  subscriptions_ (broker w') = subscriptions_ (broker w) /\
  delivered_messages_ (broker w') = delivered_messages_ (broker w) /\
  (message_queue_ (broker w') = message_queue_ (broker w) \/
   message_queue_ (broker w') = message_queue_ (broker w) ++ [message] /\
   ~ (0 < max_queue_size (config_ (broker w))
        <= Z.of_nat (List.length (message_queue_ (broker w))))).
Proof.
  destruct (running_ (broker w)) eqn:Hrun.
  - rewrite (publish_running topic_str message w Hrun). cbn.
    destruct ((0 <? _) && _) eqn:Hfull; split_and!; try done; [by left|].
    right. split; [done|]. apply andb_false_iff in Hfull as [H | H]; lia.
  - unfold Broker.publish. rewrite Hrun. cbn. split_and!; try done. by left.
Qed.

Lemma subscribe_effect topic_pattern (callback : MessageCallback Payload U) options
    (w : World) sub w' :
  Broker.subscribe topic_pattern callback options w = Ok (sub, w') ->
  frame w w' /\ sub = next_loc w /\ next_loc w' = S (next_loc w) /\
  (forall l, l <> sub -> subs w' l = subs w l) /\
  Subscription.message_count sub w' = 0 /\ Subscription.is_active sub w' = true /\
  trace w' = trace w /\ user w' = user w /\
  config_ (broker w') = config_ (broker w) /\ topics_ (broker w') = topics_ (broker w) /\
  subscriptions_ (broker w') = <[id_ (subs w' sub) := sub]> (subscriptions_ (broker w)) /\
  delivered_messages_ (broker w') = delivered_messages_ (broker w) /\
  message_queue_ (broker w') = message_queue_ (broker w).
Proof.
  intros Hs. pose proof (frame_counts_subscribe (fun _ => False) _ _ _ _ _ _ Hs) as [Hf _].
  split; [done|]. unfold Broker.subscribe in Hs.
  destruct (running_ (broker w)); [|done]. cbn [negb] in Hs.
  unfold Subscription.create in Hs.
  destruct (TopicFilterFactory.create topic_pattern) as [f| |]; [|done..].
  cbn in Hs. injection Hs as <- <-.
  unfold Subscription.message_count, Subscription.is_active. cbn.
  destruct (decide (next_loc w = next_loc w)) as [_|]; [|done].
  split_and!; try done. intros l' Hl'. by destruct (decide (l' = next_loc w)).
Qed.

Lemma unsubscribe_effect subscription (w : World) :
  let w' := (Broker.unsubscribe subscription w).2 in
  frame w w' /\ next_loc w' = next_loc w /\
  (forall l, subs w' l = subs w l \/
             Some l = subscription /\ subs w' l = Subscription.set_inactive (subs w l)) /\
  trace w' = trace w /\ user w' = user w /\
  config_ (broker w') = config_ (broker w) /\ topics_ (broker w') = topics_ (broker w) /\
  subscriptions_ (broker w') ⊆ subscriptions_ (broker w) /\
  delivered_messages_ (broker w') = delivered_messages_ (broker w) /\
  message_queue_ (broker w') = message_queue_ (broker w).
Proof.
  intros w'. split; [apply (frame_counts_unsubscribe (fun _ => False))|]. subst w'.
  unfold Broker.unsubscribe. destruct subscription as [sub|]; [|split_and!; auto].
  destruct (subscriptions_ (broker w) !! id_ (subs w sub)) as [x|]; [|split_and!; auto].
  cbn. split_and!; try done.
  - intros l. destruct (decide (l = sub)) as [->|]; auto.
  - apply delete_subseteq.
Qed.

Lemma cancel_effect sub (w : World) :
  let w' := Subscription.cancel sub w in
  frame w w' /\ next_loc w' = next_loc w /\
  (forall l, l <> sub -> subs w' l = subs w l) /\
  subs w' sub = Subscription.set_inactive (subs w sub) /\
  trace w' = trace w /\ user w' = user w /\ broker w' = broker w.
Proof.
  intros w'. split; [apply (frame_counts_cancel (fun _ => False))|]. subst w'. cbn.
  split_and!; try done.
  - intros l Hl. by destruct (decide (l = sub)).
  - by destruct (decide (sub = sub)).
Qed.

Lemma enter_effect sub (message : Message) (w : World) :
  let w' := log (EvCallback sub message) (with_sub sub Subscription.count_message w) in
  frame w w' /\ next_loc w' = next_loc w /\
  (forall l, l <> sub -> subs w' l = subs w l) /\
  subs w' sub = Subscription.count_message (subs w sub) /\
  trace w' = trace w ++ [EvCallback sub message] /\ user w' = user w /\
  broker w' = broker w.
Proof.
  intros w'. split.
  { eapply frame_trans; [apply (frame_counts_count_message sub w)|].
    apply (frame_counts_same_subs (fun _ => False)); done. }
  subst w'. cbn. split_and!; try done.
  - intros l Hl. by destruct (decide (l = sub)).
  - by destruct (decide (sub = sub)).
Qed.

Lemma frame_same (w w' : World) :
  subs w' = subs w -> next_loc w' = next_loc w -> frame w w'.
Proof. intros H1 H2. by apply (frame_counts_same_subs (fun _ => False)). Qed.

Lemma initialize_effect config hardware_concurrency (w : World) :
  let w' := (Broker.initialize config hardware_concurrency w).2 in
  subs w' = subs w /\ next_loc w' = next_loc w /\ trace w' = trace w /\ user w' = user w /\
  topics_ (broker w') = topics_ (broker w) /\
  subscriptions_ (broker w') = subscriptions_ (broker w) /\
  delivered_messages_ (broker w') = delivered_messages_ (broker w) /\
  message_queue_ (broker w') = message_queue_ (broker w).
Proof. unfold Broker.initialize. by destruct (running_ (broker w)). Qed.

Lemma shutdown_effect (w : World) :
  let w' := Broker.shutdown w in
  subs w' = subs w /\ next_loc w' = next_loc w /\ trace w' = trace w /\ user w' = user w /\
  config_ (broker w') = config_ (broker w) /\
  (topics_ (broker w') = topics_ (broker w) \/ topics_ (broker w') = ∅) /\
  (subscriptions_ (broker w') = subscriptions_ (broker w) \/ subscriptions_ (broker w') = ∅) /\
  delivered_messages_ (broker w') = delivered_messages_ (broker w) /\
  message_queue_ (broker w') = message_queue_ (broker w).
Proof.
  unfold Broker.shutdown. destruct (running_ (broker w)); cbn; split_and!; auto.
Qed.

(** *** The registry *)

Lemma registry_wf_frame (w w' : World) :
  frame w w' -> subscriptions_ (broker w') ⊆ subscriptions_ (broker w) ->
  registry_wf w -> registry_wf w'.
Proof.
  intros [Hn Hf] Hsub Hwf k sub Hk.
  destruct (Hwf k sub (lookup_weaken _ _ _ _ Hk Hsub)) as [Ha Hid].
  split; [unfold allocated in *; lia|]. destruct (Hf sub Ha) as [-> _]. done.
Qed.

Lemma registry_wf_run (ops : list (Op Payload U)) (w : World) :
  registry_wf w -> registry_wf (run ops w).
Proof.
  apply (run_rel (fun w w' => registry_wf w -> registry_wf w')); clear.
  - done.
  - auto.
  - intros sub m r w. apply registry_wf_frame; [by apply frame_same|done].
  - intros sub m w _ _. destruct (enter_effect sub m w) as (Hf & _ & _ & _ & _ & _ & Hb).
    apply registry_wf_frame; [done|]. by rewrite Hb.
  - intros u w. apply registry_wf_frame; [by apply frame_same|done].
  - intros sub w. destruct (cancel_effect sub w) as (Hf & _ & _ & _ & _ & _ & Hb).
    apply registry_wf_frame; [done|]. by rewrite Hb.
  - intros t m w. destruct (publish_effect t m w) as (H1 & H2 & _ & _ & _ & _ & H3 & _).
    apply registry_wf_frame; [by apply frame_same|]. by rewrite H3.
  - intros p c o w sub w' Hs Hwf.
    destruct (subscribe_effect _ _ _ _ _ _ Hs) as
      (Hf & -> & Hn & _ & _ & _ & _ & _ & _ & _ & Hreg & _).
    unfold registry_wf. rewrite Hreg. apply map_Forall_insert_2.
    + split; [unfold allocated; lia|done].
    + intros k l Hk. destruct (Hwf k l Hk) as [Ha Hid]. destruct Hf as [Hle Hf].
      split; [unfold allocated in *; lia|]. by destruct (Hf l Ha) as [-> _].
  - intros s w. destruct (unsubscribe_effect s w) as (Hf & _ & _ & _ & _ & _ & _ & Hsub & _).
    by apply registry_wf_frame.
  - intros w. apply registry_wf_frame; [by apply frame_same|done].
  - intros m rest w Hq. apply registry_wf_frame; [by apply frame_same|done].
  - intros c h w. destruct (initialize_effect c h w) as (H1 & H2 & _ & _ & _ & H3 & _).
    apply registry_wf_frame; [by apply frame_same|]. by rewrite H3.
  - intros w Hwf. destruct (shutdown_effect w) as (H1 & H2 & _ & _ & _ & _ & [H3|H3] & _).
    + revert Hwf. apply registry_wf_frame; [by apply frame_same|]. by rewrite H3.
    + unfold registry_wf. rewrite H3. apply map_Forall_empty.
Qed.

Lemma registry_wf_snapshot topic (w : World) :
  registry_wf w -> NoDup (Broker.matching_subs topic w).
Proof.
  intros Hwf. unfold Broker.matching_subs.
  apply NoDup_fmap_2_strong; [|apply NoDup_filter, NoDup_map_to_list].
  intros [k1 l1] [k2 l2] H1 H2 Heq. cbn in Heq. subst l2.
  apply list_elem_of_filter in H1 as [_ H1]. apply list_elem_of_filter in H2 as [_ H2].
  apply elem_of_map_to_list in H1, H2.
  destruct (Hwf k1 l1 H1) as [_ <-]. destruct (Hwf k2 l1 H2) as [_ <-]. done.
Qed.

(** X14.  Every entry of the registry is filed under the id of the
    subscription object it refers to, and this stays so through every
    sequence of operations and worker turns, whatever the callbacks do.  So
    no subscription object has two entries, and the snapshot that
    [process_message] takes never holds the same subscription twice. *)
Theorem registry_files_each_subscription_once (ops : list (Op Payload U)) topic (w : World) :
  registry_wf w ->
  let w' := run ops w in
  registry_wf w' /\ NoDup (Broker.matching_subs topic w') /\
  forall k1 k2 sub,
    subscriptions_ (broker w') !! k1 = Some sub ->
    subscriptions_ (broker w') !! k2 = Some sub -> k1 = k2.
Proof.
  intros Hwf w'. pose proof (registry_wf_run ops w Hwf) as Hwf'.
  split; [done|]. split; [by apply registry_wf_snapshot|].
  intros k1 k2 sub H1 H2.
  destruct (Hwf' k1 sub H1) as [_ <-]. destruct (Hwf' k2 sub H2) as [_ <-]. done.
Qed.

(** *** The queue *)

(** X15.  On a broker with a bounded queue, the queue never holds more than
    [max_queue_size] messages: a sequence of operations and worker turns
    without [initialize], which alone replaces the configuration, keeps the
    bound whatever the callbacks publish. *)
Theorem queue_stays_within_capacity (ops : list (Op Payload U)) (w : World) :
  forallb (fun o => negb (is_initialize o)) ops = true ->
  0 < max_queue_size (config_ (broker w)) ->
  queue_bounded w ->
  let w' := run ops w in
  max_queue_size (config_ (broker w')) = max_queue_size (config_ (broker w)) /\
  queue_bounded w' /\
  (Broker.get_stats w').(queued_messages) <= max_queue_size (config_ (broker w)).
Proof.
  intros Hops HK Hq w'.
  assert (H : max_queue_size (config_ (broker w')) = max_queue_size (config_ (broker w)) /\
              queue_bounded w').
  { revert HK Hq.
    apply (run_rel_without_initialize (fun w w' =>
      0 < max_queue_size (config_ (broker w)) -> queue_bounded w ->
      max_queue_size (config_ (broker w')) = max_queue_size (config_ (broker w)) /\
      queue_bounded w')); [| | | | | | | | | | |exact Hops|]; clear; unfold queue_bounded.
    - done.
    - intros w1 w2 w3 H12 H23 HK Hq. destruct (H12 HK Hq) as [E1 Hq2].
      destruct H23 as [E2 Hq3]; [lia|done|]. split; [lia|done].
    - done.
    - done.
    - done.
    - done.
    - intros t m w HK Hq.
      destruct (publish_effect t m w) as (_ & _ & _ & _ & Hc & _ & _ & _ & [Hqq|[Hqq Hn]]);
        rewrite Hc, Hqq; [done|]. rewrite length_app. cbn. split; [done|lia].
    - intros p c o w sub w' Hs HK Hq.
      destruct (subscribe_effect _ _ _ _ _ _ Hs) as
        (_ & _ & _ & _ & _ & _ & _ & _ & Hc & _ & _ & _ & Hqq).
      by rewrite Hc, Hqq.
    - intros s w HK Hq.
      destruct (unsubscribe_effect s w) as (_ & _ & _ & _ & _ & Hc & _ & _ & _ & Hqq).
      by rewrite Hc, Hqq.
    - done.
    - intros m rest w Hqq HK Hq. cbn. rewrite Hqq in Hq. cbn in Hq. split; [done|lia].
    - intros w HK Hq.
      destruct (shutdown_effect w) as (_ & _ & _ & _ & Hc & _ & _ & _ & Hqq).
      by rewrite Hc, Hqq. }
  destruct H as [H1 H2]. split; [done|]. split; [done|].
  unfold queue_bounded in H2. cbn. lia.
Qed.

(** *** The topic map *)

(** X16.  Nothing ever puts a topic into the broker's topic map: from a
    broker whose map is empty, as a new broker's is, [get_topics] answers
    the empty list and [get_stats] a topic count of 0 after every sequence
    of operations and worker turns, subscriptions and publications
    included. *)
Theorem topic_map_stays_empty (ops : list (Op Payload U)) (w : World) :
  topics_ (broker w) = ∅ ->
  let w' := run ops w in
  topics_ (broker w') = ∅ /\ Broker.get_topics w' = [] /\
  (Broker.get_stats w').(topic_count) = 0.
Proof.
  intros Ht w'.
  assert (H : topics_ (broker w') = ∅).
  { revert Ht.
    apply (run_rel (fun w w' => topics_ (broker w) = ∅ -> topics_ (broker w') = ∅)); clear.
    - done.
    - auto.
    - done.
    - done.
    - done.
    - done.
    - intros t m w. destruct (publish_effect t m w) as (_ & _ & _ & _ & _ & -> & _). done.
    - intros p c o w sub w' Hs.
      destruct (subscribe_effect _ _ _ _ _ _ Hs) as
        (_ & _ & _ & _ & _ & _ & _ & _ & _ & -> & _). done.
    - intros s w.
      destruct (unsubscribe_effect s w) as (_ & _ & _ & _ & _ & _ & -> & _). done.
    - done.
    - done.
    - intros c h w. destruct (initialize_effect c h w) as (_ & _ & _ & _ & -> & _). done.
    - intros w. destruct (shutdown_effect w) as (_ & _ & _ & _ & _ & [-> | ->] & _); done. }
  split; [done|]. unfold Broker.get_topics, Broker.get_stats. cbn. rewrite H.
  by rewrite map_to_list_empty.
Qed.

End BrokerInvariants.

Section RunFacts.
Context {Payload U : Type}.
Local Abbreviation World := (World Payload U) (only parsing).
Local Abbreviation Message := (Message Payload) (only parsing).
Local Abbreviation deliver := (Subscription.deliver (@Broker.perform Payload U)) (only parsing).

Lemma events_since_app (w w' : World) evs :
  trace w' = trace w ++ evs -> events_since w w' = evs.
Proof. intros H. unfold events_since. rewrite H. by rewrite drop_app_length. Qed.

Lemma called_app (evs1 evs2 : list (Event Payload)) :
  called (evs1 ++ evs2) = called evs1 ++ called evs2.
Proof. apply omap_app. Qed.

Lemma calls_of_app sub (evs1 evs2 : list (Event Payload)) :
  calls_of sub (evs1 ++ evs2) = (calls_of sub evs1 + calls_of sub evs2)%nat.
Proof. unfold calls_of. by rewrite called_app, filter_app, length_app. Qed.

Lemma calls_of_callback sub l (m : Message) (evs : list (Event Payload)) :
  calls_of sub (EvCallback l m :: evs) =
    ((if decide (l = sub) then 1 else 0) + calls_of sub evs)%nat.
Proof.
  change (EvCallback l m :: evs) with ([EvCallback l m] ++ evs).
  rewrite calls_of_app. f_equal. unfold calls_of.
  change (called [EvCallback l m]) with [(l, m)].
  destruct (decide (l = sub)) as [He|He].
  - by rewrite filter_cons_True.
  - by rewrite filter_cons_False.
Qed.

Lemma calls_of_result sub l (m : Message) r (evs : list (Event Payload)) :
  calls_of sub (EvDeliver l m r :: evs) = calls_of sub evs.
Proof. done. Qed.

(** *** A subscription out of service *)

Lemma inactive_run sub (ops : list (Op Payload U)) (w : World) :
  allocated sub w -> Subscription.is_active sub w = false ->
  let w' := run ops w in
  allocated sub w' /\ Subscription.is_active sub w' = false /\
  Subscription.message_count sub w' = Subscription.message_count sub w /\
  exists evs, trace w' = trace w ++ evs /\ never_called sub evs.
Proof.
  apply (run_rel (fun w w' =>
    allocated sub w -> Subscription.is_active sub w = false ->
    allocated sub w' /\ Subscription.is_active sub w' = false /\
    Subscription.message_count sub w' = Subscription.message_count sub w /\
    exists evs, trace w' = trace w ++ evs /\ never_called sub evs)); clear ops w;
    unfold Subscription.is_active, Subscription.message_count, allocated, never_called.
  - intros w Ha Hi. split_and!; try done. exists []. by rewrite app_nil_r.
  - intros w1 w2 w3 H12 H23 Ha Hi.
    destruct (H12 Ha Hi) as (Ha2 & Hi2 & Hc2 & evs1 & Ht1 & Hn1).
    destruct (H23 Ha2 Hi2) as (Ha3 & Hi3 & Hc3 & evs2 & Ht2 & Hn2).
    split_and!; try done; [congruence|].
    exists (evs1 ++ evs2). rewrite Ht2, Ht1, app_assoc. split; [done|].
    by apply Forall_app.
  - intros l m r w Ha Hi. split_and!; try done. eexists. split; [done|].
    by apply Forall_singleton.
  - intros l m w Hact _ Ha Hi.
    destruct (enter_effect l m w) as (_ & Hn & Ho & _ & Ht & _).
    assert (Hne : sub <> l).
    { intros ->. unfold Subscription.is_active in Hact. congruence. }
    rewrite Ho by done. split_and!; try done.
    eexists. split; [exact Ht|]. apply Forall_singleton. congruence.
  - intros u w Ha Hi. split_and!; try done. exists []. by rewrite app_nil_r.
  - intros l w Ha Hi.
    destruct (cancel_effect l w) as (_ & Hn & Ho & Hs & Ht & _).
    split; [by rewrite Hn|].
    assert (Hsub : active_ (subs (Subscription.cancel l w) sub) = false /\
                   message_count_ (subs (Subscription.cancel l w) sub) =
                   message_count_ (subs w sub)).
    { destruct (decide (sub = l)) as [->|Hne]; [by rewrite Hs|by rewrite Ho]. }
    destruct Hsub as [-> ->]. split_and!; try done.
    exists []. by rewrite app_nil_r.
  - intros t m w Ha Hi.
    destruct (publish_effect t m w) as (Hs & Hn & Ht & _). rewrite Hs, Hn, Ht.
    split_and!; try done. exists []. by rewrite app_nil_r.
  - intros p c o w l w' Hsub Ha Hi.
    destruct (subscribe_effect _ _ _ _ _ _ Hsub) as (_ & -> & Hn & Ho & _ & _ & Ht & _).
    rewrite Ho by lia. rewrite Hn, Ht. split_and!; try done; [lia|].
    exists []. by rewrite app_nil_r.
  - intros s w Ha Hi.
    destruct (unsubscribe_effect s w) as (_ & Hn & Ho & Ht & _). rewrite Hn, Ht.
    split; [done|].
    assert (Hsub : active_ (subs (Broker.unsubscribe s w).2 sub) = false /\
                   message_count_ (subs (Broker.unsubscribe s w).2 sub) =
                   message_count_ (subs w sub)).
    { destruct (Ho sub) as [-> | [_ ->]]; done. }
    destruct Hsub as [-> ->]. split_and!; try done.
    exists []. by rewrite app_nil_r.
  - intros w Ha Hi. split_and!; try done. exists []. by rewrite app_nil_r.
  - intros m rest w _ Ha Hi. split_and!; try done. exists []. by rewrite app_nil_r.
  - intros c h w Ha Hi.
    destruct (initialize_effect c h w) as (Hs & Hn & Ht & _). rewrite Hs, Hn, Ht.
    split_and!; try done. exists []. by rewrite app_nil_r.
  - intros w Ha Hi.
    destruct (shutdown_effect w) as (Hs & Hn & Ht & _). rewrite Hs, Hn, Ht.
    split_and!; try done. exists []. by rewrite app_nil_r.
Qed.

(** X17.  Once a subscription is out of service, by [cancel] or by
    [unsubscribe], its callback is never entered again and its count never
    moves, through every later sequence of operations and worker turns:
    not for messages that were queued before, not by a direct [deliver],
    not by anything another callback does. *)
Theorem inactive_subscription_stays_silent sub (ops : list (Op Payload U)) (w : World) :
  allocated sub w -> Subscription.is_active sub w = false ->
  let w' := run ops w in
  Subscription.is_active sub w' = false /\
  Subscription.message_count sub w' = Subscription.message_count sub w /\
  never_called sub (events_since w w') /\
  calls_of sub (events_since w w') = 0%nat.
Proof.
  intros Ha Hi w'. subst w'.
  destruct (inactive_run sub ops w Ha Hi) as (_ & H1 & H2 & evs & Ht & Hn).
  rewrite (events_since_app _ _ _ Ht). split_and!; try done.
  clear Ht. induction evs as [|e evs IH]; [done|].
  apply Forall_cons in Hn as [He Hn]. destruct e as [l m|l m r].
  - rewrite calls_of_callback, decide_False by done. by apply IH.
  - rewrite calls_of_result. by apply IH.
Qed.

(** *** The limit of a subscription *)

Lemma limited_run sub (ops : list (Op Payload U)) (w : World) :
  allocated sub w ->
  0 < max_messages (options_ (subs w sub)) < SIZE_MODULUS ->
  0 <= Subscription.message_count sub w <= max_messages (options_ (subs w sub)) ->
  let w' := run ops w in
  allocated sub w' /\ options_ (subs w' sub) = options_ (subs w sub) /\
  exists evs, trace w' = trace w ++ evs /\
    Subscription.message_count sub w' =
      Subscription.message_count sub w + Z.of_nat (calls_of sub evs) /\
    Subscription.message_count sub w' <= max_messages (options_ (subs w sub)).
Proof.
  apply (run_rel (fun w w' =>
    allocated sub w ->
    0 < max_messages (options_ (subs w sub)) < SIZE_MODULUS ->
    0 <= Subscription.message_count sub w <= max_messages (options_ (subs w sub)) ->
    allocated sub w' /\ options_ (subs w' sub) = options_ (subs w sub) /\
    exists evs, trace w' = trace w ++ evs /\
      Subscription.message_count sub w' =
        Subscription.message_count sub w + Z.of_nat (calls_of sub evs) /\
      Subscription.message_count sub w' <= max_messages (options_ (subs w sub))));
    clear ops w; unfold Subscription.message_count, allocated.
  - intros w Ha Hm Hc. split_and!; try done. exists []. rewrite app_nil_r. cbn. split_and!; [done|lia|lia].
  - intros w1 w2 w3 H12 H23 Ha Hm Hc.
    destruct (H12 Ha Hm Hc) as (Ha2 & Ho2 & evs1 & Ht1 & Hc1 & Hb1).
    destruct H23 as (Ha3 & Ho3 & evs2 & Ht2 & Hc2 & Hb2); [done|by rewrite Ho2|rewrite Ho2; lia|].
    split_and!; try done; [congruence|].
    exists (evs1 ++ evs2). rewrite Ht2, Ht1, app_assoc. split; [done|].
    rewrite calls_of_app. rewrite Ho2 in Hb2. lia.
  - intros l m r w Ha Hm Hc. split_and!; try done. eexists. split; [done|].
    cbn. lia.
  - intros l m w Hact Hcap Ha Hm Hc.
    destruct (enter_effect l m w) as (_ & Hn & Ho & Hs & Ht & _).
    split; [by rewrite Hn|].
    destruct (decide (sub = l)) as [<-|Hne].
    + rewrite Hs. cbn. split; [done|]. eexists. split; [exact Ht|].
      rewrite calls_of_callback, decide_True by done. cbn.
      unfold capped, Subscription.message_count in Hcap.
      apply andb_false_iff in Hcap as [Hcap|Hcap]; [lia|].
      apply Z.leb_gt in Hcap. unfold incr.
      rewrite Z.mod_small by lia. lia.
    + rewrite Ho by done. split; [done|]. eexists. split; [exact Ht|].
      rewrite calls_of_callback, decide_False by congruence. cbn. lia.
  - intros u w Ha Hm Hc. split_and!; try done. exists []. rewrite app_nil_r. cbn. split_and!; [done|lia|lia].
  - intros l w Ha Hm Hc.
    destruct (cancel_effect l w) as (_ & Hn & Ho & Hs & Ht & _).
    split; [by rewrite Hn|].
    assert (Hsub : options_ (subs (Subscription.cancel l w) sub) = options_ (subs w sub) /\
                   message_count_ (subs (Subscription.cancel l w) sub) =
                   message_count_ (subs w sub)).
    { destruct (decide (sub = l)) as [->|Hne]; [by rewrite Hs|by rewrite Ho]. }
    destruct Hsub as [-> ->]. split; [done|].
    exists []. rewrite app_nil_r. cbn. split_and!; [done|lia|lia].
  - intros t m w Ha Hm Hc.
    destruct (publish_effect t m w) as (Hs & Hn & Ht & _). rewrite Hs, Hn, Ht.
    split_and!; try done. exists []. rewrite app_nil_r. cbn. split_and!; [done|lia|lia].
  - intros p c o w l w' Hsub Ha Hm Hc.
    destruct (subscribe_effect _ _ _ _ _ _ Hsub) as (_ & -> & Hn & Ho & _ & _ & Ht & _).
    rewrite Ho by lia. rewrite Hn, Ht. split_and!; try done; [lia|].
    exists []. rewrite app_nil_r. cbn. split_and!; [done|lia|lia].
  - intros s w Ha Hm Hc.
    destruct (unsubscribe_effect s w) as (_ & Hn & Ho & Ht & _). rewrite Hn, Ht.
    split; [done|].
    assert (Hsub : options_ (subs (Broker.unsubscribe s w).2 sub) = options_ (subs w sub) /\
                   message_count_ (subs (Broker.unsubscribe s w).2 sub) =
                   message_count_ (subs w sub)).
    { destruct (Ho sub) as [-> | [_ ->]]; done. }
    destruct Hsub as [-> ->]. split; [done|].
    exists []. rewrite app_nil_r. cbn. split_and!; [done|lia|lia].
  - intros w Ha Hm Hc. split_and!; try done. exists []. rewrite app_nil_r. cbn. split_and!; [done|lia|lia].
  - intros m rest w _ Ha Hm Hc. split_and!; try done. exists []. rewrite app_nil_r. cbn. split_and!; [done|lia|lia].
  - intros c h w Ha Hm Hc.
    destruct (initialize_effect c h w) as (Hs & Hn & Ht & _). rewrite Hs, Hn, Ht.
    split_and!; try done. exists []. rewrite app_nil_r. cbn. split_and!; [done|lia|lia].
  - intros w Ha Hm Hc.
    destruct (shutdown_effect w) as (Hs & Hn & Ht & _). rewrite Hs, Hn, Ht.
    split_and!; try done. exists []. rewrite app_nil_r. cbn. split_and!; [done|lia|lia].
Qed.

Lemma workers_effect_publish topic_str (message : Message) (w : World) :
  workers_ (broker (Broker.publish topic_str message w).2) = workers_ (broker w).
Proof.
  destruct (running_ (broker w)) eqn:Hrun.
  - rewrite (publish_running topic_str message w Hrun). done.
  - unfold Broker.publish. by rewrite Hrun.
Qed.

Lemma workers_effect_subscribe topic_pattern (callback : MessageCallback Payload U) options
    (w : World) sub w' :
  Broker.subscribe topic_pattern callback options w = Ok (sub, w') ->
  workers_ (broker w') = workers_ (broker w).
Proof.
  intros Hs. apply subscribe_inv in Hs as (_ & w1 & Hc & ->).
  apply (frame_counts_create (fun _ => False)) in Hc as (_ & _ & _ & Hb & _).
  cbn. by rewrite Hb.
Qed.

Lemma workers_effect_unsubscribe subscription (w : World) :
  workers_ (broker (Broker.unsubscribe subscription w).2) = workers_ (broker w).
Proof.
  unfold Broker.unsubscribe. destruct subscription as [sub|]; [|done].
  by destruct (subscriptions_ (broker w) !! id_ (subs w sub)).
Qed.

(** Worker turns start no worker and stop none. *)
Lemma worker_turns_workers (n : nat) (w : World) :
  workers_ (broker (Broker.worker_turns n w)) = workers_ (broker w).
Proof.
  revert w. induction n as [|n IH]; intros w; [done|].
  cbn [Broker.worker_turns]. rewrite IH.
  apply (worker_iteration_rel (fun w w' => workers_ (broker w') = workers_ (broker w)));
    clear; try done.
  - intros w1 w2 w3 H12 H23. congruence.
  - intros t m w. apply workers_effect_publish.
  - intros p c o w sub w'. apply workers_effect_subscribe.
  - intros s w. apply workers_effect_unsubscribe.
Qed.

(** Without [initialize] the number of workers stays, or falls to zero. *)
Lemma run_workers (ops : list (Op Payload U)) (w : World) :
  forallb (fun o => negb (is_initialize o)) ops = true ->
  workers_ (broker (run ops w)) = workers_ (broker w) \/ workers_ (broker (run ops w)) = 0.
Proof.
  intros Hops.
  apply (run_rel_without_initialize (fun w w' =>
    workers_ (broker w') = workers_ (broker w) \/ workers_ (broker w') = 0));
    [| | | | | | | | | | |exact Hops|]; clear; try (intros; left; done).
  - intros w1 w2 w3 [H12|H12] [H23|H23]; [left; congruence|right; congruence..].
  - intros t m w. left. apply workers_effect_publish.
  - intros p c o w sub w' Hs. left. by eapply workers_effect_subscribe.
  - intros s w. left. apply workers_effect_unsubscribe.
  - intros w. unfold Broker.shutdown. destruct (negb (running_ (broker w))); [by left|by right].
Qed.

(** X18.  On a broker with at most one worker, through every sequence of
    operations and worker turns in which no worker is started and the
    application makes no call of [deliver] of its own, so that every
    delivery is made by that one worker and no two overlap, a subscription
    with a limit never counts past it: its count grows by exactly the
    number of times its callback is entered and stays at most
    [max_messages], so the callback of a new subscription is entered at
    most [max_messages] times in all.  The broker has at most one worker
    throughout. *)
Theorem limit_bounds_callback_entries sub (ops : list (Op Payload U)) (w : World) :
  allocated sub w ->
  0 < max_messages (options_ (subs w sub)) < SIZE_MODULUS ->
  0 <= Subscription.message_count sub w <= max_messages (options_ (subs w sub)) ->
  workers_ (broker w) <= 1 ->
  forallb (fun o => negb (is_initialize o) && negb (is_deliver o)) ops = true ->
  let w' := run ops w in
  let entries := Z.of_nat (calls_of sub (events_since w w')) in
  Subscription.message_count sub w' = Subscription.message_count sub w + entries /\
  Subscription.message_count sub w' <= max_messages (options_ (subs w sub)) /\
  entries <= max_messages (options_ (subs w sub)) - Subscription.message_count sub w /\
  options_ (subs w' sub) = options_ (subs w sub) /\
  workers_ (broker w') <= 1.
Proof.
  intros Ha Hm Hc Hw Hops w' entries. subst entries w'.
  destruct (limited_run sub ops w Ha Hm Hc) as (_ & Ho & evs & Ht & H1 & H2).
  rewrite (events_since_app _ _ _ Ht). split_and!; try done; [lia|].
  assert (Hinit : forallb (fun o : Op Payload U => negb (is_initialize o)) ops = true).
  { clear -Hops. induction ops as [|o ops IH]; [done|]. cbn in *.
    apply andb_true_iff in Hops as [Ho Hops]. apply andb_true_iff in Ho as [Ho _].
    rewrite Ho. by apply IH. }
  destruct (run_workers ops w Hinit) as [-> | ->]; lia.
Qed.

(** *** The order of the queue *)

Lemma process_message_appends (message : Message) (w : World) :
  exists extra, message_queue_ (broker (Broker.process_message message w)) =
                message_queue_ (broker w) ++ extra.
Proof.
  apply (process_message_rel (fun w w' =>
    exists extra, message_queue_ (broker w') = message_queue_ (broker w) ++ extra)); clear.
  - intros w. exists []. by rewrite app_nil_r.
  - intros w1 w2 w3 [e1 H1] [e2 H2]. exists (e1 ++ e2). by rewrite H2, H1, app_assoc.
  - intros. exists []. by rewrite app_nil_r.
  - intros. exists []. by rewrite app_nil_r.
  - intros. exists []. by rewrite app_nil_r.
  - intros. exists []. by rewrite app_nil_r.
  - intros t m w.
    destruct (publish_effect t m w) as (_ & _ & _ & _ & _ & _ & _ & _ & [-> | [-> _]]).
    + exists []. by rewrite app_nil_r.
    + by eexists.
  - intros p c o w sub w' Hs.
    destruct (subscribe_effect _ _ _ _ _ _ Hs) as
      (_ & _ & _ & _ & _ & _ & _ & _ & _ & _ & _ & _ & ->).
    exists []. by rewrite app_nil_r.
  - intros s w.
    destruct (unsubscribe_effect s w) as (_ & _ & _ & _ & _ & _ & _ & _ & _ & ->).
    exists []. by rewrite app_nil_r.
  - intros. exists []. by rewrite app_nil_r.
Qed.

Lemma worker_turns_in_order (messages later : list Message) (w : World) :
  message_queue_ (broker w) = messages ++ later ->
  let w' := Broker.worker_turns (List.length messages) w in
  w' = foldl take_and_process w messages /\
  (exists extra, message_queue_ (broker w') = later ++ extra) /\
  exists counts evs,
    List.length counts = List.length messages /\
    trace w' = trace w ++ evs /\
    delivered_messages_of evs = grouped counts messages.
Proof.
  revert later w. induction messages as [|m messages IH]; intros later w Hq.
  - cbn. split; [done|]. split.
    + exists []. rewrite app_nil_r. done.
    + exists [], []. by rewrite app_nil_r.
  - cbn [List.length Broker.worker_turns foldl]. unfold Broker.worker_iteration.
    rewrite Hq. cbn [app].
    assert (Hw : with_broker (set_queue (messages ++ later)) w =
                 with_broker (fun b => set_queue (tail (message_queue_ b)) b) w).
    { unfold with_broker. by rewrite Hq. }
    unfold take_and_process at 2. rewrite <- Hw.
    set (w0 := with_broker (set_queue (messages ++ later)) w).
    destruct (process_message_appends m w0) as [extra Hextra].
    destruct (deliver_ones_events m (Broker.matching_subs (topic m) w0) w0)
      as (evs1 & Ht1 & Hd1 & _).
    fold (Broker.process_message m w0) in Ht1.
    set (w1 := Broker.process_message m w0) in *.
    destruct (IH (later ++ extra) w1) as (H1 & [extra' H2] & counts & evs2 & Hl & Ht2 & Hd2).
    { rewrite Hextra. subst w0. cbn. by rewrite app_assoc. }
    split; [done|]. split.
    + exists (extra ++ extra'). by rewrite H2, app_assoc.
    + exists (List.length (Broker.matching_subs (topic m) w0) :: counts), (evs1 ++ evs2).
      split; [cbn; by rewrite Hl|]. split.
      * rewrite Ht2, Ht1. subst w0. cbn. by rewrite app_assoc.
      * unfold delivered_messages_of in *. rewrite delivered_to_app, fmap_app, Hd2, Hd1.
        unfold grouped. cbn. f_equal.
        generalize (Broker.matching_subs (topic m) w0). intros l.
        induction l as [|x l IHl]; [done|]. cbn. by rewrite IHl.
Qed.

(** X19.  A single worker takes the messages in the order of the queue.
    On a broker with one worker, and while no other thread calls into the
    broker, when the queue starts with [messages], as many turns of the
    worker process exactly these, one after the other in that order, each
    with the registry as the turns before it left it; every delivery of a
    message comes before every delivery of a later one; what the callbacks
    publish meanwhile goes behind the messages that were already waiting;
    and the worker is still the only one. *)
Theorem workers_follow_queue_order (messages later : list Message) (w : World) :
  workers_ (broker w) = 1 ->
  message_queue_ (broker w) = messages ++ later ->
  let w' := Broker.worker_turns (List.length messages) w in
  w' = foldl take_and_process w messages /\
  (exists extra, message_queue_ (broker w') = later ++ extra) /\
  (exists counts,
     List.length counts = List.length messages /\
     delivered_messages_of (events_since w w') = grouped counts messages) /\
  workers_ (broker w') = 1.
Proof.
  intros Hw Hq w'. subst w'.
  destruct (worker_turns_in_order messages later w Hq) as (H1 & H2 & counts & evs & Hl & Ht & Hd).
  split; [done|]. split; [done|]. split.
  - exists counts. split; [done|]. by rewrite (events_since_app _ _ _ Ht).
  - by rewrite worker_turns_workers.
Qed.

End RunFacts.

Section TopicFacts.
Context {Payload U : Type}.
Local Abbreviation World := (World Payload U) (only parsing).
Local Abbreviation Message := (Message Payload) (only parsing).
Local Abbreviation deliver := (Subscription.deliver (@Broker.perform Payload U)) (only parsing).

(** X20.  A [Topic] keeps its subscriptions by id.  After a subscription is
    attached, the entry under its id holds that subscription, whichever one
    was there before, the entries under the other ids are as they were, and
    [publish] visits it.  Attaching under an id that is already there
    replaces the entry, so the count does not move; under a new id the
    count grows by one.  Removing an id that is attached answers true,
    leaves no entry under that id, keeps the others and takes one off the
    count; removing an id that is not attached answers false and changes
    nothing, as does the second of two removals.  Attaching a subscription
    and removing its id leaves the topic as it was when the id was not
    attached before. *)
Theorem topic_keeps_subscriptions_by_id (sub : loc) (topic : Topic.t) (w : World) :
  let id := id_ (subs w sub) in
  let added := Topic.add_subscription sub w topic in
  (Topic.remove_subscription id added).1 = true /\
  Topic.subscriptions_ (Topic.remove_subscription id added).2 =
    delete id (Topic.subscriptions_ topic) /\
  Topic.name (Topic.remove_subscription id added).2 = Topic.name topic /\
  (Topic.subscriptions_ topic !! id = None ->
     (Topic.remove_subscription id added).2 = topic /\
     Topic.subscription_count added = Topic.subscription_count topic + 1 /\
     Topic.remove_subscription id topic = (false, topic)) /\
  (is_Some (Topic.subscriptions_ topic !! id) ->
     Topic.subscription_count added = Topic.subscription_count topic) /\
  Topic.remove_subscription id (Topic.remove_subscription id added).2 =
    (false, (Topic.remove_subscription id added).2) /\
  Topic.subscriptions_ added !! id = Some sub /\
  (forall k, k <> id ->
     Topic.subscriptions_ added !! k = Topic.subscriptions_ topic !! k) /\
  Topic.name added = Topic.name topic /\
  sub ∈ Topic.attached added /\
  (forall k, is_Some (Topic.subscriptions_ topic !! k) ->
     let removed := (Topic.remove_subscription k topic).2 in
     (Topic.remove_subscription k topic).1 = true /\
     Topic.subscriptions_ removed !! k = None /\
     (forall k', k' <> k ->
        Topic.subscriptions_ removed !! k' = Topic.subscriptions_ topic !! k') /\
     Topic.name removed = Topic.name topic /\
     Topic.subscription_count removed = Topic.subscription_count topic - 1) /\
  (forall k, Topic.subscriptions_ topic !! k = None ->
     Topic.remove_subscription k topic = (false, topic)).
Proof.
  intros id added.
  assert (Hr : Topic.remove_subscription id added =
               (true, {| Topic.name_ := Topic.name_ topic;
                         Topic.subscriptions_ := delete id (Topic.subscriptions_ topic) |})).
  { unfold Topic.remove_subscription, added, Topic.add_subscription. cbn. fold id.
    rewrite lookup_insert_eq. by rewrite delete_insert_eq. }
  assert (Hl : Topic.subscriptions_ added !! id = Some sub).
  { unfold added, Topic.add_subscription. cbn. fold id. by rewrite lookup_insert_eq. }
  rewrite Hr. cbn [fst snd]. split_and!; try done.
  - intros Hn. split_and!.
    + destruct topic as [n s]. cbn in *. by rewrite delete_id.
    + unfold Topic.subscription_count, added, Topic.add_subscription. cbn. fold id.
      rewrite map_size_insert_None by done. lia.
    + unfold Topic.remove_subscription. by rewrite Hn.
  - intros Hs. unfold Topic.subscription_count, added, Topic.add_subscription. cbn. fold id.
    by rewrite map_size_insert_Some.
  - unfold Topic.remove_subscription. cbn. by rewrite lookup_delete_eq.
  - intros k Hk. unfold added, Topic.add_subscription. cbn. fold id.
    by rewrite lookup_insert_ne.
  - unfold Topic.attached. apply list_elem_of_fmap. exists (id, sub). split; [done|].
    by apply elem_of_map_to_list.
  - intros k [x Hx]. unfold Topic.remove_subscription. rewrite Hx.
    cbn. split_and!; try done.
    + by rewrite lookup_delete_eq.
    + intros k' Hk'. by rewrite lookup_delete_ne.
    + unfold Topic.subscription_count. cbn.
      rewrite map_size_delete_Some by done.
      assert (size (Topic.subscriptions_ topic) <> 0%nat).
      { intros H0. apply map_size_empty_inv in H0. rewrite H0 in Hx. done. }
      lia.
  - intros k Hk. unfold Topic.remove_subscription. by rewrite Hk.
Qed.




(** X22.  What [deliver] answers, read from the state before the call:
    [Success] or [Error] exactly when the subscription is active, its
    filter matches and it is below its limit, and then [Error] exactly when
    the callback throws; [Filtered] exactly when it is active and the
    filter does not match; [Rejected] otherwise; never [Timeout].  The
    callback is entered, once, exactly in the first case, and only then can
    the application's state change. *)
Theorem deliver_result_reading sub (message : Message) (w : World) :
  let r := (deliver sub message w).1 in
  let w' := (deliver sub message w).2 in
  let open := Subscription.is_active sub w && Subscription.matches sub (topic message) w &&
              negb (capped sub w) in
  r = (if open then (if callback_throws sub message w then Error else Success)
       else if Subscription.is_active sub w && negb (Subscription.matches sub (topic message) w)
            then Filtered else Rejected) /\
  r <> Timeout /\
  called (events_since w w') = (if open then [(sub, message)] else []) /\
  delivered_to (events_since w w') = [(sub, message)] /\
  (open = false -> user w' = user w /\ subs w' = subs w /\ broker w' = broker w).
Proof.
  intros r w' open. subst r w' open.
  destruct (deliver_cases sub message w) as [[Hw Hc] | (Ha & Hm & Hc & Hr & Hw)].
  - rewrite Hw. rewrite (events_since_app w _ [EvDeliver sub message (deliver sub message w).1])
      by done.
    destruct Hc as [[-> ->] | [(-> & -> & ->) | (-> & -> & -> & ->)]]; cbn; done.
  - destruct (after_callback_observations sub message w) as [Ht Hd].
    rewrite Hw.
    rewrite (events_since_app w _ [EvCallback sub message;
                                   EvDeliver sub message (deliver sub message w).1])
      by (cbn [trace log]; rewrite Ht, <- app_assoc; done).
    rewrite Hr, Ha, Hm, Hc. cbn. split_and!; try done.
    by destruct (callback_throws sub message w).
Qed.

End TopicFacts.

(** ** Options that nothing reads *)
Section SimilarityFacts.
Context {Payload U : Type}.
Local Abbreviation World := (World Payload U) (only parsing).
Local Abbreviation Message := (Message Payload) (only parsing).
Local Abbreviation deliver := (Subscription.deliver (@Broker.perform Payload U)) (only parsing).

Lemma similar_refl (w : World) : similar w w.
Proof. by split. Qed.

Lemma similar_log (e : Event Payload) (w1 w2 : World) :
  similar w1 w2 -> similar (log e w1) (log e w2).
Proof. intros (Hs & Hn & Hi & Hb & Hu & Ht). split_and!; try done. cbn. by rewrite Ht. Qed.

Lemma similar_with_user (u : U) (w1 w2 : World) :
  similar w1 w2 -> similar (with_user u w1) (with_user u w2).
Proof. intros (Hs & Hn & Hi & Hb & Hu & Ht). by split_and!. Qed.

Lemma similar_with_broker (f : Broker Payload -> Broker Payload) (w1 w2 : World) :
  similar w1 w2 -> similar (with_broker f w1) (with_broker f w2).
Proof. intros (Hs & Hn & Hi & Hb & Hu & Ht). split_and!; try done. cbn. by rewrite Hb. Qed.

Lemma similar_with_sub sub (f : Subscription Payload U -> Subscription Payload U)
    (w1 w2 : World) :
  (forall s1 s2, similar_sub s1 s2 -> similar_sub (f s1) (f s2)) ->
  similar w1 w2 -> similar (with_sub sub f w1) (with_sub sub f w2).
Proof.
  intros Hf (Hs & Hn & Hi & Hb & Hu & Ht). split_and!; try done.
  intros l. cbn. destruct (decide (l = sub)); auto.
Qed.

Lemma similar_cancel sub (w1 w2 : World) :
  similar w1 w2 -> similar (Subscription.cancel sub w1) (Subscription.cancel sub w2).
Proof.
  apply similar_with_sub. intros s1 s2 (H1 & H2 & H3 & H4 & H5 & H6). by split_and!.
Qed.

Lemma similar_count sub (w1 w2 : World) :
  similar w1 w2 ->
  similar (with_sub sub Subscription.count_message w1)
          (with_sub sub Subscription.count_message w2).
Proof.
  apply similar_with_sub. intros s1 s2 (H1 & H2 & H3 & H4 & H5 & H6).
  split_and!; try done. cbn. by rewrite H5.
Qed.

Lemma similar_publish topic_str (message : Message) (w1 w2 : World) :
  similar w1 w2 ->
  (Broker.publish topic_str message w1).1 = (Broker.publish topic_str message w2).1 /\
  similar (Broker.publish topic_str message w1).2 (Broker.publish topic_str message w2).2.
Proof.
  intros Hsim. pose proof Hsim as (Hs & Hn & Hi & Hb & Hu & Ht).
  unfold Broker.publish. rewrite Hb. destruct (negb (running_ (broker w2))); [done|].
  assert (H0 : forall (w : World), (if negb (topic message =? topic_str)%string then w else w) = w).
  { intros w. by destruct (negb _). }
  rewrite !H0. cbn [broker with_broker]. rewrite Hb.
  destruct (_ && _).
  - destruct (Priority_le _ _); cbn [fst snd]; split; try done;
      by apply similar_with_broker.
  - cbn [fst snd]. split; [done|].
    apply (similar_with_broker (fun b => set_queue (message_queue_ b ++ [message]) b)).
    by apply similar_with_broker.
Qed.

Lemma similar_unsubscribe subscription (w1 w2 : World) :
  similar w1 w2 ->
  (Broker.unsubscribe subscription w1).1 = (Broker.unsubscribe subscription w2).1 /\
  similar (Broker.unsubscribe subscription w1).2 (Broker.unsubscribe subscription w2).2.
Proof.
  intros Hsim. pose proof Hsim as (Hs & Hn & Hi & Hb & Hu & Ht).
  unfold Broker.unsubscribe. destruct subscription as [sub|]; [|done].
  destruct (Hs sub) as (Hid & _). rewrite Hb, Hid.
  destruct (subscriptions_ (broker w2) !! id_ (subs w2 sub)); [|done].
  cbn [fst snd]. split; [done|].
  apply (similar_with_broker (fun b => set_subscriptions
           (delete (id_ (subs w2 sub)) (subscriptions_ b)) b)).
  by apply similar_cancel.
Qed.

Lemma similar_subscribe topic_pattern (callback : MessageCallback Payload U) options
    (w1 w2 : World) :
  similar w1 w2 ->
  match Broker.subscribe topic_pattern callback options w1,
        Broker.subscribe topic_pattern callback options w2 with
  | Ok (l1, w1'), Ok (l2, w2') => l1 = l2 /\ similar w1' w2'
  | Throws, Throws => True
  | Unmodelled, Unmodelled => True
  | _, _ => False
  end.
Proof.
  intros (Hs & Hn & Hi & Hb & Hu & Ht).
  unfold Broker.subscribe, Subscription.create. rewrite Hb.
  destruct (negb (running_ (broker w2))); [done|].
  destruct (TopicFilterFactory.create topic_pattern) as [f| |]; [|done..].
  cbn. rewrite Hn, Hi. split; [done|]. split_and!; try done.
  - intros l. cbn. destruct (decide (l = next_loc w2)); [by split_and!|apply Hs].
  - cbn. by destruct (decide (next_loc w2 = next_loc w2)).
Qed.

Lemma similar_perform (a : Action Payload U) (w1 w2 : World) :
  similar w1 w2 -> similar (Broker.perform a w1) (Broker.perform a w2).
Proof.
  intros Hsim. destruct a as [l|l|t m|p c o]; cbn [Broker.perform].
  - by apply similar_cancel.
  - by apply similar_unsubscribe.
  - by apply similar_publish.
  - pose proof (similar_subscribe p c o w1 w2 Hsim) as H.
    destruct (Broker.subscribe p c o w1) as [[l1 w1']| |],
             (Broker.subscribe p c o w2) as [[l2 w2']| |]; try done. by destruct H.
Qed.

Lemma similar_performs (actions : list (Action Payload U)) (w1 w2 : World) :
  similar w1 w2 ->
  similar (foldl (fun w a => Broker.perform a w) w1 actions)
          (foldl (fun w a => Broker.perform a w) w2 actions).
Proof.
  revert w1 w2. induction actions as [|a actions IH]; intros w1 w2 Hsim; [done|].
  cbn [foldl]. by apply IH, similar_perform.
Qed.

Lemma similar_deliver sub (message : Message) (w1 w2 : World) :
  similar w1 w2 ->
  (deliver sub message w1).1 = (deliver sub message w2).1 /\
  similar (deliver sub message w1).2 (deliver sub message w2).2.
Proof.
  intros Hsim. pose proof Hsim as (Hs & Hn & Hi & Hb & Hu & Ht).
  destruct (Hs sub) as (Hid & Hf & Hcb & Hmax & Hcnt & Hact).
  unfold Subscription.deliver, Subscription.is_active, Subscription.matches,
    Subscription.message_count, Subscription.invoke, Subscription.acknowledge.
  rewrite Hact, Hf, Hmax, Hcnt.
  destruct (negb (active_ (subs w2 sub))); [split; [done|by apply similar_log]|].
  destruct (negb (filter_matches _ _)); [split; [done|by apply similar_log]|].
  destruct (_ && _); [split; [done|by apply similar_log]|].
  assert (Hrun : callback_ (subs (with_sub sub Subscription.count_message w1) sub) message
                   (user (with_sub sub Subscription.count_message w1)) =
                 callback_ (subs (with_sub sub Subscription.count_message w2) sub) message
                   (user (with_sub sub Subscription.count_message w2))).
  { cbn. destruct (decide (sub = sub)); [|done]. cbn. by rewrite Hcb, Hu. }
  rewrite Hrun.
  set (run := callback_ _ message _).
  assert (Hafter : similar
    (with_user (cb_user run)
       (foldl (fun w a => Broker.perform a w)
          (log (EvCallback sub message) (with_sub sub Subscription.count_message w1))
          (cb_actions run)))
    (with_user (cb_user run)
       (foldl (fun w a => Broker.perform a w)
          (log (EvCallback sub message) (with_sub sub Subscription.count_message w2))
          (cb_actions run)))).
  { by apply similar_with_user, similar_performs, similar_log, similar_count. }
  cbn [fst snd]. destruct (cb_throws run); cbn [fst snd].
  - split; [done|]. by apply similar_log.
  - split; [done|]. apply similar_log.
    by destruct (auto_acknowledge _), (auto_acknowledge _).
Qed.

Lemma similar_deliver_one (message : Message) sub (w1 w2 : World) :
  similar w1 w2 ->
  similar (Broker.deliver_one message w1 sub) (Broker.deliver_one message w2 sub).
Proof.
  intros Hsim. unfold Broker.deliver_one.
  destruct (similar_deliver sub message w1 w2 Hsim) as [Hr Hw].
  destruct (deliver sub message w1) as [r1 w1'], (deliver sub message w2) as [r2 w2'].
  cbn [fst snd] in *. subst r2. case_decide; [|done].
  by apply (similar_with_broker (fun b => set_delivered (incr (delivered_messages_ b)) b)).
Qed.

Lemma similar_process_message (message : Message) (w1 w2 : World) :
  similar w1 w2 ->
  similar (Broker.process_message message w1) (Broker.process_message message w2).
Proof.
  intros Hsim. unfold Broker.process_message.
  assert (Hm : Broker.matching_subs (topic message) w1 =
               Broker.matching_subs (topic message) w2).
  { destruct Hsim as (Hs & _ & _ & Hb & _). unfold Broker.matching_subs. rewrite Hb.
    f_equal. apply list_filter_iff. intros [k l]. unfold Subscription.matches. cbn.
    by destruct (Hs l) as (_ & -> & _). }
  rewrite Hm. generalize (Broker.matching_subs (topic message) w2). intros targets.
  clear Hm. revert w1 w2 Hsim. induction targets as [|sub targets IH]; intros w1 w2 Hsim; [done|].
  cbn [foldl]. by apply IH, similar_deliver_one.
Qed.

Lemma similar_step (o : Op Payload U) (w1 w2 : World) :
  similar w1 w2 -> similar (step w1 o) (step w2 o).
Proof.
  intros Hsim. destruct o as [c h| |t m|p c o|s|l|l m|]; cbn [step].
  - unfold Broker.initialize. destruct Hsim as (Hs & Hn & Hi & Hb & Hu & Ht). rewrite Hb.
    destruct (running_ (broker w2)); cbn [snd]; split_and!; try done. cbn. by rewrite Hb.
  - unfold Broker.shutdown. destruct Hsim as (Hs & Hn & Hi & Hb & Hu & Ht). rewrite Hb.
    destruct (negb (running_ (broker w2))); split_and!; try done. cbn. by rewrite Hb.
  - by apply similar_publish.
  - pose proof (similar_subscribe p c o w1 w2 Hsim) as H.
    destruct (Broker.subscribe p c o w1) as [[l1 w1']| |],
             (Broker.subscribe p c o w2) as [[l2 w2']| |]; try done. by destruct H.
  - by apply similar_unsubscribe.
  - by apply similar_cancel.
  - by apply similar_deliver.
  - unfold Broker.worker_iteration. pose proof Hsim as (Hs & Hn & Hi & Hb & Hu & Ht).
    rewrite Hb. destruct (message_queue_ (broker w2)) as [|m rest]; [done|].
    by apply similar_process_message, similar_with_broker.
Qed.

(** X23.  Of the options of a subscription only [max_messages] is read:
    two runs of the same operations from worlds that differ in nothing but
    [auto_acknowledge], [receive_existing_messages] and [timeout_ms] of
    their subscriptions show the same callbacks entered, the same results
    of [deliver], the same broker and the same application state. *)
Theorem only_max_messages_is_read (ops : list (Op Payload U)) (w1 w2 : World) :
  similar w1 w2 ->
  similar (run ops w1) (run ops w2) /\
  trace (run ops w1) = trace (run ops w2) /\
  broker (run ops w1) = broker (run ops w2) /\
  user (run ops w1) = user (run ops w2) /\
  forall sub, Subscription.message_count sub (run ops w1) =
              Subscription.message_count sub (run ops w2) /\
              Subscription.is_active sub (run ops w1) =
              Subscription.is_active sub (run ops w2).
Proof.
  intros Hsim.
  assert (H : similar (run ops w1) (run ops w2)).
  { revert w1 w2 Hsim. induction ops as [|o ops IH]; intros w1 w2 Hsim; [done|].
    unfold run. cbn [foldl]. by apply IH, similar_step. }
  split; [done|]. destruct H as (Hs & _ & _ & Hb & Hu & Ht). split_and!; try done.
  intros sub. destruct (Hs sub) as (_ & _ & _ & _ & H5 & H6). done.
Qed.

End SimilarityFacts.

(** ** Instances of the further properties *)

Lemma deserialize_keeps_payload_only_witness :
  let s := Fixture.flag_serializer in
  (forall p bytes, Message.serializer_serialize s p = Ok bytes ->
                   Message.serializer_deserialize s bytes = Ok p) /\
  Message.serialize s Fixture.flag = Ok [Byte.x01] /\
  exists m', Message.deserialize [Byte.x01] s "m2" 6 false = Ok m' /\
    payload m' = true /\ topic m' = "deserialized" /\ priority m' = Normal.
Proof.
  intros s.
  assert (H1 : forall p bytes, Message.serializer_serialize s p = Ok bytes ->
                               Message.serializer_deserialize s bytes = Ok p).
  { intros [|] bytes [= <-]; reflexivity. }
  assert (H2 : Message.serialize s Fixture.flag = Ok [Byte.x01]) by reflexivity.
  split; [exact H1|]. split; [exact H2|].
  destruct (deserialize_keeps_payload_only s Fixture.flag [Byte.x01] "m2" 6 false H1 H2)
    as (m' & G1 & G2 & G3 & G4 & _).
  exists m'. split; [exact G1|]. split; [exact G2|]. split; [exact G3|exact G4].
Defined.

Lemma publish_result_reading_witness :
  let message := Sample.message "t" Low in
  let w := Sample.running 1 in
  running_ (broker w) = true /\
  (Broker.publish "t" message w).1 = true /\
  message_queue_ (broker (Broker.publish "t" message w).2) = [message] /\
  running_ (broker (Broker.shutdown w)) = false /\
  (Broker.publish "t" message (Broker.shutdown w)).2 = Broker.shutdown w.
Proof.
  intros message w.
  assert (H1 : running_ (broker w) = true) by evaluate.
  assert (H2 : ~ (0 < max_queue_size (config_ (broker w))
                    <= Z.of_nat (List.length (message_queue_ (broker w)))))
    by (vm_compute; intros [_ H]; by apply H).
  assert (H3 : running_ (broker (Broker.shutdown w)) = false) by evaluate.
  destruct (publish_result_reading "t" message w) as (G1 & G2 & _).
  destruct (publish_result_reading "t" message (Broker.shutdown w)) as (_ & _ & _ & G3 & _).
  pose proof (proj2 G1 (conj H1 H2)) as Hr.
  split; [exact H1|]. split; [exact Hr|]. split.
  - rewrite G2, Hr. reflexivity.
  - split; [exact H3|exact (G3 H3)].
Defined.


Lemma initialize_reading_witness :
  let w := Sample.start in
  let w' := (Broker.initialize Fixture.any_threads 4 w).2 in
  running_ (broker w) = false /\
  thread_count Fixture.any_threads = 0 /\
  (Broker.initialize Fixture.any_threads 4 w).1 = true /\
  running_ (broker w') = true /\
  thread_count (config_ (broker w')) = 4 /\
  workers_ (broker w') = 4 /\
  max_queue_size (config_ (broker w')) = 7 /\
  thread_count (config_ (broker (Broker.initialize Fixture.any_threads 0 w).2)) = 1 /\
  thread_count (config_ (broker (Broker.initialize (Sample.config 3) 4 w).2)) = 1 /\
  (Broker.initialize (Sample.config 5) 4 w').1 = false /\
  (Broker.initialize (Sample.config 5) 4 w').2 = w'.
Proof.
  intros w w'.
  assert (H1 : running_ (broker w) = false) by evaluate.
  assert (H2 : thread_count Fixture.any_threads = 0) by reflexivity.
  assert (H3 : (4 : Z) <> 0) by discriminate.
  assert (H4 : thread_count (Sample.config 3) <> 0) by discriminate.
  destruct (initialize_reading Fixture.any_threads 4 w) as [_ G].
  destruct (G H1) as (G1 & G2 & _ & G3 & _ & G4 & _ & _ & _ & G5 & _).
  destruct (initialize_reading Fixture.any_threads 0 w) as [_ G0].
  destruct (G0 H1) as (_ & _ & _ & _ & G6 & _).
  destruct (initialize_reading (Sample.config 3) 4 w) as [_ G7].
  destruct (G7 H1) as (_ & _ & G8 & _).
  destruct (initialize_reading (Sample.config 5) 4 w') as [G9 _].
  destruct (G9 G2) as [G10 G11].
  split; [exact H1|]. split; [exact H2|]. split; [exact G1|]. split; [exact G2|].
  split; [exact (G3 H2 H3)|]. split; [exact (eq_trans G5 (f_equal (Z.add (workers_ (broker w))) (G3 H2 H3)))|].
  split; [exact G4|]. split; [exact (G6 H2 eq_refl)|]. split; [exact (G8 H4)|].
  split; [exact G10|exact G11].
Defined.


Lemma shutdown_reading_witness :
  let w := Sample.limited in
  let w' := Broker.shutdown w in
  running_ (broker w) = true /\
  Subscription.is_active 0%nat w = true /\
  subscriptions_ (broker w') = ∅ /\
  Broker.unsubscribe (Some 0%nat) w' = (false, w') /\
  Subscription.is_active 0%nat w' = true.
Proof.
  intros w w'.
  assert (H1 : running_ (broker w) = true) by evaluate.
  assert (H2 : Subscription.is_active 0%nat w = true) by evaluate.
  destruct (shutdown_reading w) as (_ & _ & _ & _ & _ & _ & _ & G).
  destruct (G H1) as (G1 & _ & _ & G2). destruct (G2 0%nat) as [G3 G4].
  split; [exact H1|]. split; [exact H2|]. split; [exact G1|]. split; [exact G3|].
  rewrite <- H2. exact G4.
Defined.

Lemma subscribe_registers_new_subscription_witness :
  let w := Sample.running 2 in
  let w' := Sample.subscribed "a/+" Sample.quiet default_options w in
  Broker.subscribe "a/+" Sample.quiet default_options w = Ok (0%nat, w') /\
  running_ (broker (Broker.shutdown w)) = false /\
  Broker.subscribe "a/+" Sample.quiet default_options (Broker.shutdown w) = Throws /\
  id_ (subs w' 0%nat) = "sub_0" /\
  Subscription.is_active 0%nat w' = true /\
  Subscription.message_count 0%nat w' = 0 /\
  (Broker.unsubscribe (Some 0%nat) w').1 = true.
Proof.
  intros w w'.
  assert (H1 : Broker.subscribe "a/+" Sample.quiet default_options w = Ok (0%nat, w'))
    by evaluate.
  assert (H2 : running_ (broker (Broker.shutdown w)) = false) by evaluate.
  destruct (subscribe_registers_new_subscription "a/+" Sample.quiet default_options w)
    as [_ G].
  destruct (G 0%nat w' H1) as (_ & _ & _ & _ & _ & G1 & G2 & G3 & _ & _ & _ & _ & _ & _ & G4).
  destruct (subscribe_registers_new_subscription "a/+" Sample.quiet default_options
              (Broker.shutdown w)) as [G5 _].
  split; [exact H1|]. split; [exact H2|]. split; [exact (G5 H2)|].
  split; [exact G3|]. split; [exact G1|]. split; [exact G2|exact G4].
Defined.

Lemma unsubscribe_reading_witness :
  let w := Sample.limited in
  let w' := (Broker.unsubscribe (Some 0%nat) w).2 in
  is_Some (subscriptions_ (broker w) !! id_ (subs w 0%nat)) /\
  (Broker.unsubscribe (Some 0%nat) w).1 = true /\
  Subscription.is_active 0%nat w' = false /\
  Broker.unsubscribe (Some 0%nat) w' = (false, w').
Proof.
  intros w w'.
  assert (H1 : is_Some (subscriptions_ (broker w) !! id_ (subs w 0%nat))).
  { exists 0%nat. evaluate. }
  destruct (unsubscribe_reading w) as (_ & _ & G).
  destruct (G 0%nat H1) as (G1 & G2 & _ & _ & _ & _ & _ & G3).
  split; [exact H1|]. split; [exact G1|]. split; [exact G2|exact G3].
Defined.

Lemma messages_without_subscription_are_dropped_witness :
  let w := Fixture.queued in
  subscriptions_ (broker w) = ∅ /\
  List.length (message_queue_ (broker w)) = 2%nat /\
  message_queue_ (broker (Broker.worker_turns 2 w)) = [] /\
  trace (Broker.worker_turns 2 w) = trace w.
Proof.
  intros w.
  assert (H1 : subscriptions_ (broker w) = ∅) by evaluate.
  assert (H2 : List.length (message_queue_ (broker w)) = 2%nat) by evaluate.
  destruct (messages_without_subscription_are_dropped 2 w H1) as (G1 & G2 & _).
  split; [exact H1|]. split; [exact H2|]. split; [|exact G2].
  rewrite G1. evaluate.
Defined.

Lemma registry_files_each_subscription_once_witness :
  let message := Sample.message "a/b" Normal in
  let w := Sample.quiet_and_faulty in
  let ops := [OPublish "a/b" message; OWorker; OUnsubscribe (Some 0%nat);
              OSubscribe "a/b" Sample.quiet default_options] in
  registry_wf w /\ registry_wf (run ops w) /\
  NoDup (Broker.matching_subs "a/b" (run ops w)).
Proof.
  intros message w ops.
  assert (H1 : registry_wf w).
  { apply (bool_decide_unpack _). evaluate. }
  destruct (registry_files_each_subscription_once ops "a/b" w H1) as (G1 & G2 & _).
  split; [exact H1|]. split; [exact G1|exact G2].
Defined.

Lemma queue_stays_within_capacity_witness :
  let message := Sample.message "a/b" Normal in
  let w := Sample.limited in
  let ops := [OPublish "a/b" message; OPublish "a/b" message; OPublish "a/b" message;
              OWorker; OShutdown; OPublish "a/b" message] in
  forallb (fun o => negb (is_initialize o)) ops = true /\
  0 < max_queue_size (config_ (broker w)) /\
  queue_bounded w /\
  queue_bounded (run ops w) /\
  (Broker.get_stats (run ops w)).(queued_messages) <= 2.
Proof.
  intros message w ops.
  assert (H1 : forallb (fun o => negb (is_initialize o)) ops = true) by reflexivity.
  assert (H2 : 0 < max_queue_size (config_ (broker w))) by evaluate.
  assert (H3 : queue_bounded w) by (unfold queue_bounded; evaluate).
  destruct (queue_stays_within_capacity ops w H1 H2 H3) as (_ & G1 & G2).
  split; [exact H1|]. split; [exact H2|]. split; [exact H3|]. split; [exact G1|exact G2].
Defined.

Lemma topic_map_stays_empty_witness :
  let message := Sample.message "a/b" Normal in
  let w := Sample.start in
  let ops := [OInitialize (Sample.config 2) 1; OSubscribe "a/b" Sample.quiet default_options;
              OPublish "a/b" message; OWorker] in
  topics_ (broker w) = ∅ /\
  Broker.get_topics (run ops w) = [] /\
  (Broker.get_stats (run ops w)).(topic_count) = 0 /\
  (Broker.get_stats (run ops w)).(subscription_count) = 1.
Proof.
  intros message w ops.
  assert (H1 : topics_ (broker w) = ∅) by reflexivity.
  assert (H2 : (Broker.get_stats (run ops w)).(subscription_count) = 1) by evaluate.
  destruct (topic_map_stays_empty ops w H1) as (_ & G1 & G2).
  split; [exact H1|]. split; [exact G1|]. split; [exact G2|exact H2].
Defined.

Lemma inactive_subscription_stays_silent_witness :
  let message := Sample.message "a/b" Normal in
  let w := (Broker.unsubscribe (Some 0%nat)
              (step Sample.limited (OPublish "a/b" message))).2 in
  let ops := [OWorker; OPublish "a/b" message; OWorker; ODeliver 0%nat message] in
  allocated 0%nat w /\ Subscription.is_active 0%nat w = false /\
  message_queue_ (broker w) = [message] /\
  Subscription.message_count 0%nat (run ops w) = Subscription.message_count 0%nat w /\
  never_called 0%nat (events_since w (run ops w)).
Proof.
  intros message w ops.
  assert (H1 : allocated 0%nat w) by (unfold allocated; vm_compute; lia).
  assert (H2 : Subscription.is_active 0%nat w = false) by evaluate.
  assert (H3 : message_queue_ (broker w) = [message]) by evaluate.
  destruct (inactive_subscription_stays_silent 0%nat ops w H1 H2) as (_ & G1 & G2 & _).
  split; [exact H1|]. split; [exact H2|]. split; [exact H3|]. split; [exact G1|exact G2].
Defined.

Lemma limit_bounds_callback_entries_witness :
  let message := Sample.message "a/b" Normal in
  let w := Sample.limited in
  let ops := [OPublish "a/b" message; OWorker; OPublish "a/b" message; OWorker;
              OPublish "a/b" message; OPublish "a/b" message; OWorker; OWorker;
              OPublish "a/b" message; OWorker] in
  allocated 0%nat w /\
  0 < max_messages (options_ (subs w 0%nat)) < SIZE_MODULUS /\
  0 <= Subscription.message_count 0%nat w <= max_messages (options_ (subs w 0%nat)) /\
  workers_ (broker w) <= 1 /\
  forallb (fun o => negb (is_initialize o) && negb (is_deliver o)) ops = true /\
  calls_of 0%nat (events_since w (run ops w)) = 3%nat /\
  List.length (delivered_to (events_since w (run ops w))) = 5%nat /\
  Subscription.message_count 0%nat (run ops w) <= max_messages (options_ (subs w 0%nat)).
Proof.
  intros message w ops.
  assert (H1 : allocated 0%nat w) by (unfold allocated; vm_compute; lia).
  assert (H2 : 0 < max_messages (options_ (subs w 0%nat)) < SIZE_MODULUS).
  { split; evaluate. }
  assert (H3 : 0 <= Subscription.message_count 0%nat w <= max_messages (options_ (subs w 0%nat))).
  { split; evaluate. }
  assert (H4 : workers_ (broker w) <= 1) by evaluate.
  assert (H5 : forallb (fun o : Op unit unit => negb (is_initialize o) && negb (is_deliver o))
                 ops = true) by reflexivity.
  assert (H6 : calls_of 0%nat (events_since w (run ops w)) = 3%nat) by evaluate.
  assert (H7 : List.length (delivered_to (events_since w (run ops w))) = 5%nat) by evaluate.
  destruct (limit_bounds_callback_entries 0%nat ops w H1 H2 H3 H4 H5) as (_ & G1 & _).
  split; [exact H1|]. split; [exact H2|]. split; [exact H3|]. split; [exact H4|].
  split; [exact H5|]. split; [exact H6|]. split; [exact H7|exact G1].
Defined.

Lemma workers_follow_queue_order_witness :
  let m1 := Sample.message "a/b" Normal in
  let m2 := Sample.message "x" High in
  let w := Fixture.busy in
  workers_ (broker w) = 1 /\
  message_queue_ (broker w) = [m1; m2] ++ [] /\
  Broker.worker_turns 2 w = foldl take_and_process w [m1; m2] /\
  delivered_messages_of (events_since w (Broker.worker_turns 2 w)) = [m1; m1].
Proof.
  intros m1 m2 w.
  assert (H0 : workers_ (broker w) = 1) by evaluate.
  assert (H1 : message_queue_ (broker w) = [m1; m2] ++ []) by evaluate.
  assert (H2 : delivered_messages_of (events_since w (Broker.worker_turns 2 w)) = [m1; m1])
    by evaluate.
  destruct (workers_follow_queue_order [m1; m2] [] w H0 H1) as (G1 & _).
  split; [exact H0|]. split; [exact H1|]. split; [exact G1|exact H2].
Defined.

Lemma topic_keeps_subscriptions_by_id_witness :
  let w := Sample.quiet_and_faulty in
  let topic := Topic.add_subscription 1%nat w (Topic.new "a/b") in
  let added := Topic.add_subscription 0%nat w topic in
  Topic.subscriptions_ topic !! id_ (subs w 0%nat) = None /\
  is_Some (Topic.subscriptions_ topic !! "sub_1") /\
  Topic.subscriptions_ added !! "sub_0" = Some 0%nat /\
  Topic.subscriptions_ added !! "sub_1" = Some 1%nat /\
  Topic.subscription_count added = 2 /\
  Topic.remove_subscription "sub_0" added = (true, topic) /\
  Topic.remove_subscription "sub_0" topic = (false, topic) /\
  (Topic.remove_subscription "sub_1" topic).1 = true /\
  Topic.subscriptions_ (Topic.remove_subscription "sub_1" topic).2 !! "sub_1" = None.
Proof.
  intros w topic added.
  assert (H1 : Topic.subscriptions_ topic !! id_ (subs w 0%nat) = None) by evaluate.
  assert (H2 : is_Some (Topic.subscriptions_ topic !! "sub_1")).
  { exists 1%nat. evaluate. }
  assert (H3 : "sub_1" <> id_ (subs w 0%nat)) by evaluate.
  assert (H4 : Topic.subscriptions_ topic !! "sub_1" = Some 1%nat) by evaluate.
  destruct (topic_keeps_subscriptions_by_id 0%nat topic w)
    as (G1 & _ & _ & G2 & _ & _ & G3 & G4 & _ & _ & G5 & _).
  destruct (G2 H1) as (G6 & G7 & G8).
  destruct (G5 "sub_1" H2) as (G9 & G10 & _).
  split; [exact H1|]. split; [exact H2|]. split; [exact G3|].
  split; [exact (eq_trans (G4 "sub_1" H3) H4)|]. split; [exact G7|].
  split; [|split; [exact G8|split; [exact G9|exact G10]]].
  rewrite (surjective_pairing (Topic.remove_subscription "sub_0" added)).
  exact (f_equal2 pair G1 G6).
Defined.

Lemma deliver_result_reading_witness :
  let other := Sample.message "x" Normal in
  let w := Sample.limited in
  Subscription.is_active 0%nat w && Subscription.matches 0%nat (topic other) w &&
    negb (capped 0%nat w) = false /\
  (Subscription.deliver Broker.perform 0%nat other w).1 = Filtered /\
  user (Subscription.deliver Broker.perform 0%nat other w).2 = user w /\
  subs (Subscription.deliver Broker.perform 0%nat other w).2 = subs w.
Proof.
  intros other w.
  assert (H1 : Subscription.is_active 0%nat w && Subscription.matches 0%nat (topic other) w &&
                 negb (capped 0%nat w) = false) by evaluate.
  destruct (deliver_result_reading 0%nat other w) as (G1 & _ & _ & _ & G2).
  destruct (G2 H1) as (G3 & G4 & _).
  split; [exact H1|]. split; [|split; [exact G3|exact G4]].
  rewrite G1, H1. evaluate.
Defined.

Lemma only_max_messages_is_read_witness :
  let message := Sample.message "a/b" Normal in
  let ops := [OPublish "a/b" message; OWorker; ODeliver 0%nat message] in
  similar Sample.limited Fixture.limited_other /\
  auto_acknowledge (options_ (subs Sample.limited 0%nat)) = true /\
  auto_acknowledge (options_ (subs Fixture.limited_other 0%nat)) = false /\
  trace (run ops Sample.limited) = trace (run ops Fixture.limited_other) /\
  broker (run ops Sample.limited) = broker (run ops Fixture.limited_other).
Proof.
  intros message ops.
  assert (H1 : similar Sample.limited Fixture.limited_other).
  { split; [|by split_and!]. intros l. unfold Fixture.limited_other. cbn [subs with_sub].
    destruct (decide (l = 0%nat)) as [->|]; [|by split_and!].
    split_and!; evaluate. }
  assert (H2 : auto_acknowledge (options_ (subs Sample.limited 0%nat)) = true) by evaluate.
  assert (H3 : auto_acknowledge (options_ (subs Fixture.limited_other 0%nat)) = false)
    by evaluate.
  destruct (only_max_messages_is_read ops _ _ H1) as (_ & G1 & G2 & _).
  split; [exact H1|]. split; [exact H2|]. split; [exact H3|]. split; [exact G1|exact G2].
Defined.
